(** * task_train.py: training, validation and checkpointing of super-resolution models

    A shallow embedding of [task_train.py] and the properties of its
    orchestration layer: placeholder resolution in the experiment descriptor,
    checkpoint discovery, global-step accounting, the replica adapters, the
    cyclic gates and the checkpoint writer.

    Python values are embedded as follows: [str] as [string] (compared by code
    point, as Python does), [int] as [Z], the parsed YAML document as the
    inductive [yaml] whose mappings keep their insertion order, exceptions as
    the [Raised] outcome of a state-and-exception monad whose state survives
    the exception (what was written to disk before a crash stays written). *)

From Stdlib Require Import List String Ascii ZArith Bool Lia PeanoNat.
From Stdlib Require Import QArith Floats Sorting.Mergesort Sorting.Sorted Sorting.Permutation.
From Stdlib Require Import Orders DecimalString.
From Stdlib Require Decimal DecimalFacts DecimalPos DecimalN.
Import ListNotations.

Local Open Scope string_scope.
Local Open Scope list_scope.
Local Open Scope Z_scope.

(** ** Python string primitives *)

Module PyStr.

(** [s.startswith(p)] *)
Definition startswith (p s : string) : bool := String.prefix p s.

(** [s.endswith(suffix)] *)
Definition endswith (suffix s : string) : bool :=
  let n := String.length s in
  let m := String.length suffix in
  (m <=? n)%nat && (String.substring (n - m) m s =? suffix)%string.

(** [sub in s] *)
Fixpoint contains (sub s : string) : bool :=
  String.prefix sub s ||
  match s with
  | EmptyString => false
  | String _ s' => contains sub s'
  end.

(** The scan of [s.replace(old, new)] for a non-empty [old]: left to right,
    every match is replaced and the scan resumes after it ([skip] counts the
    characters of the current match that remain to be dropped). *)
Fixpoint replace_from (skip : nat) (old new s : string) : string :=
  match s with
  | EmptyString => EmptyString
  | String c s' =>
      match skip with
      | S k => replace_from k old new s'
      | O =>
          if String.prefix old s
          then (new ++ replace_from (String.length old - 1) old new s')%string
          else String c (replace_from 0 old new s')
      end
  end.

(** With an empty [old] Python inserts [new] before every character and at
    the end. *)
Fixpoint intersperse (new s : string) : string :=
  match s with
  | EmptyString => new
  | String c s' => (new ++ String c (intersperse new s'))%string
  end.

(** [s.replace(old, new)] *)
Definition replace (old new s : string) : string :=
  match old with
  | EmptyString => intersperse new s
  | String _ _ => replace_from 0 old new s
  end.

(** [c in s] for a single character. *)
Fixpoint mem_char (c : ascii) (s : string) : bool :=
  match s with
  | EmptyString => false
  | String d s' => Ascii.eqb c d || mem_char c s'
  end.

(** [c * n] for a one-character string [c]. *)
Fixpoint repeat_char (c : ascii) (n : nat) : string :=
  match n with
  | O => EmptyString
  | S k => String c (repeat_char c k)
  end.

(** [s.rjust(width, fill)] *)
Definition rjust (width : nat) (fill : ascii) (s : string) : string :=
  (repeat_char fill (width - String.length s) ++ s)%string.

End PyStr.

(** ** The parsed descriptor *)

(** What [yaml.YAML(typ='safe').load] returns: scalars, lists and mappings.
    The keys of the descriptor's mappings are names, that is strings; a
    mapping keeps the order in which its keys were inserted. *)
#[local] Set Warnings "-register-all".
Inductive yaml :=
| YNull
| YBool (b : bool)
| YInt (i : Z)
| YFloat (f : float)
| YStr (s : string)
| YList (items : list yaml)
| YDict (entries : list (string * yaml)).

(** A Python [dict] with string keys, in insertion order. *)
Module PyDict.

(** [d.get(k, None)] as an option; [k in d] is [in_ k d]. *)
Fixpoint get {A} (k : string) (d : list (string * A)) : option A :=
  match d with
  | [] => None
  | (k', v) :: d' => if (k' =? k)%string then Some v else get k d'
  end.

Definition in_ {A} (k : string) (d : list (string * A)) : bool :=
  match get k d with Some _ => true | None => false end.

(** [d[k] = v]: an existing key keeps its place, a new key goes last. *)
Fixpoint set {A} (k : string) (v : A) (d : list (string * A)) : list (string * A) :=
  match d with
  | [] => [(k, v)]
  | (k', v') :: d' =>
      if (k' =? k)%string then (k, v) :: d' else (k', v') :: set k v d'
  end.

End PyDict.

(** Python's truth value of a parsed YAML value ([not val] is its negation). *)
Definition truthy (v : yaml) : bool :=
  match v with
  | YNull => false
  | YBool b => b
  | YInt i => negb (i =? 0)
  | YFloat f => negb (PrimFloat.eqb f 0%float)
  | YStr s => negb (s =? "")%string
  | YList items => match items with [] => false | _ => true end
  | YDict entries => match entries with [] => false | _ => true end
  end.

(** ** Exceptions *)

Inductive exn :=
| ValueError (msg : string)
| KeyError (k : string)
| IndexError
| TypeError
| AttributeError
| ZeroDivisionError
| StopIteration
| UnboundLocalError
| OSError (path : string).

Inductive outcome (A : Type) :=
| Returned (a : A)
| Raised (e : exn).
Arguments Returned {A} a.
Arguments Raised {A} e.

(** ** resolve_strings *)

(** A key of the loop [for key, val in iterator]: the key of a mapping
    entry, or the integer index that [enumerate] pairs with a list item. *)
Inductive key :=
| KStr (s : string)
| KInt (i : Z).

Definition placeholder : string := "{experiment_name}".

Section Resolve.

(** [pathlib.Path(val).expanduser()] and [pathlib.Path(val).resolve()] read
    the process environment (home directories, working directory, symbolic
    links); they are taken as given. *)
Variable expanduser : string -> string.
Variable resolve : string -> string.

(** [pathlib.PurePath(val).is_absolute()] on POSIX. *)
Definition is_absolute (val : string) : bool := PyStr.startswith "/" val.

(** Lines 37-42. *)
Definition normalize_path (val : string) : string :=
  if is_absolute val then val
  else if PyStr.startswith "~" val then expanduser val
  else resolve val.

(** [isinstance(key, str) and 'path' in key] *)
Definition is_path_key (k : key) : bool :=
  match k with
  | KStr s => PyStr.contains "path" s
  | KInt _ => false
  end.

(** Lines 33-42: the new value of a string item. *)
Definition resolve_string (experiment_name : string) (k : key) (val : string) : string :=
  let val := PyStr.replace placeholder experiment_name val in
  if is_path_key k then normalize_path val else val.

(** The body of the loop (lines 31-44) for one [(key, val)], given the
    function for the recursive call; the item keeps its value unless it is a
    string. *)
Definition resolve_item (rec : yaml -> yaml) (experiment_name : string)
  (k : key) (val : yaml) : yaml :=
  match val with
  | YList _ | YDict _ => rec val
  | YStr s => YStr (resolve_string experiment_name k s)
  | _ => val
  end.

(** [[f(key, val) for key, val in enumerate(l, i)]] *)
Fixpoint map_enumerate {A B} (f : Z -> A -> B) (i : Z) (l : list A) : list B :=
  match l with
  | [] => []
  | a :: l' => f i a :: map_enumerate f (i + 1) l'
  end.

(** The container [data] after [resolve_strings(data, experiment_name)]
    has mutated it in place: a list is walked with [enumerate], whose keys
    are the indices from 0, a mapping with [items()]. On a scalar the
    function is never called recursively (line 31); see [resolve_strings]
    for the top-level call. *)
Fixpoint resolved (experiment_name : string) (data : yaml) : yaml :=
  match data with
  | YList items =>
      YList (map_enumerate
               (fun i v => resolve_item (resolved experiment_name) experiment_name
                             (KInt i) v)
               0 items)
  | YDict entries =>
      YDict (map (fun kv : string * yaml =>
                    (fst kv, resolve_item (resolved experiment_name) experiment_name
                               (KStr (fst kv)) (snd kv)))
                 entries)
  | _ => data
  end.

(** [resolve_strings(data, experiment_name)]: [data] must be a list or a
    mapping (line 28 calls [data.items()] on anything that is not a list). *)
Definition resolve_strings (data : yaml) (experiment_name : string) : outcome yaml :=
  match data with
  | YList _ | YDict _ => Returned (resolved experiment_name data)
  | _ => Raised AttributeError
  end.

End Resolve.

(** ** Sorting names: [sorted(names)] on Python strings *)

Module StringOrder <: TotalLeBool.
Definition t := string.
Definition leb (a b : string) : bool := String.leb a b.
Lemma leb_total : forall a b, leb a b = true \/ leb b a = true.
Proof. exact String.leb_total. Qed.
End StringOrder.

Module StringSort := Sort StringOrder.

(** [sorted(names)] *)
Definition sorted (names : list string) : list string := StringSort.sort names.

(** ** The file system *)

(** [os.path.join(a, b)] for two components. *)
Definition path_join (a b : string) : string :=
  if PyStr.startswith "/" b then b
  else if (a =? "")%string || PyStr.endswith "/" a then (a ++ b)%string
  else (a ++ "/" ++ b)%string.

Section FileSystem.

(** The serialized weights of a model ([save_weights]); the file format is
    the Model Provider's. *)
Variable Blob : Type.

Inductive file :=
| YamlFile (document : yaml)
| WeightsFile (weights : Blob)
| OtherFile.

Inductive node :=
| File (f : file)
| Dir.

(** Paths and what they name; a later binding of a path is shadowed by an
    earlier one. *)
Definition filesystem := list (string * node).

Fixpoint lookup (path : string) (fs : filesystem) : option node :=
  match fs with
  | [] => None
  | (p, n) :: fs' => if (p =? path)%string then Some n else lookup path fs'
  end.

(** [os.path.isfile] and [os.path.isdir] *)
Definition isfile (fs : filesystem) (path : string) : bool :=
  match lookup path fs with Some (File _) => true | _ => false end.

Definition isdir (fs : filesystem) (path : string) : bool :=
  match lookup path fs with Some Dir => true | _ => false end.

(** The name under which [path] lists the node at [p], when [p] is directly
    inside [path]. *)
Definition child_name (path p : string) : option string :=
  let prefix := if PyStr.endswith "/" path then path else (path ++ "/")%string in
  if PyStr.startswith prefix p then
    let name := String.substring (String.length prefix)
                  (String.length p - String.length prefix) p in
    if (name =? "")%string || PyStr.mem_char "/" name then None else Some name
  else None.

(** [os.listdir(path)], in the order the file system keeps its entries. *)
Fixpoint listdir (fs : filesystem) (path : string) : list string :=
  match fs with
  | [] => []
  | (p, _) :: fs' =>
      match child_name path p with
      | Some name => if existsb (String.eqb name) (listdir fs' path)
                     then listdir fs' path else name :: listdir fs' path
      | None => listdir fs' path
      end
  end.

(** The directory part of a path, when it has one: the text before its last
    separator. *)
Fixpoint dirname (path : string) : option string :=
  match path with
  | EmptyString => None
  | String c rest =>
      match dirname rest with
      | Some d => Some (String c d)
      | None => if Ascii.eqb c "/" then Some EmptyString else None
      end
  end.

(** Whether a file can be created at [path]: its directory exists (a path
    without directory part is in the working directory, an empty directory
    part is the root) and [path] itself is no directory. *)
Definition writable (fs : filesystem) (path : string) : bool :=
  negb (isdir fs path) &&
  match dirname path with
  | None => true
  | Some EmptyString => true
  | Some d => isdir fs d
  end.

(** ** The process state and the monad of the script *)

(** What the script leaves behind, in the order it happened. A summary's
    tag is the f-string [metric[name]]; it is kept as its two parts. *)
Inductive event :=
| SavedWeights (model path : string)
| DumpedDescriptor (path : string) (document : yaml)
| MadeDirs (path : string)
| CreatedWriter (path : string)
| LoggedInfo (message : string)
| SummaryScalar (metric : string) (name : yaml) (step : Z) (data : Q)
| SummaryImage (metric : string) (name : yaml) (step : Z).

Record world := {
  fs : filesystem;
  (** names of [tf.config.experimental.list_logical_devices('GPU')] *)
  gpus : list string;
  trace : list event
}.

(** A computation either returns or raises; the world it reached is kept in
    both cases. *)
Definition M (A : Type) : Type := world -> outcome A * world.

Definition ret {A} (a : A) : M A := fun w => (Returned a, w).

Definition raise {A} (e : exn) : M A := fun w => (Raised e, w).

Definition bind {A B} (m : M A) (k : A -> M B) : M B :=
  fun w =>
    match m w with
    | (Returned a, w') => k a w'
    | (Raised e, w') => (Raised e, w')
    end.

Definition lift {A} (o : outcome A) : M A := fun w => (o, w).

Definition get_world : M world := fun w => (Returned w, w).

Definition emit (e : event) : M unit :=
  fun w => (Returned tt, {| fs := fs w; gpus := gpus w; trace := trace w ++ [e] |}).

Definition put_fs (fs' : filesystem) : M unit :=
  fun w => (Returned tt, {| fs := fs'; gpus := gpus w; trace := trace w |}).

End FileSystem.

Arguments YamlFile {Blob} document.
Arguments WeightsFile {Blob} weights.
Arguments OtherFile {Blob}.
Arguments File {Blob} f.
Arguments Dir {Blob}.
Arguments lookup {Blob} path fs.
Arguments isfile {Blob} fs path.
Arguments isdir {Blob} fs path.
Arguments listdir {Blob} fs path.
Arguments writable {Blob} fs path.
Arguments fs {Blob} w.
Arguments gpus {Blob} w.
Arguments trace {Blob} w.
Arguments Build_world {Blob} fs gpus trace.
Arguments ret {Blob A} a.
Arguments raise {Blob A} e.
Arguments bind {Blob A B} m k.
Arguments lift {Blob A} o.
Arguments get_world {Blob}.
Arguments emit {Blob} e.
Arguments put_fs {Blob} fs'.

Declare Scope py_scope.
Delimit Scope py_scope with py.
Notation "x <- m ;; k" := (bind m (fun x => k))
  (at level 61, m at next level, right associativity) : py_scope.
Notation "m ;;; k" := (bind m (fun _ => k))
  (at level 61, right associativity) : py_scope.
Local Open Scope py_scope.

(** ** Python values read from the descriptor *)

(** [str(i)] for an integer. *)
Definition str_of_Z (i : Z) : string :=
  DecimalString.NilZero.string_of_int (Z.to_int i).

(** [y[k]] for a string [k]: only a mapping can be subscripted by a string. *)
Definition subscript (y : yaml) (k : string) : outcome yaml :=
  match y with
  | YDict entries =>
      match PyDict.get k entries with
      | Some v => Returned v
      | None => Raised (KeyError k)
      end
  | _ => Raised TypeError
  end.

(** [y[k] = v] for a string [k]; lists, strings and scalars refuse it. *)
Definition assign (y : yaml) (k : string) (v : yaml) : outcome yaml :=
  match y with
  | YDict entries => Returned (YDict (PyDict.set k v entries))
  | _ => Raised TypeError
  end.

(** [y.items()] *)
Definition items (y : yaml) : outcome (list (string * yaml)) :=
  match y with
  | YDict entries => Returned entries
  | _ => Raised AttributeError
  end.

(** [y.get(k, default)] *)
Definition get_default (y : yaml) (k : string) (default : yaml) : outcome yaml :=
  match y with
  | YDict entries =>
      match PyDict.get k entries with
      | Some v => Returned v
      | None => Returned default
      end
  | _ => Raised AttributeError
  end.

(** The characters of a string, as a loop over it yields them. *)
Fixpoint chars (s : string) : list yaml :=
  match s with
  | EmptyString => []
  | String c s' => YStr (String c EmptyString) :: chars s'
  end.

(** [for x in y] *)
Definition iterate (y : yaml) : outcome (list yaml) :=
  match y with
  | YList l => Returned l
  | YDict entries => Returned (map (fun kv => YStr (fst kv)) entries)
  | YStr s => Returned (chars s)
  | _ => Raised TypeError
  end.

(** ['name' in y] *)
Definition contains_name (y : yaml) (k : string) : outcome bool :=
  match y with
  | YDict entries => Returned (PyDict.in_ k entries)
  | YList l =>
      Returned (existsb (fun v => match v with
                                  | YStr s => (s =? k)%string
                                  | _ => false
                                  end) l)
  | YStr s => Returned (PyStr.contains k s)
  | _ => Raised TypeError
  end.

(** A value used as an integer operand: [bool] is a subclass of [int]. A
    float operand is accepted by Python and gives a float; the descriptor's
    steps, cycles and indices are integers, and the embedding stops with a
    [TypeError] on anything else. *)
Definition as_int (y : yaml) : outcome Z :=
  match y with
  | YInt i => Returned i
  | YBool b => Returned (if b then 1 else 0)
  | _ => Raised TypeError
  end.

(** A value used where a path is expected ([os.path.join], [os.makedirs]). *)
Definition as_str (y : yaml) : outcome string :=
  match y with
  | YStr s => Returned s
  | _ => Raised TypeError
  end.

(** [l[i]] on a sequence: a negative index counts from the end. *)
Definition py_index {A} (l : list A) (i : Z) : outcome A :=
  let n := Z.of_nat (List.length l) in
  let j := if i <? 0 then i + n else i in
  if (j <? 0) || (n <=? j) then Raised IndexError
  else match nth_error l (Z.to_nat j) with
       | Some a => Returned a
       | None => Raised IndexError
       end.

(** [step % cycle], where Python's sign convention is that of [Z.modulo]. *)
Definition py_mod (step cycle : Z) : outcome Z :=
  if cycle =? 0 then Raised ZeroDivisionError else Returned (step mod cycle).

(** Binding on plain outcomes. *)
Definition obind {A B} (o : outcome A) (k : A -> outcome B) : outcome B :=
  match o with
  | Returned a => k a
  | Raised e => Raised e
  end.

Notation "x <-- o ;; k" := (obind o (fun x => k))
  (at level 61, o at next level, right associativity) : py_scope.

(** [[f(x) for x in l]] where [f] may raise. *)
Fixpoint omap {A B} (f : A -> outcome B) (l : list A) : outcome (list B) :=
  match l with
  | [] => Returned []
  | a :: l' => b <-- f a ;; bs <-- omap f l' ;; Returned (b :: bs)
  end.

(** ** Distribution strategies *)

(** The two strategies [load_experiment] chooses between. *)
Inductive strategy :=
| OneDeviceStrategy (device : string)
| MirroredStrategy (devices : list string).

Definition num_replicas_in_sync (s : strategy) : nat :=
  match s with
  | OneDeviceStrategy _ => 1
  | MirroredStrategy devices => List.length devices
  end.

(** A value as a strategy hands it around: the plain value of the single
    replica of [OneDeviceStrategy], or an object with one component per
    replica in its [values] attribute. *)
Inductive distributed (A : Type) :=
| Local (a : A)
| PerReplica (values : list A).
Arguments Local {A} a.
Arguments PerReplica {A} values.


(** The components of a distributed value, one per replica. *)
Definition replica_values {A} (x : distributed A) : list A :=
  match x with
  | Local a => [a]
  | PerReplica values => values
  end.

Definition dmap {A B} (f : A -> B) (x : distributed A) : distributed B :=
  match x with
  | Local a => Local (f a)
  | PerReplica values => PerReplica (map f values)
  end.

(** A variable created under [strategy.scope()] with initial value [a]. *)
Definition mirrored {A} (s : strategy) (a : A) : distributed A :=
  match s with
  | OneDeviceStrategy _ => Local a
  | MirroredStrategy devices => PerReplica (map (fun _ => a) devices)
  end.

(** [strategy.experimental_run_v2(fn, args=(data,))] for a function without
    effect on the session: [fn] runs once per replica on that replica's
    component of [data]; a value that is not distributed is given to every
    replica. [OneDeviceStrategy] calls [fn] on [data] as it is and returns
    its result as it is. *)
Definition experimental_run_v2 {A B} (s : strategy) (fn : A -> outcome B)
  (data : distributed A) : outcome (distributed B) :=
  match s, data with
  | OneDeviceStrategy _, Local a => b <-- fn a ;; Returned (Local b)
  | OneDeviceStrategy _, PerReplica _ => Raised TypeError
  | MirroredStrategy _, PerReplica values =>
      bs <-- omap fn values ;; Returned (PerReplica bs)
  | MirroredStrategy devices, Local a =>
      bs <-- omap fn (map (fun _ => a) devices) ;; Returned (PerReplica bs)
  end.

(** The results of a function that returns a pair come back as a pair: of
    plain values from one device, of per-replica objects otherwise. *)
Definition regroup {A B} (x : distributed (A * B)) : distributed A * distributed B :=
  match x with
  | Local (a, b) => (Local a, Local b)
  | PerReplica values => (PerReplica (map fst values), PerReplica (map snd values))
  end.

Definition Qsum (l : list Q) : Q := fold_right Qplus 0%Q l.

Definition Zsum (l : list Z) : Z := fold_right Z.add 0 l.

(** [strategy.reduce(tf.distribute.ReduceOp.MEAN, x, axis=None)] on real
    scalars: the mean over the replicas; a plain value is its own mean. *)
Definition reduce_mean (x : distributed Q) : Q :=
  match x with
  | Local a => a
  | PerReplica values => (Qsum values / inject_Z (Z.of_nat (List.length values)))%Q
  end.

(** The same reduction on an integer variable, read with [int(...)]. *)
Definition reduce_mean_int (x : distributed Z) : Z :=
  match x with
  | Local a => a
  | PerReplica values => Zsum values / Z.of_nat (List.length values)
  end.

(** [d[k]] on a dictionary of the session. *)
Definition lookup_key {A} (k : string) (d : list (string * A)) : outcome A :=
  match PyDict.get k d with
  | Some a => Returned a
  | None => Raised (KeyError k)
  end.

(** ** The session *)

Section Script.

(** *** External collaborators

    TensorFlow, the Model Provider and the process environment are taken as
    given: tensors, the variables of all models and optimizers, gradients
    and serialized weights are abstract, and so are the functions on them. *)

Variable Blob : Type.
Variable expanduser : string -> string.
Variable resolve : string -> string.

Variable Tensor : Type.
Variable Weights : Type.
Variable Grad : Type.

(** [tape.gradient(loss, base_model.trainable_variables)]: the gradient, at
    the current variables, of the loss computed under the tape. *)
Variable tape_gradient : (Weights -> Q) -> Weights -> Grad.

(** A Keras optimizer: its iteration counter, a variable with one copy per
    replica, and the configuration it was built from. *)
Record optimizer := {
  iterations : distributed Z;
  hyper : yaml
}.

(** [optimizer.apply_gradients] under a strategy: the gradients of all
    replicas are summed and applied once to the variables (the note at
    lines 217-229). *)
Variable apply_gradients : optimizer -> list Grad -> Weights -> Weights.

(** [optimizer.get_config()] of an optimizer built from a configuration. *)
Variable keras_config : yaml -> yaml.

(** [model.save_weights] and [model.load_weights] of a named principal. *)
Variable weights_blob : string -> Weights -> Blob.
Variable load_blob : string -> Blob -> Weights -> Weights.

(** [tf.concat(values, axis=0)], and [np.mean(tf.image.psnr(a, b, 2.0))],
    [np.mean(tf.image.ssim(a, b, 2.0))] as real numbers. *)
Variable concat : list Tensor -> Tensor.
Variable psnr : Tensor -> Tensor -> Q.
Variable ssim : Tensor -> Tensor -> Q.

(** A batch as a dataset iterator yields it: one tuple of tensors per
    replica. *)
Definition batch : Type := distributed (list Tensor).

(** What [build_strategic_training_model] closes over; the optimizer is an
    object shared with [context['optimizers']] and is named by its key
    there. *)
Record training_adapter := {
  ta_strategy : strategy;
  ta_base_model : Weights -> list Tensor -> list Q;
  ta_index_inputs : yaml;
  ta_optimizer : string;
  ta_num_replicas : Z
}.

(** What [build_strategic_validation_model] closes over. *)
Record validation_adapter := {
  va_strategy : strategy;
  va_base_model : Weights -> list Tensor -> Tensor;
  va_index_inputs : yaml;
  va_index_hd_images : yaml
}.

(** [context['models']]: what the Model Provider built (callables by name
    and the variables they share) and the two mappings [build_models] adds. *)
Record models := {
  extensions : list (string * (Weights -> list Tensor -> list Q));
  principals : list (string * (Weights -> list Tensor -> Tensor));
  strategic_extensions : list (string * training_adapter);
  strategic_principals : list (string * validation_adapter);
  weights : Weights
}.

(** The [build_models] of the module named by the descriptor, called with
    the descriptor's parameters. *)
Variable model_provider : yaml -> yaml -> outcome models.

(** The [context] dictionary; the entries [build_datasets] and
    [build_models] add are absent before. The logger and the scribe write
    to the [trace] of the world. *)
Record context := {
  ctx_experiment : yaml;
  ctx_strategy : strategy;
  ctx_global_step : yaml;
  ctx_datasets : option (list (string * list batch));
  ctx_models : option models;
  ctx_optimizers : option (list (string * optimizer))
}.

Definition set_experiment (ctx : context) (e : yaml) : context :=
  {| ctx_experiment := e; ctx_strategy := ctx_strategy ctx;
     ctx_global_step := ctx_global_step ctx; ctx_datasets := ctx_datasets ctx;
     ctx_models := ctx_models ctx; ctx_optimizers := ctx_optimizers ctx |}.

Definition set_datasets (ctx : context) (d : list (string * list batch)) : context :=
  {| ctx_experiment := ctx_experiment ctx; ctx_strategy := ctx_strategy ctx;
     ctx_global_step := ctx_global_step ctx; ctx_datasets := Some d;
     ctx_models := ctx_models ctx; ctx_optimizers := ctx_optimizers ctx |}.

Definition set_models (ctx : context) (m : models) : context :=
  {| ctx_experiment := ctx_experiment ctx; ctx_strategy := ctx_strategy ctx;
     ctx_global_step := ctx_global_step ctx; ctx_datasets := ctx_datasets ctx;
     ctx_models := Some m; ctx_optimizers := ctx_optimizers ctx |}.

Definition set_optimizers (ctx : context) (o : list (string * optimizer)) : context :=
  {| ctx_experiment := ctx_experiment ctx; ctx_strategy := ctx_strategy ctx;
     ctx_global_step := ctx_global_step ctx; ctx_datasets := ctx_datasets ctx;
     ctx_models := ctx_models ctx; ctx_optimizers := Some o |}.

Definition set_weights (m : models) (w : Weights) : models :=
  {| extensions := extensions m; principals := principals m;
     strategic_extensions := strategic_extensions m;
     strategic_principals := strategic_principals m; weights := w |}.

Definition set_strategic_extensions (m : models)
  (e : list (string * training_adapter)) : models :=
  {| extensions := extensions m; principals := principals m;
     strategic_extensions := e;
     strategic_principals := strategic_principals m; weights := weights m |}.

Definition set_strategic_principals (m : models)
  (p : list (string * validation_adapter)) : models :=
  {| extensions := extensions m; principals := principals m;
     strategic_extensions := strategic_extensions m;
     strategic_principals := p; weights := weights m |}.

(** [context[k]] for an entry that may be absent. *)
Definition entry {A} (k : string) (o : option A) : outcome A :=
  match o with
  | Some a => Returned a
  | None => Raised (KeyError k)
  end.

(** A descriptor value used as the key of a [dict] with string keys. *)
Definition lookup_yaml {A} (k : yaml) (d : list (string * A)) : outcome A :=
  match k with
  | YStr s => lookup_key s d
  | YList _ | YDict _ => Raised TypeError
  | _ => Raised (KeyError "")
  end.

(** *** global_step (lines 47-70) *)

Definition global_step (ctx : context) : outcome Z :=
  optimizers <-- entry "optimizers" (ctx_optimizers ctx) ;;
  let step :=
    fold_left (fun step o => Z.max step (reduce_mean_int (iterations (snd o))))
      optimizers 0 in
  base <-- as_int (ctx_global_step ctx) ;;
  Returned (step + base).

(** *** find_latest_checkpoint (lines 73-100) *)

Definition find_latest_checkpoint (path : string) : M Blob string :=
  w <- get_world ;;
  if negb (isdir (fs w) path) then ret path
  else
    let names := listdir (fs w) path in
    let names := filter (PyStr.endswith "_checkpoint.yaml") names in
    let names := sorted names in
    match names with
    | [] => raise (ValueError ("Found no checkpoint within " ++ path)%string)
    | _ :: _ => ret (path_join path (last names ""))
    end.

(** *** load_experiment (lines 103-168) *)

(** [yaml.YAML(typ='safe').load] of the file at [path]; the parser is not
    modelled, a file either holds a document or is refused. *)
Definition load_yaml (path : string) : M Blob yaml :=
  w <- get_world ;;
  match lookup path (fs w) with
  | Some (File (YamlFile document)) => ret document
  | _ => raise (OSError path)
  end.

(** The directories above [path], nearest first. *)
Fixpoint ancestors (fuel : nat) (path : string) : list string :=
  match fuel with
  | O => []
  | S n =>
      match dirname path with
      | Some EmptyString | None => []
      | Some d => d :: ancestors n d
      end
  end.

(** [os.makedirs(path, exist_ok=True)] *)
Definition makedirs (path : string) : M Blob unit :=
  w <- get_world ;;
  let wanted := path :: ancestors (String.length path) path in
  if existsb (isfile (fs w)) wanted then raise (OSError path)
  else
    let missing := filter (fun p => negb (isdir (fs w) p)) wanted in
    put_fs (map (fun p => (p, Dir)) missing ++ fs w) ;;;
    emit (MadeDirs path).

(** Whether [resolve_strings] meets a string item in [data]. *)
Fixpoint has_string_item (data : yaml) : bool :=
  match data with
  | YStr _ => true
  | YList items => existsb has_string_item items
  | YDict entries => existsb (fun kv => has_string_item (snd kv)) entries
  | _ => false
  end.

(** Line 138, [resolve_strings(experiment, experiment['name'])]: a name that
    is not a string makes [val.replace] raise at the first string item. *)
Definition resolve_experiment (experiment name : yaml) : outcome yaml :=
  match name with
  | YStr experiment_name =>
      resolve_strings expanduser resolve experiment experiment_name
  | _ =>
      match experiment with
      | YList _ | YDict _ =>
          if has_string_item experiment then Raised TypeError else Returned experiment
      | _ => Raised AttributeError
      end
  end.

(** Lines 147-153. *)
Definition choose_strategy (gpus : list string) : outcome strategy :=
  if (1 <? List.length gpus)%nat then Returned (MirroredStrategy gpus)
  else match gpus with
       | gpu :: _ => Returned (OneDeviceStrategy gpu)
       | [] => Raised IndexError
       end.

Definition load_experiment (path : string) : M Blob context :=
  w <- get_world ;;
  if negb (isfile (fs w) path)
  then raise (ValueError ("Invalid experiment path: " ++ path)%string)
  else
    experiment <- load_yaml path ;;
    has_name <- lift (contains_name experiment "name") ;;
    if negb has_name then raise (ValueError "An experiment needs a name.")
    else
      summary <- lift (get_default experiment "summary" (YDict [])) ;;
      summary_path <- lift (get_default summary "path" YNull) ;;
      if negb (truthy summary_path)
      then raise (ValueError "An experiment needs a scribe.")
      else
        checkpoint <- lift (get_default experiment "checkpoint" (YDict [])) ;;
        checkpoint_path <- lift (get_default checkpoint "path" YNull) ;;
        if negb (truthy checkpoint_path)
        then raise (ValueError "An experiment needs a dir for checkpoint")
        else
          has_step <- lift (contains_name experiment "global_step") ;;
          experiment <- lift (if has_step then Returned experiment
                              else assign experiment "global_step" (YInt 0)) ;;
          name <- lift (subscript experiment "name") ;;
          experiment <- lift (resolve_experiment experiment name) ;;
          checkpoint_dir <- lift (c <-- subscript experiment "checkpoint" ;;
                                  p <-- subscript c "path" ;; as_str p) ;;
          makedirs checkpoint_dir ;;;
          summary_dir <- lift (s <-- subscript experiment "summary" ;;
                               p <-- subscript s "path" ;; as_str p) ;;
          emit (CreatedWriter summary_dir) ;;;
          _ <- lift (as_str name) ;;
          strategy <- lift (choose_strategy (gpus w)) ;;
          step <- lift (subscript experiment "global_step") ;;
          emit (LoggedInfo "global step") ;;;
          emit (LoggedInfo ("summary: " ++ summary_dir)%string) ;;;
          emit (LoggedInfo "strategy") ;;;
          ret {| ctx_experiment := experiment;
                 ctx_strategy := strategy;
                 ctx_global_step := step;
                 ctx_datasets := None;
                 ctx_models := None;
                 ctx_optimizers := None |}.

(** *** build_optimizer (lines 171-191) *)

Definition lower_char (c : ascii) : ascii :=
  let n := nat_of_ascii c in
  if (65 <=? n)%nat && (n <=? 90)%nat then ascii_of_nat (n + 32) else c.

(** [s.lower()] *)
Fixpoint lower (s : string) : string :=
  match s with
  | EmptyString => EmptyString
  | String c s' => String (lower_char c) (lower s')
  end.

(** [tf.keras.optimizers.Adam.from_config(config)] under the strategy's
    scope: a new optimizer, its counter at 0 on every replica. *)
Definition from_config (s : strategy) (config : yaml) : outcome optimizer :=
  match config with
  | YDict _ => Returned {| iterations := mirrored s 0; hyper := config |}
  | _ => Raised TypeError
  end.

Definition build_optimizer (s : strategy) (config : yaml) : outcome optimizer :=
  kind <-- subscript config "optimizer" ;;
  kind <-- match kind with
           | YStr k => Returned (lower k)
           | _ => Raised AttributeError
           end ;;
  has_rate <-- contains_name config "learning_rate" ;;
  optimizer_config <--
    (if has_rate
     then rate <-- subscript config "learning_rate" ;;
          Returned (YDict [("learning_rate", rate)])
     else Returned (YDict [])) ;;
  given <-- get_default config "config" (YDict []) ;;
  let optimizer_config := if truthy given then given else optimizer_config in
  if (kind =? "adam")%string then from_config s optimizer_config
  else Raised UnboundLocalError.

(** *** build_strategic_training_model (lines 194-251) *)

(** [[inputs[index] for index in index_inputs]] *)
Definition select_inputs (index_inputs : yaml) (inputs : list Tensor)
  : outcome (list Tensor) :=
  indices <-- iterate index_inputs ;;
  omap (fun index => i <-- as_int index ;; py_index inputs i) indices.

(** Line 236 as a function of the variables: the elements of the model's
    loss summed and scaled. *)
Definition scaled_loss (a : training_adapter) (new_inputs : list Tensor)
  (w : Weights) : Q :=
  (Qsum (ta_base_model a w new_inputs) * (1 / inject_Z (ta_num_replicas a)))%Q.

(** [train_one_step] on one replica, up to [apply_gradients]: the loss it
    returns and the gradient it hands to the optimizer. *)
Definition train_one_step (a : training_adapter) (w : Weights)
  (inputs : list Tensor) : outcome (Q * Grad) :=
  new_inputs <-- select_inputs (ta_index_inputs a) inputs ;;
  if ta_num_replicas a =? 0 then Raised ZeroDivisionError
  else Returned (scaled_loss a new_inputs w,
                 tape_gradient (scaled_loss a new_inputs) w).

(** [optimizer.iterations.assign_add(1)], on every replica's copy. *)
Definition count_update (o : optimizer) : optimizer :=
  {| iterations := dmap (fun i => i + 1) (iterations o); hyper := hyper o |}.

(** [train_one_step_in_graph(data)] on the variables and the optimizer the
    adapter closes over: every replica computes its loss and gradient on the
    same variables, the optimizer applies the gradients once, the losses are
    reduced by MEAN. *)
Definition train_one_step_in_graph (a : training_adapter) (data : batch)
  (w : Weights) (o : optimizer) : outcome (Q * Weights * optimizer) :=
  results <-- experimental_run_v2 (ta_strategy a) (train_one_step a w) data ;;
  let losses := dmap fst results in
  let gradients := map snd (replica_values results) in
  Returned (reduce_mean losses, apply_gradients o gradients w, count_update o).

Definition build_strategic_training_model (s : strategy)
  (base_model : Weights -> list Tensor -> list Q) (index_inputs : yaml)
  (optimizer_name : string) (num_replicas : Z) : training_adapter :=
  {| ta_strategy := s; ta_base_model := base_model;
     ta_index_inputs := index_inputs; ta_optimizer := optimizer_name;
     ta_num_replicas := num_replicas |}.

(** *** build_strategic_validation_model (lines 254-287) *)

Definition validate_one_step (a : validation_adapter) (w : Weights)
  (inputs : list Tensor) : outcome (Tensor * Tensor) :=
  new_inputs <-- select_inputs (va_index_inputs a) inputs ;;
  i <-- as_int (va_index_hd_images a) ;;
  hd_images <-- py_index inputs i ;;
  Returned (va_base_model a w new_inputs, hd_images).

Definition validate_one_step_in_graph (a : validation_adapter) (data : batch)
  (w : Weights) : outcome (distributed Tensor * distributed Tensor) :=
  results <-- experimental_run_v2 (va_strategy a) (validate_one_step a w) data ;;
  Returned (regroup results).

Definition build_strategic_validation_model (s : strategy)
  (base_model : Weights -> list Tensor -> Tensor)
  (index_inputs index_hd_images : yaml) : validation_adapter :=
  {| va_strategy := s; va_base_model := base_model;
     va_index_inputs := index_inputs; va_index_hd_images := index_hd_images |}.

(** *** Calls on the session *)

(** [next(dataset)] on the iterator [context['datasets'][name]]. *)
Definition next_batch (name : yaml) (ctx : context) : outcome (batch * context) :=
  datasets <-- entry "datasets" (ctx_datasets ctx) ;;
  dataset <-- lookup_yaml name datasets ;;
  match name, dataset with
  | YStr n, b :: rest => Returned (b, set_datasets ctx (PyDict.set n rest datasets))
  | _, _ => Raised StopIteration
  end.

(** A call of a training adapter: the variables of the models and the
    optimizer it closes over are updated in the session. *)
Definition call_training_adapter (a : training_adapter) (data : batch)
  (ctx : context) : outcome (Q * context) :=
  m <-- entry "models" (ctx_models ctx) ;;
  optimizers <-- entry "optimizers" (ctx_optimizers ctx) ;;
  o <-- lookup_key (ta_optimizer a) optimizers ;;
  r <-- train_one_step_in_graph a data (weights m) o ;;
  let '(loss, w', o') := r in
  Returned (loss,
            set_optimizers (set_models ctx (set_weights m w'))
              (PyDict.set (ta_optimizer a) o' optimizers)).

(** A loop whose body may raise and updates the session. *)
Fixpoint ofold {A S} (body : S -> A -> outcome S) (l : list A) (s : S) : outcome S :=
  match l with
  | [] => Returned s
  | a :: l' => s' <-- body s a ;; ofold body l' s'
  end.

Fixpoint foldM {A S} (body : S -> A -> M Blob S) (l : list A) (s : S) : M Blob S :=
  match l with
  | [] => ret s
  | a :: l' => s' <- body s a ;; foldM body l' s'
  end.

Fixpoint mapM {A B} (f : A -> M Blob B) (l : list A) : M Blob (list B) :=
  match l with
  | [] => ret []
  | a :: l' => b <- f a ;; bs <- mapM f l' ;; ret (b :: bs)
  end.

(** *** build_datasets (lines 290-324) *)

(** The Dataset Provider, [dataset_builder.build_dataset(subsets, batch_size,
    sample_rate, augment)], and what a strategy makes of a dataset: the
    batches its iterator will yield, sharded over the replicas. *)
Variable Dataset : Type.
Variable build_dataset : yaml -> Z -> yaml -> yaml -> Dataset.
Variable distribute : strategy -> Dataset -> list batch.

(** Lines 313-324, for one dataset of the descriptor. *)
Definition build_dataset_unit (num_gpus : Z) (s : strategy) (item : string * yaml)
  : outcome (string * list batch) :=
  let dataset := snd item in
  subsets <-- subscript dataset "subsets" ;;
  batch_size <-- (b <-- subscript dataset "batch_size" ;; as_int b) ;;
  sample_rate <-- subscript dataset "sample_rate" ;;
  augment <-- subscript dataset "augment" ;;
  Returned (fst item,
            distribute s (build_dataset subsets (batch_size * num_gpus)
                            sample_rate augment)).

Definition build_datasets (ctx : context) : M Blob context :=
  w <- get_world ;;
  let num_gpus := Z.of_nat (List.length (gpus w)) in
  lift (
    datasets <-- (d <-- subscript (ctx_experiment ctx) "datasets" ;; items d) ;;
    built <-- omap (build_dataset_unit num_gpus (ctx_strategy ctx)) datasets ;;
    Returned (set_datasets ctx
                (fold_left (fun d item => PyDict.set (fst item) (snd item) d) built []))).

(** *** build_models (lines 327-400) *)

(** Lines 357-378, for one optimizer of the descriptor. *)
Definition build_optimizer_unit (num_gpus : Z) (ctx : context)
  (item : string * yaml) : outcome context :=
  let optimizer_name := fst item in
  let config := snd item in
  m <-- entry "models" (ctx_models ctx) ;;
  model_name <-- subscript config "extension_model" ;;
  model <-- lookup_yaml model_name (extensions m) ;;
  datasets <-- entry "datasets" (ctx_datasets ctx) ;;
  dataset_name <-- (d <-- subscript config "dataset" ;; subscript d "name") ;;
  _ <-- lookup_yaml dataset_name datasets ;;
  o <-- build_optimizer (ctx_strategy ctx) config ;;
  optimizers <-- entry "optimizers" (ctx_optimizers ctx) ;;
  let ctx := set_optimizers ctx (PyDict.set optimizer_name o optimizers) in
  index_inputs <-- (d <-- subscript config "dataset" ;; subscript d "input_indices") ;;
  let strategic_model :=
    build_strategic_training_model (ctx_strategy ctx) model index_inputs
      optimizer_name num_gpus in
  r <-- next_batch dataset_name ctx ;;
  r <-- call_training_adapter strategic_model (fst r) (snd r) ;;
  let ctx := snd r in
  m <-- entry "models" (ctx_models ctx) ;;
  model_key <-- as_str model_name ;;
  Returned (set_models ctx
              (set_strategic_extensions m
                 (PyDict.set model_key strategic_model (strategic_extensions m)))).

(** Lines 380-392, for one validator of the descriptor. *)
Definition build_validator_unit (ctx : context) (validator : yaml) : outcome context :=
  m <-- entry "models" (ctx_models ctx) ;;
  model_name <-- subscript validator "principal_model" ;;
  model <-- lookup_yaml model_name (principals m) ;;
  index_inputs <-- (d <-- subscript validator "dataset" ;; subscript d "input_indices") ;;
  index_hd <-- (d <-- subscript validator "dataset" ;; subscript d "hd_image_index") ;;
  let strategic_model :=
    build_strategic_validation_model (ctx_strategy ctx) model index_inputs index_hd in
  model_key <-- as_str model_name ;;
  Returned (set_models ctx
              (set_strategic_principals m
                 (PyDict.set model_key strategic_model (strategic_principals m)))).

(** [os.path.isfile(config.get('path', '') or '')] *)
Definition weights_path (fs : filesystem Blob) (config : yaml) : outcome (option string) :=
  p <-- get_default config "path" (YStr "") ;;
  match (if truthy p then p else YStr "") with
  | YStr s => Returned (if isfile fs s then Some s else None)
  | YInt _ | YBool _ => Returned None
  | _ => Raised TypeError
  end.

(** Lines 395-400, for one principal of the descriptor. *)
Definition load_weights_unit (fs : filesystem Blob) (ctx : context)
  (item : string * yaml) : outcome context :=
  let name := fst item in
  found <-- weights_path fs (snd item) ;;
  match found with
  | None => Returned ctx
  | Some path =>
      m <-- entry "models" (ctx_models ctx) ;;
      _ <-- lookup_key name (principals m) ;;
      match lookup path fs with
      | Some (File (WeightsFile blob)) =>
          Returned (set_models ctx (set_weights m (load_blob name blob (weights m))))
      | _ => Raised (OSError path)
      end
  end.

Definition build_models (ctx : context) : M Blob context :=
  match ctx_datasets ctx with
  | None => raise (ValueError "build datasets before building models")
  | Some _ =>
      w <- get_world ;;
      lift (
        models_config <-- subscript (ctx_experiment ctx) "models" ;;
        optimizers_config <-- subscript (ctx_experiment ctx) "optimizers" ;;
        name <-- subscript models_config "name" ;;
        parameters <-- subscript models_config "parameters" ;;
        m <-- model_provider name parameters ;;
        let m := set_strategic_principals (set_strategic_extensions m []) [] in
        let ctx := set_optimizers (set_models ctx m) [] in
        let num_gpus := Z.of_nat (List.length (gpus w)) in
        configs <-- items optimizers_config ;;
        ctx <-- ofold (build_optimizer_unit num_gpus) configs ctx ;;
        validators <-- (v <-- subscript (ctx_experiment ctx) "validators" ;; iterate v) ;;
        ctx <-- ofold build_validator_unit validators ctx ;;
        principal_configs <-- (p <-- subscript models_config "principals" ;; items p) ;;
        ofold (load_weights_unit (fs w)) principal_configs ctx)
  end.

(** *** The gate of a scheduled unit *)

(** [step % unit['cycle'] != 0], the test that makes a unit skip the step
    (lines 418, 447 and 502): [fires] is its negation. *)
Definition fires (unit_config : yaml) (step : Z) : outcome bool :=
  cycle <-- (c <-- subscript unit_config "cycle" ;; as_int c) ;;
  r <-- py_mod step cycle ;;
  Returned (r =? 0).

(** *** train (lines 403-431) *)

(** The body of the loop for the optimizer [name]. *)
Definition train_unit (step : Z)
  (strategic_extensions : list (string * training_adapter))
  (ctx : context) (name : string) : M Blob context :=
  config <- lift (o <-- subscript (ctx_experiment ctx) "optimizers" ;;
                  subscript o name) ;;
  go <- lift (fires config step) ;;
  if negb go then ret ctx
  else
    dataset_name <- lift (d <-- subscript config "dataset" ;; subscript d "name") ;;
    _ <- lift (datasets <-- entry "datasets" (ctx_datasets ctx) ;;
               lookup_yaml dataset_name datasets) ;;
    model <- lift (e <-- subscript config "extension_model" ;;
                   lookup_yaml e strategic_extensions) ;;
    r <- lift (r <-- next_batch dataset_name ctx ;;
               call_training_adapter model (fst r) (snd r)) ;;
    emit (SummaryScalar "loss" (YStr name) step (fst r)) ;;;
    emit (LoggedInfo ("loss[" ++ name ++ "][" ++ str_of_Z step ++ "]")%string) ;;;
    ret (snd r).

Definition train (ctx : context) : M Blob context :=
  step <- lift (global_step ctx) ;;
  m <- lift (entry "models" (ctx_models ctx)) ;;
  optimizers <- lift (entry "optimizers" (ctx_optimizers ctx)) ;;
  foldM (train_unit step (strategic_extensions m)) (map fst optimizers) ctx.

(** *** validate (lines 434-488) *)

(** Lines 460-465: the tensors of all replicas joined along the batch
    axis; [tf.concat] of a single tensor is that tensor. *)
Definition gather (resp : distributed Tensor * distributed Tensor)
  : outcome (Tensor * Tensor) :=
  match fst resp with
  | PerReplica sr_values =>
      match snd resp with
      | PerReplica hd_values => Returned (concat sr_values, concat hd_values)
      | Local _ => Raised AttributeError
      end
  | Local sr_images =>
      match snd resp with
      | Local hd_images => Returned (sr_images, hd_images)
      | PerReplica _ => Raised TypeError
      end
  end.

(** The body of the loop for one validator. *)
Definition validate_unit (step : Z)
  (strategic_principals : list (string * validation_adapter))
  (ctx : context) (validator : yaml) : M Blob context :=
  go <- lift (fires validator step) ;;
  if negb go then ret ctx
  else
    dataset_name <- lift (d <-- subscript validator "dataset" ;; subscript d "name") ;;
    _ <- lift (datasets <-- entry "datasets" (ctx_datasets ctx) ;;
               lookup_yaml dataset_name datasets) ;;
    model <- lift (p <-- subscript validator "principal_model" ;;
                   lookup_yaml p strategic_principals) ;;
    r <- lift (next_batch dataset_name ctx) ;;
    m <- lift (entry "models" (ctx_models (snd r))) ;;
    images <- lift (resp <-- validate_one_step_in_graph model (fst r) (weights m) ;;
                    gather resp) ;;
    name <- lift (subscript validator "name") ;;
    emit (SummaryScalar "psnr" name step (psnr (fst images) (snd images))) ;;;
    emit (SummaryScalar "ssim" name step (ssim (fst images) (snd images))) ;;;
    emit (SummaryImage "hd-sr" name step) ;;;
    emit (LoggedInfo "psnr") ;;;
    emit (LoggedInfo "ssim") ;;;
    ret (snd r).

Definition validate (ctx : context) : M Blob context :=
  step <- lift (global_step ctx) ;;
  m <- lift (entry "models" (ctx_models ctx)) ;;
  validators <- lift (v <-- subscript (ctx_experiment ctx) "validators" ;; iterate v) ;;
  foldM (validate_unit step (strategic_principals m)) validators ctx.

(** *** save (lines 491-532) *)

(** [f'{str(step).rjust(16, "0")}_{suffix}'] *)
Definition step_file_name (step : Z) (suffix : string) : string :=
  (PyStr.rjust 16 "0" (str_of_Z step) ++ "_" ++ suffix)%string.

(** [experiment['checkpoint']['path']] as [os.path.join] accepts it. *)
Definition checkpoint_dir (experiment : yaml) : outcome string :=
  c <-- subscript experiment "checkpoint" ;;
  p <-- subscript c "path" ;;
  as_str p.

(** Creating or overwriting the file at [path]. *)
Definition write_file (path : string) (f : file Blob) : M Blob unit :=
  w <- get_world ;;
  if writable (fs w) path then put_fs ((path, File f) :: fs w)
  else raise (OSError path).

(** Lines 509-514, for one principal of the descriptor: the weights are
    written, then the descriptor's entry points at the file. *)
Definition save_principal (ctx : context) (experiment : yaml) (step : Z)
  (item : string * yaml) : M Blob (string * yaml) :=
  let model_name := fst item in
  let config := snd item in
  let name := step_file_name step (model_name ++ ".h5")%string in
  dir <- lift (checkpoint_dir experiment) ;;
  let path := path_join dir name in
  m <- lift (entry "models" (ctx_models ctx)) ;;
  _ <- lift (lookup_key model_name (principals m)) ;;
  write_file path (WeightsFile (weights_blob model_name (weights m))) ;;;
  emit (SavedWeights model_name path) ;;;
  config <- lift (assign config "path" (YStr path)) ;;
  ret (model_name, config).

(** Line 518, for one optimizer of the descriptor. *)
Definition snapshot_optimizer (ctx : context) (item : string * yaml)
  : outcome (string * yaml) :=
  optimizers <-- entry "optimizers" (ctx_optimizers ctx) ;;
  o <-- lookup_key (fst item) optimizers ;;
  config <-- assign (snd item) "config" (keras_config (hyper o)) ;;
  Returned (fst item, config).

(** Lines 521-532. *)
Definition write_descriptor (path : string) (experiment : yaml) : M Blob unit :=
  write_file path (YamlFile experiment) ;;;
  emit (DumpedDescriptor path experiment).

Definition save (ctx : context) : M Blob context :=
  let experiment := ctx_experiment ctx in
  step <- lift (global_step ctx) ;;
  go <- lift (c <-- subscript experiment "checkpoint" ;; fires c step) ;;
  if negb go then ret ctx
  else
    experiment <- lift (assign experiment "global_step" (YInt step)) ;;
    models_config <- lift (subscript experiment "models") ;;
    principal_configs <- lift (p <-- subscript models_config "principals" ;; items p) ;;
    principal_configs <- mapM (save_principal ctx experiment step) principal_configs ;;
    experiment <- lift (m <-- assign models_config "principals" (YDict principal_configs) ;;
                        assign experiment "models" m) ;;
    optimizer_configs <- lift (o <-- subscript experiment "optimizers" ;; items o) ;;
    optimizer_configs <- lift (omap (snapshot_optimizer ctx) optimizer_configs) ;;
    experiment <- lift (assign experiment "optimizers" (YDict optimizer_configs)) ;;
    dir <- lift (checkpoint_dir experiment) ;;
    write_descriptor (path_join dir (step_file_name step "checkpoint.yaml")) experiment ;;;
    ret (set_experiment ctx experiment).

(** *** train_validate_save (lines 535-551), for [n] rounds of its loop *)

Fixpoint rounds (n : nat) (ctx : context) : M Blob context :=
  match n with
  | O => ret ctx
  | S k =>
      ctx <- train ctx ;;
      ctx <- validate ctx ;;
      ctx <- save ctx ;;
      rounds k ctx
  end.

Definition train_validate_save (n : nat) (experiment_path : string) : M Blob context :=
  ctx <- load_experiment experiment_path ;;
  ctx <- build_datasets ctx ;;
  ctx <- build_models ctx ;;
  rounds n ctx.

(** Lines 569-571: the entry point, on the path given to the script. *)
Definition main (n : nat) (argument : string) : M Blob context :=
  experiment_path <- find_latest_checkpoint argument ;;
  train_validate_save n experiment_path.

(** * Properties *)

(** ** Global step *)

(** The running maximum of line 68 over a list of optimizers. *)
Definition furthest (optimizers : list (string * optimizer)) (start : Z) : Z :=
  fold_left (fun step o => Z.max step (reduce_mean_int (iterations (snd o))))
    optimizers start.

Lemma furthest_ge_start optimizers : forall start, start <= furthest optimizers start.
Proof.
  unfold furthest.
  induction optimizers as [|o rest IH]; intros start; simpl.
  - lia.
  - specialize (IH (Z.max start (reduce_mean_int (iterations (snd o))))). lia.
Qed.

Lemma furthest_upper_bound optimizers :
  forall start o, In o optimizers ->
    reduce_mean_int (iterations (snd o)) <= furthest optimizers start.
Proof.
  induction optimizers as [|o' rest IH]; intros start o Hin; simpl in *.
  - contradiction.
  - destruct Hin as [-> | Hin].
    + pose proof (furthest_ge_start rest
                    (Z.max start (reduce_mean_int (iterations (snd o))))) as H.
      unfold furthest in *. simpl. lia.
    + unfold furthest in *. simpl. apply IH; assumption.
Qed.

Lemma furthest_attained optimizers :
  forall start,
    furthest optimizers start = start \/
    exists o, In o optimizers /\
      reduce_mean_int (iterations (snd o)) = furthest optimizers start.
Proof.
  unfold furthest.
  induction optimizers as [|o rest IH]; intros start; simpl.
  - left; reflexivity.
  - destruct (IH (Z.max start (reduce_mean_int (iterations (snd o)))))
      as [Heq | [o' [Hin Heq]]].
    + rewrite Heq.
      destruct (Z.max_spec start (reduce_mean_int (iterations (snd o))))
        as [[_ ->] | [_ ->]].
      * right. exists o. split; [left; reflexivity | reflexivity].
      * left; reflexivity.
    + right. exists o'. split; [right; assumption | exact Heq].
Qed.

Lemma global_step_unfold ctx optimizers base :
  ctx_optimizers ctx = Some optimizers ->
  ctx_global_step ctx = YInt base ->
  global_step ctx = Returned (furthest optimizers 0 + base).
Proof.
  intros Ho Hb. unfold global_step. rewrite Ho, Hb. reflexivity.
Qed.

(** C2. [global_step(context)] returns the greatest iteration count,
    reduced over the replicas by MEAN, among the live optimizers, plus the
    offset kept in the context; counters count updates and are never
    negative. With reduced counts 3 and 7 and offset 10 it is 17, with the
    single count 0 and offset 5 it is 5. *)
Theorem global_step_is_max_count_plus_offset :
  forall ctx optimizers base,
    ctx_optimizers ctx = Some optimizers ->
    ctx_global_step ctx = YInt base ->
    Forall (fun o => 0 <= reduce_mean_int (iterations (snd o))) optimizers ->
    exists most,
      global_step ctx = Returned (most + base) /\
      (forall o, In o optimizers -> reduce_mean_int (iterations (snd o)) <= most) /\
      (optimizers <> [] ->
       exists o, In o optimizers /\ reduce_mean_int (iterations (snd o)) = most) /\
      (optimizers = [] -> most = 0) /\
      (map (fun o => reduce_mean_int (iterations (snd o))) optimizers = [3; 7] ->
       base = 10 -> global_step ctx = Returned 17) /\
      (map (fun o => reduce_mean_int (iterations (snd o))) optimizers = [0] ->
       base = 5 -> global_step ctx = Returned 5).
Proof.
  intros ctx optimizers base Ho Hb Hpos.
  exists (furthest optimizers 0).
  split; [apply global_step_unfold; assumption|].
  split; [intros o Hin; apply furthest_upper_bound; assumption|].
  split.
  - intros Hne. destruct (furthest_attained optimizers 0) as [Hz | Hex].
    + destruct optimizers as [|o rest]; [contradiction|].
      exists o. split; [left; reflexivity|].
      pose proof (furthest_upper_bound (o :: rest) 0 o (or_introl eq_refl)) as Hle.
      pose proof (Forall_inv Hpos) as Hge. simpl in Hge.
      rewrite Hz in *. lia.
    + exact Hex.
  - split; [intros ->; reflexivity|].
    split; intros Hmap ->; rewrite (global_step_unfold _ _ _ Ho Hb).
    + destruct optimizers as [|a [|b [|c rest]]]; simpl in Hmap; try discriminate.
      injection Hmap as Ha Hb'. unfold furthest; simpl. rewrite Ha, Hb'. reflexivity.
    + destruct optimizers as [|a [|b rest]]; simpl in Hmap; try discriminate.
      injection Hmap as Ha. unfold furthest; simpl. rewrite Ha. reflexivity.
Qed.

(** ** Reasoning about the monad *)

Lemma bind_inv {A B} (m : M Blob A) (k : A -> M Blob B) w r w' :
  bind m k w = (r, w') ->
  (exists a w1, m w = (Returned a, w1) /\ k a w1 = (r, w')) \/
  (exists e, m w = (Raised e, w') /\ r = Raised e).
Proof.
  unfold bind. destruct (m w) as [[a | e] w1]; intros H.
  - left. exists a, w1. split; [reflexivity | exact H].
  - right. exists e. injection H as <- <-. split; reflexivity.
Qed.

Lemma bind_lift_inv {A B} (o : outcome A) (k : A -> M Blob B) w r w' :
  bind (lift o) k w = (r, w') ->
  (exists a, o = Returned a /\ k a w = (r, w')) \/
  (exists e, o = Raised e /\ r = Raised e /\ w' = w).
Proof.
  unfold bind, lift. destruct o as [a | e]; intros H.
  - left. exists a. split; [reflexivity | exact H].
  - right. exists e. injection H as <- <-. repeat split.
Qed.

Lemma obind_inv {A B} (o : outcome A) (k : A -> outcome B) b :
  obind o k = Returned b -> exists a, o = Returned a /\ k a = Returned b.
Proof.
  destruct o as [a | e]; simpl; intros H; [exists a; split; auto | discriminate].
Qed.

(** ** Dictionaries *)

Lemma get_set_same {A} k (v : A) d : PyDict.get k (PyDict.set k v d) = Some v.
Proof.
  induction d as [|[k' v'] d IH]; simpl.
  - rewrite String.eqb_refl. reflexivity.
  - destruct (k' =? k)%string eqn:E; simpl.
    + rewrite String.eqb_refl. reflexivity.
    + rewrite E. exact IH.
Qed.

Lemma get_set_other {A} k k' (v : A) d :
  k <> k' -> PyDict.get k (PyDict.set k' v d) = PyDict.get k d.
Proof.
  intros Hne. induction d as [|[k0 v0] d IH]; simpl.
  - destruct (k' =? k)%string eqn:E; [|reflexivity].
    apply String.eqb_eq in E. congruence.
  - destruct (k0 =? k')%string eqn:E; simpl.
    + apply String.eqb_eq in E. subst k0.
      destruct (k' =? k)%string eqn:E'; [|reflexivity].
      apply String.eqb_eq in E'. congruence.
    + destruct (k0 =? k)%string; [reflexivity | exact IH].
Qed.

Lemma subscript_assign_same y k v y' :
  assign y k v = Returned y' -> subscript y' k = Returned v.
Proof.
  destruct y; simpl; try discriminate. intros H. injection H as <-.
  simpl. rewrite get_set_same. reflexivity.
Qed.

Lemma subscript_assign_other y k v y' k' :
  assign y k v = Returned y' -> k' <> k -> subscript y' k' = subscript y k'.
Proof.
  destruct y; simpl; try discriminate. intros H Hne. injection H as <-.
  simpl. rewrite get_set_other by assumption. reflexivity.
Qed.

(** ** The checkpoint writer *)

(** An event of the weights loop of [save]. *)
Definition is_saved_weights (e : event) : Prop :=
  exists model path, e = SavedWeights model path.

(** The principals a descriptor lists, each with its configuration. *)
Definition referenced_principals (document : yaml) : outcome (list (string * yaml)) :=
  m <-- subscript document "models" ;;
  p <-- subscript m "principals" ;;
  items p.

(** The weight file of a principal for a step, in a checkpoint directory. *)
Definition weights_file (dir : string) (step : Z) (model_name : string) : string :=
  path_join dir (step_file_name step (model_name ++ ".h5")%string).

Lemma isfile_head (fs0 : filesystem Blob) path f : isfile ((path, File f) :: fs0) path = true.
Proof. unfold isfile. simpl. rewrite String.eqb_refl. reflexivity. Qed.

Lemma isfile_kept (fs0 : filesystem Blob) path f p :
  isfile fs0 p = true -> isfile ((path, File f) :: fs0) p = true.
Proof.
  unfold isfile. simpl. destruct (path =? p)%string; [reflexivity | auto].
Qed.

Lemma write_file_inv path f (w : world Blob) r w' :
  write_file path f w = (r, w') ->
  (r = Returned tt /\ fs w' = (path, File f) :: fs w /\
   trace w' = trace w /\ gpus w' = gpus w) \/
  (exists e, r = Raised e /\ w' = w).
Proof.
  unfold write_file, bind, get_world, put_fs, raise.
  destruct (writable (fs w) path); intros H; injection H as <- <-.
  - left. simpl. repeat split.
  - right. eexists. split; reflexivity.
Qed.

Lemma save_principal_inv ctx experiment step item (w : world Blob) r w' :
  save_principal ctx experiment step item w = (r, w') ->
  (w' = w /\ exists e, r = Raised e) \/
  (exists dir blob,
     checkpoint_dir experiment = Returned dir /\
     fs w' = (weights_file dir step (fst item), File (WeightsFile blob)) :: fs w /\
     trace w' = trace w ++ [SavedWeights (fst item) (weights_file dir step (fst item))] /\
     gpus w' = gpus w /\
     ((exists e, r = Raised e) \/
      (exists config',
         assign (snd item) "path" (YStr (weights_file dir step (fst item)))
         = Returned config' /\
         r = Returned (fst item, config')))).
Proof.
  unfold save_principal. intros H.
  apply bind_lift_inv in H as [[dir [Hdir H]] | [e [_ [-> ->]]]];
    [|left; split; [reflexivity | eexists; reflexivity]].
  apply bind_lift_inv in H as [[m [Hm H]] | [e [_ [-> ->]]]];
    [|left; split; [reflexivity | eexists; reflexivity]].
  apply bind_lift_inv in H as [[f [Hf H]] | [e [_ [-> ->]]]];
    [|left; split; [reflexivity | eexists; reflexivity]].
  apply bind_inv in H as [[[] [w1 [Hw H]]] | [e [Hw ->]]].
  - apply write_file_inv in Hw as [[_ [Hfs [Htr Hg]]] | [e [He _]]]; [|discriminate].
    apply bind_inv in H as [[[] [w2 [Hemit H]]] | [e [Hemit _]]];
      [|unfold emit in Hemit; discriminate].
    unfold emit in Hemit. injection Hemit as <-.
    right. exists dir, (weights_blob (fst item) (weights m)).
    split; [exact Hdir|]. simpl in H |- *.
    apply bind_lift_inv in H as [[config' [Hc H]] | [e [_ [-> ->]]]].
    + unfold ret in H. injection H as <- <-. simpl.
      rewrite Hfs, Htr, Hg. repeat split.
      right. exists config'. split; [exact Hc | reflexivity].
    + simpl. rewrite Hfs, Htr, Hg. repeat split. left. eexists; reflexivity.
  - apply write_file_inv in Hw as [[Hr _] | [e' [_ ->]]]; [discriminate|].
    left. split; [reflexivity | eexists; reflexivity].
Qed.

Lemma isfile_cons_inv (fs0 : filesystem Blob) path n p :
  isfile ((path, n) :: fs0) p = true -> path = p \/ isfile fs0 p = true.
Proof.
  unfold isfile. simpl. destruct (path =? p)%string eqn:E.
  - apply String.eqb_eq in E. auto.
  - auto.
Qed.

(** Whatever the weights loop does, it leaves only weight files and their
    events behind, and removes no file. *)
Lemma save_principals_trace ctx experiment step :
  forall entries (w : world Blob) r w',
    mapM (save_principal ctx experiment step) entries w = (r, w') ->
    gpus w' = gpus w /\
    exists events,
      trace w' = trace w ++ events /\
      Forall is_saved_weights events /\
      (forall p, isfile (fs w) p = true -> isfile (fs w') p = true) /\
      (forall p, isfile (fs w') p = true ->
         isfile (fs w) p = true \/ exists m, In (SavedWeights m p) events).
Proof.
  induction entries as [|item rest IH]; intros w r w' H; simpl in H.
  - unfold ret in H. injection H as <- <-. split; [reflexivity|].
    exists []. rewrite app_nil_r. repeat split; auto.
  - apply bind_inv in H as [[b [w1 [Hone H]]] | [e [Hone ->]]].
    + apply save_principal_inv in Hone
        as [[-> [e He]] | [dir [blob [_ [Hfs [Htr [Hg _]]]]]]]; [discriminate|].
      apply bind_inv in H as [[bs [w2 [Hrest H]]] | [e [Hrest ->]]].
      * unfold ret in H. injection H as <- <-.
        apply IH in Hrest as [Hg' [events [Htr' [Hall [Hkeep Hnew]]]]].
        split; [congruence|].
        exists (SavedWeights (fst item) (weights_file dir step (fst item)) :: events).
        rewrite Htr', Htr, <- app_assoc. split; [reflexivity|].
        split; [constructor; [eexists; eexists; reflexivity | exact Hall]|].
        split.
        -- intros p Hp. apply Hkeep. rewrite Hfs. apply isfile_kept. exact Hp.
        -- intros p Hp. apply Hnew in Hp as [Hp | [m Hin]].
           ++ rewrite Hfs in Hp. apply isfile_cons_inv in Hp as [<- | Hp]; [|auto].
              right. exists (fst item). left. reflexivity.
           ++ right. exists m. right. exact Hin.
      * apply IH in Hrest as [Hg' [events [Htr' [Hall [Hkeep Hnew]]]]].
        split; [congruence|].
        exists (SavedWeights (fst item) (weights_file dir step (fst item)) :: events).
        rewrite Htr', Htr, <- app_assoc. split; [reflexivity|].
        split; [constructor; [eexists; eexists; reflexivity | exact Hall]|].
        split.
        -- intros p Hp. apply Hkeep. rewrite Hfs. apply isfile_kept. exact Hp.
        -- intros p Hp. apply Hnew in Hp as [Hp | [m Hin]].
           ++ rewrite Hfs in Hp. apply isfile_cons_inv in Hp as [<- | Hp]; [|auto].
              right. exists (fst item). left. reflexivity.
           ++ right. exists m. right. exact Hin.
    + apply save_principal_inv in Hone
        as [[-> _] | [dir [blob [_ [Hfs [Htr [Hg _]]]]]]].
      * split; [reflexivity|]. exists []. rewrite app_nil_r. repeat split; auto.
      * split; [exact Hg|].
        exists [SavedWeights (fst item) (weights_file dir step (fst item))].
        split; [exact Htr|].
        split; [constructor; [eexists; eexists; reflexivity | constructor]|].
        split.
        -- intros p Hp. rewrite Hfs. apply isfile_kept. exact Hp.
        -- intros p Hp. rewrite Hfs in Hp.
           apply isfile_cons_inv in Hp as [<- | Hp]; [|auto].
           right. exists (fst item). left. reflexivity.
Qed.

(** When the weights loop completes, it has written one file per principal
    of the descriptor, in the descriptor's order, and every entry points at
    its file, which exists. *)
Lemma save_principals_done ctx experiment step dir :
  checkpoint_dir experiment = Returned dir ->
  forall entries (w : world Blob) entries' w',
    mapM (save_principal ctx experiment step) entries w = (Returned entries', w') ->
    trace w' =
      trace w ++ map (fun p => SavedWeights (fst p) (weights_file dir step (fst p)))
                   entries' /\
    map fst entries' = map fst entries /\
    Forall (fun p =>
              subscript (snd p) "path" = Returned (YStr (weights_file dir step (fst p))) /\
              isfile (fs w') (weights_file dir step (fst p)) = true) entries'.
Proof.
  intros Hdir.
  induction entries as [|item rest IH]; intros w entries' w' H; simpl in H.
  - unfold ret in H. injection H as <- <-. simpl. rewrite app_nil_r.
    repeat split. constructor.
  - apply bind_inv in H as [[b [w1 [Hone H]]] | [e [_ Habs]]]; [|discriminate].
    apply bind_inv in H as [[bs [w2 [Hrest H]]] | [e [_ Habs]]]; [|discriminate].
    unfold ret in H. injection H as <- <-.
    apply save_principal_inv in Hone
      as [[_ [e He]] | [dir' [blob [Hdir' [Hfs [Htr [Hg Hres]]]]]]]; [discriminate|].
    rewrite Hdir in Hdir'. injection Hdir' as <-.
    destruct Hres as [[e He] | [config' [Hassign Hb]]]; [discriminate|].
    injection Hb as ->.
    pose proof (save_principals_trace _ _ _ _ _ _ _ Hrest) as [_ [_ [_ [_ [Hkeep _]]]]].
    apply IH in Hrest as [Htr' [Hnames Hall]].
    simpl. rewrite Htr', Htr, <- app_assoc. split; [reflexivity|].
    split; [f_equal; exact Hnames|].
    constructor; [|exact Hall]. simpl. split.
    + eapply subscript_assign_same. exact Hassign.
    + apply Hkeep. rewrite Hfs. apply isfile_head.
Qed.

(** The events of one checkpoint generation: the weights of the principals,
    then the descriptor. *)
Definition generation_events (dir : string) (step : Z)
  (principals : list (string * yaml)) (document : yaml) : list event :=
  map (fun p => SavedWeights (fst p) (weights_file dir step (fst p))) principals
  ++ [DumpedDescriptor (path_join dir (step_file_name step "checkpoint.yaml")) document].

(** What [save] left behind when no descriptor was written: nothing but
    weight files. *)
Definition only_weights (w w' : world Blob) (events : list event) : Prop :=
  Forall is_saved_weights events /\
  (forall p, isfile (fs w') p = true ->
     isfile (fs w) p = true \/ exists m, In (SavedWeights m p) events).

(** The gate of the checkpoint unit was closed: [save] returned at line 503. *)
Definition gate_closed (ctx : context) (w w' : world Blob) (r : outcome context) : Prop :=
  exists step,
    global_step ctx = Returned step /\
    (c <-- subscript (ctx_experiment ctx) "checkpoint" ;; fires c step) = Returned false /\
    r = Returned ctx /\ w' = w.

(** A completed checkpoint generation: the gate was open, and [w1] is the
    world in which the descriptor is written. *)
Definition generation_written (ctx : context) (w w1 w' : world Blob)
  (r : outcome context) (events : list event) : Prop :=
  exists step dir principals document,
    global_step ctx = Returned step /\
    (c <-- subscript (ctx_experiment ctx) "checkpoint" ;; fires c step) = Returned true /\
    r = Returned (set_experiment ctx document) /\
    subscript document "global_step" = Returned (YInt step) /\
    referenced_principals document = Returned principals /\
    events = generation_events dir step principals document /\
    trace w1 = trace w ++ removelast events /\
    write_descriptor (path_join dir (step_file_name step "checkpoint.yaml"))
      document w1 = (Returned tt, w') /\
    Forall (fun p =>
              subscript (snd p) "path" = Returned (YStr (weights_file dir step (fst p))) /\
              isfile (fs w1) (weights_file dir step (fst p)) = true) principals.

Lemma checkpoint_dir_assign experiment k v experiment' :
  assign experiment k v = Returned experiment' ->
  k <> "checkpoint" ->
  checkpoint_dir experiment' = checkpoint_dir experiment.
Proof.
  intros Ha Hne. unfold checkpoint_dir.
  rewrite (subscript_assign_other _ _ _ _ "checkpoint" Ha) by congruence.
  reflexivity.
Qed.

Lemma removelast_snoc {A} (l : list A) a : removelast (l ++ [a]) = l.
Proof. apply removelast_last. Qed.

Lemma write_descriptor_inv path document (w : world Blob) r w' :
  write_descriptor path document w = (r, w') ->
  (r = Returned tt /\ fs w' = (path, File (YamlFile document)) :: fs w /\
   trace w' = trace w ++ [DumpedDescriptor path document] /\ gpus w' = gpus w) \/
  (exists e, r = Raised e /\ w' = w).
Proof.
  unfold write_descriptor. intros H.
  apply bind_inv in H as [[[] [w1 [Hw H]]] | [e [Hw ->]]].
  - apply write_file_inv in Hw as [[_ [Hfs [Htr Hg]]] | [e [He _]]]; [|discriminate].
    unfold emit in H. injection H as <- <-. left. simpl.
    rewrite Hfs, Htr, Hg. repeat split.
  - apply write_file_inv in Hw as [[Hr _] | [e' [_ ->]]]; [discriminate|].
    right. eexists; split; reflexivity.
Qed.

Ltac nothing_written :=
  exists []; rewrite app_nil_r; split;
  [reflexivity
  | left; split;
    [split; [constructor | intros ? ?; left; assumption]
    | left; eexists; reflexivity]].

(** The three ways a run of [save] can go. *)
Lemma save_cases ctx (w : world Blob) r w' :
  save ctx w = (r, w') ->
  exists events,
    trace w' = trace w ++ events /\
    ((only_weights w w' events /\ ((exists e, r = Raised e) \/ gate_closed ctx w w' r)) \/
     (exists w1, generation_written ctx w w1 w' r events)).
Proof.
  intros H. unfold save in H.
  apply bind_lift_inv in H as [[step [Hstep H]] | [e [_ [-> ->]]]]; [|nothing_written].
  apply bind_lift_inv in H as [[go [Hgo H]] | [e [_ [-> ->]]]]; [|nothing_written].
  destruct go; simpl in H.
  2:{ unfold ret in H. injection H as <- <-.
      exists []. rewrite app_nil_r. split; [reflexivity|].
      left. split; [split; [constructor | intros ? ?; left; assumption]|].
      right. exists step. repeat split; assumption. }
  apply bind_lift_inv in H as [[e1 [He1 H]] | [e [_ [-> ->]]]]; [|nothing_written].
  apply bind_lift_inv in H as [[mc [Hmc H]] | [e [_ [-> ->]]]]; [|nothing_written].
  apply bind_lift_inv in H as [[pcs [Hpcs H]] | [e [_ [-> ->]]]]; [|nothing_written].
  apply bind_inv in H as [[entries [w1 [Hmap H]]] | [e [Hmap ->]]].
  2:{ apply save_principals_trace in Hmap as [_ [events [Htr [Hall [_ Hnew]]]]].
      exists events. split; [exact Htr|].
      left; split; [split; assumption | left; eexists; reflexivity]. }
  pose proof (save_principals_trace _ _ _ _ _ _ _ Hmap)
    as [_ [events [Htr [Hall [_ Hnew]]]]].
  assert (Hleft : forall e, exists events0 : list event,
             trace w1 = trace w ++ events0 /\
             ((only_weights w w1 events0 /\
               ((exists e', Raised e = @Raised context e') \/
                gate_closed ctx w w1 (Raised e))) \/
              exists w2, generation_written ctx w w2 w1 (Raised e) events0)).
  { intros e. exists events. split; [exact Htr|].
    left; split; [split; assumption | left; eexists; reflexivity]. }
  apply bind_lift_inv in H as [[e2 [He2 H]] | [e [_ [-> ->]]]]; [|apply Hleft].
  apply bind_lift_inv in H as [[ocs [Hocs H]] | [e [_ [-> ->]]]]; [|apply Hleft].
  apply bind_lift_inv in H as [[ocs' [Hocs' H]] | [e [_ [-> ->]]]]; [|apply Hleft].
  apply bind_lift_inv in H as [[e3 [He3 H]] | [e [_ [-> ->]]]]; [|apply Hleft].
  apply bind_lift_inv in H as [[dir [Hdir H]] | [e [_ [-> ->]]]]; [|apply Hleft].
  apply bind_inv in H as [[[] [w2 [Hdesc H]]] | [e [Hdesc ->]]].
  2:{ apply write_descriptor_inv in Hdesc as [[Hr _] | [e' [_ ->]]]; [discriminate|].
      apply Hleft. }
  clear Hleft. unfold ret in H. injection H as <- <-.
  pose proof Hdesc as Hdesc'.
  apply write_descriptor_inv in Hdesc' as [[_ [Hfs2 [Htr2 _]]] | [e [He _]]];
    [|discriminate].
  apply obind_inv in He2 as [mc' [Hmc' He2]].
  assert (Hdir1 : checkpoint_dir e1 = Returned dir).
  { rewrite <- (checkpoint_dir_assign _ _ _ _ He2) by discriminate.
    rewrite <- (checkpoint_dir_assign _ _ _ _ He3) by discriminate.
    exact Hdir. }
  pose proof (save_principals_done _ _ _ _ Hdir1 _ _ _ _ Hmap) as [Htr1 [_ Hfiles]].
  exists (generation_events dir step entries e3).
  unfold generation_events. split.
  - rewrite Htr2, Htr1, <- app_assoc. reflexivity.
  - right. exists w1. exists step, dir, entries, e3.
    split; [exact Hstep|]. split; [exact Hgo|]. split; [reflexivity|].
    split.
    { rewrite (subscript_assign_other _ _ _ _ "global_step" He3) by discriminate.
      rewrite (subscript_assign_other _ _ _ _ "global_step" He2) by discriminate.
      exact (subscript_assign_same _ _ _ _ He1). }
    split.
    + unfold referenced_principals.
      rewrite (subscript_assign_other _ _ _ _ "models" He3) by discriminate.
      rewrite (subscript_assign_same _ _ _ _ He2). simpl.
      rewrite (subscript_assign_same _ _ _ _ Hmc'). reflexivity.
    + split; [reflexivity|]. split; [rewrite removelast_snoc; exact Htr1|].
      split; [exact Hdesc | exact Hfiles].
Qed.

(** C4. Every run of [save] leaves behind either nothing but weight files
    (the gate was closed, or the run raised before the descriptor), or,
    when the checkpoint unit fired and the run completed, a complete
    generation: the weight file of every principal the descriptor lists, in
    that order, and then the descriptor as the last write; in the world in
    which the descriptor is written every weight file it points at exists. *)
Theorem save_writes_weights_before_descriptor :
  forall ctx (w : world Blob),
    exists events,
      trace (snd (save ctx w)) = trace w ++ events /\
      (only_weights w (snd (save ctx w)) events \/
       exists w1,
         generation_written ctx w w1 (snd (save ctx w)) (fst (save ctx w)) events).
Proof.
  intros ctx w. destruct (save ctx w) as [r w'] eqn:H. simpl.
  apply save_cases in H as [events [Htr [[Honly _] | Hgen]]];
    exists events; (split; [exact Htr|]); [left | right]; assumption.
Qed.

(** ** The gates *)

Lemma fires_cycle unit_config c s :
  subscript unit_config "cycle" = Returned (YInt c) ->
  c <> 0 ->
  fires unit_config s = Returned (s mod c =? 0).
Proof.
  intros Hc Hne. unfold fires, py_mod. rewrite Hc. simpl.
  destruct (Z.eqb_spec c 0); [contradiction | reflexivity].
Qed.

Lemma train_unit_cases step exts ctx name unit_config (w : world Blob) ctx' w' :
  (o <-- subscript (ctx_experiment ctx) "optimizers" ;; subscript o name)
  = Returned unit_config ->
  train_unit step exts ctx name w = (Returned ctx', w') ->
  (fires unit_config step = Returned true /\
   exists loss,
     trace w' = trace w ++ [SummaryScalar "loss" (YStr name) step loss;
                            LoggedInfo ("loss[" ++ name ++ "][" ++ str_of_Z step ++ "]")]) \/
  (fires unit_config step = Returned false /\ ctx' = ctx /\ w' = w).
Proof.
  intros Hcfg H. unfold train_unit in H. rewrite Hcfg in H.
  apply bind_lift_inv in H as [[config [Hc H]] | [e [_ [Habs _]]]]; [|discriminate].
  injection Hc as <-.
  apply bind_lift_inv in H as [[go [Hgo H]] | [e [_ [Habs _]]]]; [|discriminate].
  destruct go; simpl in H.
  - left. split; [exact Hgo|].
    apply bind_lift_inv in H as [[dn [_ H]] | [e [_ [Habs _]]]]; [|discriminate].
    apply bind_lift_inv in H as [[ds [_ H]] | [e [_ [Habs _]]]]; [|discriminate].
    apply bind_lift_inv in H as [[model [_ H]] | [e [_ [Habs _]]]]; [|discriminate].
    apply bind_lift_inv in H as [[r [_ H]] | [e [_ [Habs _]]]]; [|discriminate].
    unfold bind, emit, ret in H. simpl in H. injection H as <- <-. simpl.
    exists (fst r). rewrite <- app_assoc. reflexivity.
  - right. unfold ret in H. injection H as <- <-. auto.
Qed.

Lemma validate_unit_cases step prs ctx validator (w : world Blob) ctx' w' :
  validate_unit step prs ctx validator w = (Returned ctx', w') ->
  (fires validator step = Returned true /\
   exists name p q,
     trace w' = trace w ++ [SummaryScalar "psnr" name step p;
                            SummaryScalar "ssim" name step q;
                            SummaryImage "hd-sr" name step;
                            LoggedInfo "psnr"; LoggedInfo "ssim"]) \/
  (fires validator step = Returned false /\ ctx' = ctx /\ w' = w).
Proof.
  intros H. unfold validate_unit in H.
  apply bind_lift_inv in H as [[go [Hgo H]] | [e [_ [Habs _]]]]; [|discriminate].
  destruct go; simpl in H.
  - left. split; [exact Hgo|].
    apply bind_lift_inv in H as [[dn [_ H]] | [e [_ [Habs _]]]]; [|discriminate].
    apply bind_lift_inv in H as [[ds [_ H]] | [e [_ [Habs _]]]]; [|discriminate].
    apply bind_lift_inv in H as [[model [_ H]] | [e [_ [Habs _]]]]; [|discriminate].
    apply bind_lift_inv in H as [[r [_ H]] | [e [_ [Habs _]]]]; [|discriminate].
    apply bind_lift_inv in H as [[m [_ H]] | [e [_ [Habs _]]]]; [|discriminate].
    apply bind_lift_inv in H as [[images [_ H]] | [e [_ [Habs _]]]]; [|discriminate].
    apply bind_lift_inv in H as [[name [_ H]] | [e [_ [Habs _]]]]; [|discriminate].
    unfold bind, emit, ret in H. simpl in H. injection H as <- <-. simpl.
    exists name, (psnr (fst images) (snd images)), (ssim (fst images) (snd images)).
    repeat rewrite <- app_assoc. reflexivity.
  - right. unfold ret in H. injection H as <- <-. auto.
Qed.

Lemma save_returned_cases ctx step unit_config (w : world Blob) ctx' w' :
  global_step ctx = Returned step ->
  subscript (ctx_experiment ctx) "checkpoint" = Returned unit_config ->
  save ctx w = (Returned ctx', w') ->
  (fires unit_config step = Returned true /\
   exists dir principals document,
     trace w' = trace w ++ generation_events dir step principals document) \/
  (fires unit_config step = Returned false /\ ctx' = ctx /\ w' = w).
Proof.
  intros Hstep Hcfg H.
  apply save_cases in H as [events [Htr [[_ [[e He] | Hclosed]] | [w1 Hgen]]]].
  - discriminate.
  - destruct Hclosed as [step' [Hstep' [Hgo [Hr ->]]]].
    rewrite Hstep in Hstep'. injection Hstep' as <-.
    rewrite Hcfg in Hgo. simpl in Hgo. injection Hr as <-. right. auto.
  - destruct Hgen as [step' [dir [principals [document
      [Hstep' [Hgo [_ [_ [_ [Hev _]]]]]]]]]].
    rewrite Hstep in Hstep'. injection Hstep' as <-.
    rewrite Hcfg in Hgo. simpl in Hgo. left. split; [exact Hgo|].
    exists dir, principals, document. rewrite Htr, Hev. reflexivity.
Qed.

(** C5. A scheduled unit with cycle [c] acts at global step [s] exactly
    when [s mod c = 0]: its gate is open exactly then, and in every run that
    returns, an optimizer, a validator or the checkpoint unit leaves its
    summaries or its files behind when [s mod c = 0] and leaves the session
    and the world untouched otherwise. For [c = 5] the gate is open at 0, 5,
    10, 15 and at every other multiple of 5, closed at 1, 2, 3, 4, 6, 7, 8, 9
    and at every other step. A cycle of 0 raises [ZeroDivisionError] and is
    excluded. *)
Theorem unit_acts_iff_step_mod_cycle_zero :
  forall (unit_config : yaml) (c s : Z),
    subscript unit_config "cycle" = Returned (YInt c) ->
    c <> 0 ->
    (fires unit_config s = Returned true <-> s mod c = 0) /\
    (fires unit_config s = Returned false <-> s mod c <> 0) /\
    (forall exts ctx name (w : world Blob) ctx' w',
       (o <-- subscript (ctx_experiment ctx) "optimizers" ;; subscript o name)
       = Returned unit_config ->
       train_unit s exts ctx name w = (Returned ctx', w') ->
       (s mod c = 0 /\
        exists loss,
          trace w' = trace w ++ [SummaryScalar "loss" (YStr name) s loss;
                                 LoggedInfo ("loss[" ++ name ++ "][" ++ str_of_Z s ++ "]")]) \/
       (s mod c <> 0 /\ ctx' = ctx /\ w' = w)) /\
    (forall prs ctx (w : world Blob) ctx' w',
       validate_unit s prs ctx unit_config w = (Returned ctx', w') ->
       (s mod c = 0 /\
        exists name p q,
          trace w' = trace w ++ [SummaryScalar "psnr" name s p;
                                 SummaryScalar "ssim" name s q;
                                 SummaryImage "hd-sr" name s;
                                 LoggedInfo "psnr"; LoggedInfo "ssim"]) \/
       (s mod c <> 0 /\ ctx' = ctx /\ w' = w)) /\
    (forall ctx (w : world Blob) ctx' w',
       global_step ctx = Returned s ->
       subscript (ctx_experiment ctx) "checkpoint" = Returned unit_config ->
       save ctx w = (Returned ctx', w') ->
       (s mod c = 0 /\
        exists dir principals document,
          trace w' = trace w ++ generation_events dir s principals document) \/
       (s mod c <> 0 /\ ctx' = ctx /\ w' = w)) /\
    (c = 5 ->
     map (fires unit_config) [0; 5; 10; 15] = map Returned [true; true; true; true] /\
     map (fires unit_config) [1; 2; 3; 4; 6; 7; 8; 9]
     = map Returned [false; false; false; false; false; false; false; false] /\
     forall k, fires unit_config (5 * k) = Returned true).
Proof.
  intros unit_config c s Hc Hne.
  assert (Hopen : forall t, fires unit_config t = Returned true <-> t mod c = 0).
  { intros t. rewrite (fires_cycle _ _ t Hc Hne).
    destruct (Z.eqb_spec (t mod c) 0); split; intros H;
      try reflexivity; try assumption; try discriminate; contradiction. }
  assert (Hclosed : forall t, fires unit_config t = Returned false <-> t mod c <> 0).
  { intros t. rewrite (fires_cycle _ _ t Hc Hne).
    destruct (Z.eqb_spec (t mod c) 0); split; intros H;
      try reflexivity; try assumption; try discriminate; contradiction. }
  split; [apply Hopen|]. split; [apply Hclosed|].
  split; [|split; [|split]].
  - intros exts ctx name w ctx' w' Hcfg H.
    destruct (train_unit_cases _ _ _ _ _ _ _ _ Hcfg H) as [[Hf Hev] | [Hf Hkeep]].
    + left. split; [apply Hopen; exact Hf | exact Hev].
    + right. split; [apply Hclosed; exact Hf | exact Hkeep].
  - intros prs ctx w ctx' w' H.
    destruct (validate_unit_cases _ _ _ _ _ _ _ H) as [[Hf Hev] | [Hf Hkeep]].
    + left. split; [apply Hopen; exact Hf | exact Hev].
    + right. split; [apply Hclosed; exact Hf | exact Hkeep].
  - intros ctx w ctx' w' Hstep Hcfg H.
    destruct (save_returned_cases _ _ _ _ _ _ Hstep Hcfg H) as [[Hf Hev] | [Hf Hkeep]].
    + left. split; [apply Hopen; exact Hf | exact Hev].
    + right. split; [apply Hclosed; exact Hf | exact Hkeep].
  - intros ->. split; [|split].
    + simpl. rewrite !(fires_cycle _ 5 _ Hc) by discriminate. reflexivity.
    + simpl. rewrite !(fires_cycle _ 5 _ Hc) by discriminate. reflexivity.
    + intros k. apply Hopen. rewrite Z.mul_comm. apply Z.mod_mul. discriminate.
Qed.

(** ** The offset of the session *)

Ltac step_lift H x Hx :=
  apply bind_lift_inv in H as [[x [Hx H]] | [? [_ [? _]]]]; [|discriminate].

Ltac step_bind H x w Hx :=
  apply bind_inv in H as [[x [w [Hx H]]] | [? [_ ?]]]; [|discriminate].

(** What training and validation leave alone in the session. *)
Definition same_descriptor (ctx ctx' : context) : Prop :=
  ctx_experiment ctx' = ctx_experiment ctx /\
  ctx_strategy ctx' = ctx_strategy ctx /\
  ctx_global_step ctx' = ctx_global_step ctx.

Lemma same_descriptor_refl ctx : same_descriptor ctx ctx.
Proof. repeat split. Qed.

Lemma same_descriptor_trans a b c :
  same_descriptor a b -> same_descriptor b c -> same_descriptor a c.
Proof.
  unfold same_descriptor. intros [H1 [H2 H3]] [H4 [H5 H6]].
  repeat split; congruence.
Qed.

Lemma next_batch_inv name ctx b ctx' :
  next_batch name ctx = Returned (b, ctx') ->
  exists n datasets rest,
    name = YStr n /\ ctx_datasets ctx = Some datasets /\
    PyDict.get n datasets = Some (b :: rest) /\
    ctx' = set_datasets ctx (PyDict.set n rest datasets).
Proof.
  unfold next_batch. intros H.
  apply obind_inv in H as [datasets [Hd H]].
  apply obind_inv in H as [dataset [Hl H]].
  destruct name; try discriminate;
    try (destruct dataset; discriminate).
  destruct dataset as [|b0 rest]; [discriminate|].
  injection H as <- <-.
  destruct (ctx_datasets ctx) as [ds|]; [|discriminate]. injection Hd as ->.
  unfold lookup_yaml, lookup_key in Hl.
  destruct (PyDict.get s datasets) as [d|] eqn:Hg; [|discriminate].
  injection Hl as ->.
  exists s, datasets, rest. repeat split. exact Hg.
Qed.

Lemma call_training_adapter_inv a data ctx loss ctx' :
  call_training_adapter a data ctx = Returned (loss, ctx') ->
  exists m optimizers o w' o',
    ctx_models ctx = Some m /\ ctx_optimizers ctx = Some optimizers /\
    PyDict.get (ta_optimizer a) optimizers = Some o /\
    train_one_step_in_graph a data (weights m) o = Returned (loss, w', o') /\
    ctx' = set_optimizers (set_models ctx (set_weights m w'))
             (PyDict.set (ta_optimizer a) o' optimizers).
Proof.
  unfold call_training_adapter. intros H.
  apply obind_inv in H as [m [Hm H]].
  apply obind_inv in H as [optimizers [Ho H]].
  apply obind_inv in H as [o [Hl H]].
  apply obind_inv in H as [[[l w'] o'] [Hr H]].
  injection H as <- <-.
  destruct (ctx_models ctx) as [m0|]; [|discriminate]. injection Hm as ->.
  destruct (ctx_optimizers ctx) as [os|]; [|discriminate]. injection Ho as ->.
  unfold lookup_key in Hl.
  destruct (PyDict.get (ta_optimizer a) optimizers) as [o0|] eqn:Hg; [|discriminate].
  injection Hl as ->.
  exists m, optimizers, o, w', o'. repeat split; assumption.
Qed.

Lemma train_unit_keeps step exts ctx name (w : world Blob) ctx' w' :
  train_unit step exts ctx name w = (Returned ctx', w') ->
  same_descriptor ctx ctx'.
Proof.
  unfold train_unit. intros H.
  step_lift H config Hc. step_lift H go Hgo.
  destruct go; simpl in H.
  - step_lift H dn Hdn. step_lift H ds Hds. step_lift H model Hm.
    step_lift H r Hr.
    unfold bind, emit, ret in H. simpl in H. injection H as <- _.
    apply obind_inv in Hr as [[b ctx1] [Hn Hr]].
    apply next_batch_inv in Hn as [n [datasets [rest [_ [_ [_ ->]]]]]].
    destruct r as [loss ctx2]. simpl in Hr |- *.
    apply call_training_adapter_inv in Hr as [m [os [o [w0 [o' [_ [_ [_ [_ ->]]]]]]]]].
    repeat split.
  - unfold ret in H. injection H as <- _. apply same_descriptor_refl.
Qed.

Lemma validate_unit_keeps step prs ctx validator (w : world Blob) ctx' w' :
  validate_unit step prs ctx validator w = (Returned ctx', w') ->
  same_descriptor ctx ctx' /\ ctx_optimizers ctx' = ctx_optimizers ctx /\
  ctx_models ctx' = ctx_models ctx.
Proof.
  unfold validate_unit. intros H.
  step_lift H go Hgo.
  destruct go; simpl in H.
  - step_lift H dn Hdn. step_lift H ds Hds. step_lift H model Hm.
    step_lift H r Hr. step_lift H m Hmm. step_lift H images Hi.
    step_lift H name Hname.
    unfold bind, emit, ret in H. simpl in H. injection H as <- _.
    destruct r as [b ctx1].
    apply next_batch_inv in Hr as [n [datasets [rest [_ [_ [_ ->]]]]]].
    repeat split.
  - unfold ret in H. injection H as <- _. repeat split.
Qed.

Lemma foldM_keeps {A} (body : context -> A -> M Blob context) (P : context -> context -> Prop) :
  (forall ctx, P ctx ctx) ->
  (forall a b c, P a b -> P b c -> P a c) ->
  (forall ctx a w ctx' w', body ctx a w = (Returned ctx', w') -> P ctx ctx') ->
  forall l ctx w ctx' w',
    foldM body l ctx w = (Returned ctx', w') -> P ctx ctx'.
Proof.
  intros Hrefl Htrans Hbody.
  induction l as [|a l IH]; intros ctx w ctx' w' H; simpl in H.
  - unfold ret in H. injection H as <- _. apply Hrefl.
  - step_bind H ctx1 w1 H1.
    eapply Htrans; [eapply Hbody; exact H1 | eapply IH; exact H].
Qed.

Lemma train_keeps ctx (w : world Blob) ctx' w' :
  train ctx w = (Returned ctx', w') -> same_descriptor ctx ctx'.
Proof.
  unfold train. intros H.
  step_lift H step Hs. step_lift H m Hm. step_lift H os Ho.
  eapply (foldM_keeps _ same_descriptor same_descriptor_refl same_descriptor_trans);
    [|exact H].
  intros. eapply train_unit_keeps; eassumption.
Qed.

Lemma validate_keeps ctx (w : world Blob) ctx' w' :
  validate ctx w = (Returned ctx', w') ->
  same_descriptor ctx ctx' /\ ctx_optimizers ctx' = ctx_optimizers ctx /\
  ctx_models ctx' = ctx_models ctx.
Proof.
  unfold validate. intros H.
  step_lift H step Hs. step_lift H m Hm. step_lift H vs Hv.
  eapply (foldM_keeps _
            (fun a b => same_descriptor a b /\ ctx_optimizers b = ctx_optimizers a /\
                        ctx_models b = ctx_models a));
    [| | |exact H].
  - intros; repeat split.
  - intros a b c [H1 [H2 H3]] [H4 [H5 H6]].
    split; [eapply same_descriptor_trans; eassumption|]. split; congruence.
  - intros. eapply validate_unit_keeps; eassumption.
Qed.

(** [n] checkpoints in a row, with no training in between. *)
Fixpoint saves (n : nat) (ctx : context) : M Blob context :=
  match n with
  | O => ret ctx
  | S k => ctx <- save ctx ;; saves k ctx
  end.

Lemma load_experiment_offset path (w : world Blob) ctx w' :
  load_experiment path w = (Returned ctx, w') ->
  subscript (ctx_experiment ctx) "global_step" = Returned (ctx_global_step ctx).
Proof.
  unfold load_experiment. intros H.
  apply bind_inv in H as [[w0 [w1 [Hw H]]] | [e [_ Habs]]]; [|discriminate].
  destruct (negb (isfile (fs w0) path)); [discriminate|].
  step_bind H experiment w2 Hload.
  step_lift H has_name Hn.
  destruct (negb has_name); [discriminate|].
  step_lift H summary Hs. step_lift H sp Hsp.
  destruct (negb (truthy sp)); [discriminate|].
  step_lift H checkpoint Hcp. step_lift H cp Hcpp.
  destruct (negb (truthy cp)); [discriminate|].
  step_lift H has_step Hhs. step_lift H e1 He1. step_lift H name Hname.
  step_lift H e2 He2. step_lift H cdir Hcdir.
  step_bind H u1 w3 Hmk. step_lift H sdir Hsdir.
  step_bind H u2 w4 Hcw. step_lift H lname Hln. step_lift H strat Hst.
  step_lift H step Hstep.
  step_bind H u3 w5 Hl1. step_bind H u4 w6 Hl2. step_bind H u5 w7 Hl3.
  unfold ret in H. injection H as <- _. simpl. exact Hstep.
Qed.

Lemma save_keeps ctx (w : world Blob) ctx' w' :
  save ctx w = (Returned ctx', w') ->
  (exists experiment, ctx' = set_experiment ctx experiment) /\
  (ctx' = ctx \/
   exists step, global_step ctx = Returned step /\
     subscript (ctx_experiment ctx') "global_step" = Returned (YInt step)).
Proof.
  intros H.
  apply save_cases in H as [events [Htr [[_ [[e He] | Hclosed]] | [w1 Hgen]]]].
  - discriminate.
  - destruct Hclosed as [step [_ [_ [Hr _]]]]. injection Hr as ->.
    split; [|left; reflexivity].
    exists (ctx_experiment ctx). destruct ctx; reflexivity.
  - destruct Hgen as [step [dir [principals [document [Hstep [_ [Hr [Hgs _]]]]]]]].
    injection Hr as ->. split; [eexists; reflexivity|].
    right. exists step. split; [exact Hstep | exact Hgs].
Qed.

Lemma global_step_set_experiment ctx experiment :
  global_step (set_experiment ctx experiment) = global_step ctx.
Proof. reflexivity. Qed.

(** C10. The offset [global_step] adds is [context['global_step']]: it is
    the descriptor's [global_step] when [load_experiment] returns; a run of
    [save] changes nothing of the session but [context['experiment']], whose
    [global_step] it sets to the step when it fires, so the offset and the
    reported step are the same after one checkpoint, after any number of
    checkpoints in a row, and the offset is the same after any number of
    rounds of the loop. *)
Theorem offset_is_fixed_at_session_start :
  (forall path (w : world Blob) ctx w',
     load_experiment path w = (Returned ctx, w') ->
     subscript (ctx_experiment ctx) "global_step" = Returned (ctx_global_step ctx)) /\
  (forall ctx (w : world Blob) ctx' w',
     save ctx w = (Returned ctx', w') ->
     (exists experiment, ctx' = set_experiment ctx experiment) /\
     ctx_global_step ctx' = ctx_global_step ctx /\
     global_step ctx' = global_step ctx /\
     (ctx' = ctx \/
      exists step, global_step ctx = Returned step /\
        subscript (ctx_experiment ctx') "global_step" = Returned (YInt step))) /\
  (forall n ctx (w : world Blob) ctx' w',
     saves n ctx w = (Returned ctx', w') ->
     ctx_global_step ctx' = ctx_global_step ctx /\
     global_step ctx' = global_step ctx) /\
  (forall n ctx (w : world Blob) ctx' w',
     rounds n ctx w = (Returned ctx', w') ->
     ctx_global_step ctx' = ctx_global_step ctx).
Proof.
  split; [exact load_experiment_offset|].
  split; [|split].
  - intros ctx w ctx' w' H.
    destruct (save_keeps _ _ _ _ H) as [[experiment ->] Hstep].
    split; [eexists; reflexivity|]. repeat split. exact Hstep.
  - induction n as [|n IH]; intros ctx w ctx' w' H; simpl in H.
    + unfold ret in H. injection H as <- _. split; reflexivity.
    + step_bind H ctx1 w1 H1.
      destruct (save_keeps _ _ _ _ H1) as [[experiment ->] _].
      apply IH in H as [H2 H3]. rewrite H2, H3. split; reflexivity.
  - induction n as [|n IH]; intros ctx w ctx' w' H; simpl in H.
    + unfold ret in H. injection H as <- _. reflexivity.
    + step_bind H ctx1 w1 H1. step_bind H ctx2 w2 H2. step_bind H ctx3 w3 H3.
      apply train_keeps in H1 as [_ [_ Ha]].
      apply validate_keeps in H2 as [[_ [_ Hb]] _].
      destruct (save_keeps _ _ _ _ H3) as [[experiment ->] _].
      apply IH in H. rewrite H. simpl. congruence.
Qed.

(** ** Checkpoint discovery *)

Lemma string_compare_refl s : String.compare s s = Eq.
Proof.
  induction s as [|c s IH]; simpl; [reflexivity|].
  unfold Ascii.compare. rewrite N.compare_refl. exact IH.
Qed.

Lemma string_leb_refl s : String.leb s s = true.
Proof. unfold String.leb. rewrite string_compare_refl. reflexivity. Qed.

Lemma string_compare_trans_le a :
  forall b c,
    String.compare a b <> Gt -> String.compare b c <> Gt -> String.compare a c <> Gt.
Proof.
  induction a as [|x a IH]; intros [|y b] [|z c]; simpl; try congruence.
  unfold Ascii.compare.
  destruct (N.compare_spec (N_of_ascii x) (N_of_ascii y)) as [Hxy | Hxy | Hxy];
    destruct (N.compare_spec (N_of_ascii y) (N_of_ascii z)) as [Hyz | Hyz | Hyz];
    destruct (N.compare_spec (N_of_ascii x) (N_of_ascii z)) as [Hxz | Hxz | Hxz];
    try congruence; try lia.
  apply IH.
Qed.

Lemma string_leb_trans a b c :
  String.leb a b = true -> String.leb b c = true -> String.leb a c = true.
Proof.
  unfold String.leb. intros Hab Hbc.
  pose proof (string_compare_trans_le a b c) as H.
  destruct (String.compare a b); destruct (String.compare b c);
    destruct (String.compare a c); try discriminate; try reflexivity;
    exfalso; apply H; congruence.
Qed.

Lemma sorted_strongly names :
  StronglySorted (fun a b => is_true (String.leb a b)) (sorted names).
Proof.
  apply StringSort.StronglySorted_sort.
  intros a b c. apply string_leb_trans.
Qed.

Lemma sorted_permutation names : Permutation names (sorted names).
Proof. apply StringSort.Permuted_sort. Qed.

Lemma strongly_sorted_last (l : list string) :
  StronglySorted (fun a b => is_true (String.leb a b)) l ->
  forall n, In n l -> String.leb n (last l "") = true.
Proof.
  induction 1 as [|a l Hs IH Hall]; intros n Hin; [contradiction|].
  destruct l as [|b l'].
  - destruct Hin as [<- | []]. apply string_leb_refl.
  - change (last (a :: b :: l') "") with (last (b :: l') "").
    destruct Hin as [<- | Hin]; [|apply IH; exact Hin].
    rewrite Forall_forall in Hall.
    eapply string_leb_trans; [apply Hall; left; reflexivity|].
    apply IH. left. reflexivity.
Qed.

Lemma last_in {A} (l : list A) d : l <> [] -> In (last l d) l.
Proof.
  induction l as [|a l IH]; intros Hne; [contradiction|].
  destruct l as [|b l']; [left; reflexivity|].
  right. apply IH. discriminate.
Qed.

(** ** Zero-padded steps sort as numbers

    [save] names a descriptor [str(step).rjust(16, '0')] followed by the
    suffix. For steps of at most sixteen digits the names all carry sixteen
    digits, and digit strings of one length compare as the numbers they
    spell. *)

Local Abbreviation sou := NilEmpty.string_of_uint.
Local Abbreviation usize := DecimalPos.Unsigned.usize.

Lemma of_uint_head d :
  (N.of_uint d
   = DecimalPos.Unsigned.hd d * 10 ^ usize (DecimalPos.Unsigned.tl d) + N.of_uint (DecimalPos.Unsigned.tl d))%N.
Proof.
  unfold N.of_uint. rewrite !DecimalPos.Unsigned.of_uint_alt.
  destruct d; simpl DecimalPos.Unsigned.hd; simpl DecimalPos.Unsigned.tl; try reflexivity;
    unfold Decimal.rev; simpl Decimal.revapp; rewrite DecimalPos.Unsigned.of_lu_revapp; simpl DecimalPos.Unsigned.of_lu;
    unfold Decimal.rev; lia.
Qed.

Lemma of_uint_bound d : (N.of_uint d < 10 ^ usize d)%N.
Proof.
  induction d; rewrite of_uint_head; simpl DecimalPos.Unsigned.hd; simpl DecimalPos.Unsigned.tl;
    simpl usize; try (rewrite N.pow_succ_r'; lia).
  simpl. lia.
Qed.

(** Digit strings of the same length compare as the numbers they spell,
    whatever follows them. *)
Lemma compare_digits rest :
  forall d1 d2,
    usize d1 = usize d2 ->
    String.compare (sou d1 ++ rest)
                   (sou d2 ++ rest)
    = N.compare (N.of_uint d1) (N.of_uint d2).
Proof.
  assert (Hrest : String.compare rest rest = Eq).
  { induction rest as [|c s IH]; simpl; [reflexivity|].
    unfold Ascii.compare. rewrite N.compare_refl. exact IH. }
  induction d1 as [|l1 IH|l1 IH|l1 IH|l1 IH|l1 IH|l1 IH|l1 IH|l1 IH|l1 IH|l1 IH];
    intros d2 Hsize; destruct d2 as [|l2|l2|l2|l2|l2|l2|l2|l2|l2|l2];
    simpl in Hsize; try lia;
    try (simpl; rewrite Hrest; reflexivity);
    apply N.succ_inj in Hsize;
    match goal with
    | |- _ = N.compare (N.of_uint ?a) (N.of_uint ?b) =>
        rewrite (of_uint_head a), (of_uint_head b)
    end;
    simpl DecimalPos.Unsigned.hd; simpl DecimalPos.Unsigned.tl;
    pose proof (of_uint_bound l1) as B1; pose proof (of_uint_bound l2) as B2;
    rewrite Hsize in B1 |- *;
    cbn [NilEmpty.string_of_uint String.append String.compare];
    match goal with
    | |- context [Ascii.compare ?a ?b] =>
        let c := eval vm_compute in (Ascii.compare a b) in
        change (Ascii.compare a b) with c; cbv iota
    end;
    first [ rewrite (IH l2 Hsize); symmetry;
            destruct (N.compare_spec (N.of_uint l1) (N.of_uint l2));
            [ apply N.compare_eq_iff | apply N.compare_lt_iff | apply N.compare_gt_iff ]; lia
          | symmetry; apply N.compare_lt_iff; lia
          | symmetry; apply N.compare_gt_iff; lia ].
Qed.


Lemma sou_length d : String.length (sou d) = N.to_nat (usize d).
Proof.
  induction d; simpl; try (rewrite IHd; lia). reflexivity.
Qed.

Lemma sou_pad k d :
  sou (Nat.iter k Decimal.D0 d) = (PyStr.repeat_char "0" k ++ sou d)%string.
Proof.
  induction k as [|k IH]; simpl; [reflexivity | now rewrite IH].
Qed.

Lemma of_uint_pad k d : N.of_uint (Nat.iter k Decimal.D0 d) = N.of_uint d.
Proof.
  induction k as [|k IH]; [reflexivity|].
  change (Nat.iter (S k) Decimal.D0 d) with (Decimal.D0 (Nat.iter k Decimal.D0 d)).
  rewrite of_uint_head. simpl DecimalPos.Unsigned.hd. simpl DecimalPos.Unsigned.tl. rewrite IH. lia.
Qed.

Lemma usize_pad k d :
  usize (Nat.iter k Decimal.D0 d) = (N.of_nat k + usize d)%N.
Proof.
  induction k as [|k IH]; simpl Nat.iter; [simpl; lia|].
  simpl usize. rewrite IH. lia.
Qed.

Lemma str_of_Z_nonneg n :
  0 <= n -> str_of_Z n = sou (N.to_uint (Z.to_N n)).
Proof.
  intros Hn. unfold str_of_Z. destruct n as [|p|p]; try lia; [reflexivity|].
  simpl. pose proof (DecimalPos.Unsigned.to_uint_nonnil p) as Hnil.
  unfold NilZero.string_of_uint. destruct (Pos.to_uint p); congruence.
Qed.

Lemma leading_digit d :
  Decimal.unorm d = d -> d = Decimal.zero \/ (10 ^ usize (DecimalPos.Unsigned.tl d) <= N.of_uint d)%N.
Proof.
  intros Hd. rewrite of_uint_head.
  destruct d; simpl DecimalPos.Unsigned.hd; simpl DecimalPos.Unsigned.tl; try (right; lia).
  - discriminate.
  - left. rewrite DecimalFacts.unorm_D0 in Hd.
    destruct d; try reflexivity;
      match type of Hd with
      | Decimal.unorm ?l = _ =>
          assert (Hl : l <> Decimal.Nil) by discriminate;
          pose proof (DecimalFacts.nb_digits_unorm l Hl) as Hlen;
          rewrite Hd in Hlen; simpl in Hlen; lia
      end.
Qed.

Lemma usize_tl d : d <> Decimal.Nil -> usize d = N.succ (usize (DecimalPos.Unsigned.tl d)).
Proof. destruct d; simpl; congruence. Qed.

Lemma digits_bound n :
  (n < 10 ^ 16)%N -> (usize (N.to_uint n) <= 16)%N.
Proof.
  intros Hn.
  pose proof (DecimalN.Unsigned.of_to n) as Hof.
  pose proof (DecimalN.Unsigned.to_of (N.to_uint n)) as Hto.
  rewrite Hof in Hto. symmetry in Hto.
  destruct (leading_digit _ Hto) as [Hz | Hle].
  - rewrite Hz. simpl. lia.
  - rewrite Hof in Hle.
    assert (Hnil : N.to_uint n <> Decimal.Nil).
    { intros E. rewrite E in Hto. discriminate. }
    rewrite (usize_tl _ Hnil).
    destruct (N.le_gt_cases (usize (DecimalPos.Unsigned.tl (N.to_uint n))) 15) as [|Hbig];
      [lia|].
    assert (10 ^ 16 <= 10 ^ usize (DecimalPos.Unsigned.tl (N.to_uint n)))%N
      by (apply N.pow_le_mono_r; lia).
    lia.
Qed.

Lemma step_file_name_digits n sfx :
  0 <= n < 10 ^ 16 ->
  exists d,
    usize d = 16%N /\ N.of_uint d = Z.to_N n /\
    step_file_name n sfx = (sou d ++ ("_" ++ sfx))%string.
Proof.
  intros [Hlo Hhi].
  set (d0 := N.to_uint (Z.to_N n)).
  assert (Hsize : (usize d0 <= 16)%N).
  { apply digits_bound. change (10 ^ 16)%N with (Z.to_N (10 ^ 16)).
    apply Z2N.inj_lt; lia. }
  exists (Nat.iter (16 - String.length (sou d0)) Decimal.D0 d0). repeat split.
  - rewrite usize_pad, sou_length. lia.
  - rewrite of_uint_pad. apply DecimalN.Unsigned.of_to.
  - unfold step_file_name, PyStr.rjust.
    rewrite (str_of_Z_nonneg n Hlo). fold d0. now rewrite sou_pad.
Qed.

Lemma step_file_name_compare a b sfx :
  0 <= a < 10 ^ 16 -> 0 <= b < 10 ^ 16 ->
  String.compare (step_file_name a sfx) (step_file_name b sfx) = Z.compare a b.
Proof.
  intros Ha Hb.
  destruct (step_file_name_digits a sfx Ha) as (da & Sa & Va & ->).
  destruct (step_file_name_digits b sfx Hb) as (db & Sb & Vb & ->).
  rewrite compare_digits by congruence.
  rewrite Va, Vb. apply Z2N.inj_compare; lia.
Qed.

Lemma step_file_name_leb a b sfx :
  0 <= a < 10 ^ 16 -> 0 <= b < 10 ^ 16 ->
  String.leb (step_file_name a sfx) (step_file_name b sfx) = true -> a <= b.
Proof.
  intros Ha Hb. unfold String.leb. rewrite (step_file_name_compare a b sfx Ha Hb).
  destruct (Z.compare_spec a b); intros Hle; first [lia | discriminate Hle].
Qed.

(** The newest checkpoint among the candidates in a directory listing. *)
Definition candidates (names : list string) : list string :=
  filter (PyStr.endswith "_checkpoint.yaml") names.

Lemma find_latest_checkpoint_not_dir path (w : world Blob) :
  isdir (fs w) path = false -> find_latest_checkpoint path w = (Returned path, w).
Proof.
  intros H. unfold find_latest_checkpoint, bind, get_world. rewrite H. reflexivity.
Qed.

Lemma find_latest_checkpoint_dir path (w : world Blob) :
  isdir (fs w) path = true ->
  find_latest_checkpoint path w =
  match sorted (candidates (listdir (fs w) path)) with
  | [] => (Raised (ValueError ("Found no checkpoint within " ++ path)%string), w)
  | _ :: _ =>
      (Returned (path_join path (last (sorted (candidates (listdir (fs w) path))) "")), w)
  end.
Proof.
  intros H. unfold find_latest_checkpoint, bind, get_world. rewrite H. simpl.
  unfold candidates.
  destruct (sorted (filter (PyStr.endswith "_checkpoint.yaml") (listdir (fs w) path)));
    reflexivity.
Qed.

Lemma find_latest_checkpoint_last path (w : world Blob) :
  isdir (fs w) path = true ->
  candidates (listdir (fs w) path) <> [] ->
  exists name,
    find_latest_checkpoint path w = (Returned (path_join path name), w) /\
    In name (listdir (fs w) path) /\
    PyStr.endswith "_checkpoint.yaml" name = true /\
    (forall n, In n (candidates (listdir (fs w) path)) -> String.leb n name = true) /\
    name = last (sorted (candidates (listdir (fs w) path))) "".
Proof.
  intros Hdir Hsome.
  pose proof (sorted_permutation (candidates (listdir (fs w) path))) as Hperm.
  rewrite (find_latest_checkpoint_dir _ _ Hdir).
  destruct (sorted (candidates (listdir (fs w) path))) as [|n0 ns] eqn:Hsorted.
  - apply Permutation_sym, Permutation_nil in Hperm. contradiction.
  - exists (last (n0 :: ns) ""). split; [reflexivity|].
    assert (Hin : In (last (n0 :: ns) "") (candidates (listdir (fs w) path))).
    { eapply Permutation_in; [apply Permutation_sym; exact Hperm|].
      apply last_in. discriminate. }
    unfold candidates in Hin. apply filter_In in Hin as [Hin Hend].
    split; [exact Hin|]. split; [exact Hend|]. split; [|reflexivity].
    intros n Hn. rewrite <- Hsorted. apply strongly_sorted_last.
    + apply sorted_strongly.
    + eapply Permutation_in; [apply sorted_permutation | exact Hn].
Qed.

(** When the candidates are the descriptors that [save] names after the
    steps of a list, the one returned is that of the greatest step. *)
Lemma find_latest_checkpoint_highest_step path (w : world Blob) steps :
  isdir (fs w) path = true ->
  steps <> [] ->
  (forall s, In s steps -> 0 <= s < 10 ^ 16) ->
  (forall n, In n (candidates (listdir (fs w) path)) <->
             exists s, In s steps /\ n = step_file_name s "checkpoint.yaml") ->
  exists top,
    In top steps /\ (forall s, In s steps -> s <= top) /\
    find_latest_checkpoint path w
    = (Returned (path_join path (step_file_name top "checkpoint.yaml")), w).
Proof.
  intros Hdir Hne Hrange Hnames.
  assert (Hsome : candidates (listdir (fs w) path) <> []).
  { destruct steps as [|s0 rest]; [contradiction|].
    intros Hnil.
    assert (Hin : In (step_file_name s0 "checkpoint.yaml")
                     (candidates (listdir (fs w) path)))
      by (apply Hnames; exists s0; split; [left|]; reflexivity).
    rewrite Hnil in Hin. contradiction. }
  destruct (find_latest_checkpoint_last path w Hdir Hsome)
    as (name & Hrun & Hin & Hend & Hmax & _).
  assert (Hcand : In name (candidates (listdir (fs w) path)))
    by (apply filter_In; split; assumption).
  apply Hnames in Hcand as (top & Htop & ->).
  exists top. split; [exact Htop|]. split; [|exact Hrun].
  intros s Hs.
  apply (step_file_name_leb s top "checkpoint.yaml"); auto.
  apply Hmax, Hnames. exists s. split; [exact Hs | reflexivity].
Qed.

(** C3. [find_latest_checkpoint(path)] returns [path] itself when it names
    an existing file. When it names a directory, the entries that end in
    [_checkpoint.yaml] are the candidates: without candidate the call raises
    the error that names the directory; otherwise it returns the directory
    joined with the candidate that is last in lexicographic order, which is
    the last element of the sorted candidates. That candidate is the one of
    the highest step: when the candidates are the descriptors named, as
    [save] names them, after the steps of a list (each of at most sixteen
    digits), the descriptor of the greatest step is returned. In a directory
    that holds the descriptors of steps 5 and 10 and an unrelated file, that
    is the descriptor of step 10. *)
Theorem find_latest_checkpoint_returns_newest :
  forall path (w : world Blob),
    (isfile (fs w) path = true ->
     find_latest_checkpoint path w = (Returned path, w)) /\
    (isdir (fs w) path = true ->
     candidates (listdir (fs w) path) = [] ->
     find_latest_checkpoint path w =
     (Raised (ValueError ("Found no checkpoint within " ++ path)%string), w)) /\
    (isdir (fs w) path = true ->
     candidates (listdir (fs w) path) <> [] ->
     exists name,
       find_latest_checkpoint path w = (Returned (path_join path name), w) /\
       In name (listdir (fs w) path) /\
       PyStr.endswith "_checkpoint.yaml" name = true /\
       (forall n, In n (candidates (listdir (fs w) path)) -> String.leb n name = true) /\
       name = last (sorted (candidates (listdir (fs w) path))) "") /\
    (forall steps,
       isdir (fs w) path = true ->
       steps <> [] ->
       (forall s, In s steps -> 0 <= s < 10 ^ 16) ->
       (forall n, In n (candidates (listdir (fs w) path)) <->
                  exists s, In s steps /\ n = step_file_name s "checkpoint.yaml") ->
       exists top,
         In top steps /\ (forall s, In s steps -> s <= top) /\
         find_latest_checkpoint path w
         = (Returned (path_join path (step_file_name top "checkpoint.yaml")), w)) /\
    (let files :=
       {| fs := [("/runs", Dir);
                 ("/runs/0000000000000005_checkpoint.yaml", File OtherFile);
                 ("/runs/notes.txt", File OtherFile);
                 ("/runs/0000000000000010_checkpoint.yaml", File OtherFile)];
          gpus := []; trace := [] |} in
     find_latest_checkpoint "/runs" files =
     (Returned "/runs/0000000000000010_checkpoint.yaml", files)).
Proof.
  intros path w. split; [|split; [|split; [|split]]].
  - intros Hfile. apply find_latest_checkpoint_not_dir.
    unfold isfile, isdir in *. destruct (lookup path (fs w)) as [[f|]|];
      try reflexivity; discriminate.
  - intros Hdir Hnone. rewrite (find_latest_checkpoint_dir _ _ Hdir), Hnone.
    reflexivity.
  - apply find_latest_checkpoint_last.
  - intros steps. apply find_latest_checkpoint_highest_step.
  - vm_compute. reflexivity.
Qed.

(** ** Placeholder substitution *)

Lemma prefix_append p s : String.prefix p (p ++ s) = true.
Proof.
  induction p as [|c p IH]; simpl; [destruct s; reflexivity|].
  destruct (ascii_dec c c) as [_ | Hne]; [exact IH | contradiction].
Qed.

Lemma prefix_empty s : String.prefix "" s = true.
Proof. destruct s; reflexivity. Qed.

Lemma append_assoc (a b c : string) : ((a ++ b) ++ c = a ++ (b ++ c))%string.
Proof. induction a as [|x a IH]; simpl; [reflexivity | rewrite IH; reflexivity]. Qed.

Lemma replace_from_skip old new a r :
  PyStr.replace_from (String.length a) old new (a ++ r) = PyStr.replace_from 0 old new r.
Proof.
  induction a as [|c a IH]; simpl; [reflexivity | exact IH].
Qed.

Lemma replace_from_match c t new r :
  PyStr.replace_from 0 (String c t) new (String c t ++ r)
  = (new ++ PyStr.replace_from 0 (String c t) new r)%string.
Proof.
  change (String c t ++ r)%string with (String c (t ++ r)).
  cbn [PyStr.replace_from].
  change (String c (t ++ r)) with (String c t ++ r)%string.
  rewrite prefix_append.
  replace (String.length (String c t) - 1)%nat with (String.length t)
    by (simpl; lia).
  rewrite replace_from_skip. reflexivity.
Qed.

Lemma mem_char_false c d t :
  PyStr.mem_char c (String d t) = false -> c <> d /\ PyStr.mem_char c t = false.
Proof.
  simpl. intros H. apply orb_false_elim in H as [Hcd Ht].
  split; [|exact Ht]. intros ->. rewrite Ascii.eqb_refl in Hcd. discriminate.
Qed.

(** A word whose first character does not occur again cannot begin inside
    the text before one of its occurrences unless it lies in that text. *)
Lemma prefix_before_occurrence c0 t :
  PyStr.mem_char c0 t = false ->
  forall q r, String.prefix t (q ++ String c0 r) = true -> String.prefix t q = true.
Proof.
  induction t as [|d t IH]; intros Hmem q r H; [apply prefix_empty|].
  apply mem_char_false in Hmem as [Hne Hmem].
  destruct q as [|e q]; simpl in H |- *.
  - destruct (ascii_dec d c0) as [-> | _]; [contradiction | discriminate].
  - destruct (ascii_dec d e); [|discriminate]. eapply IH; eassumption.
Qed.

Lemma no_early_match c0 t p r :
  PyStr.mem_char c0 t = false ->
  p <> ""%string ->
  String.prefix (String c0 t) (p ++ String c0 t ++ r) = true ->
  String.prefix (String c0 t) p = true.
Proof.
  intros Hmem Hne H. destruct p as [|x p]; [contradiction|].
  simpl in H |- *. destruct (ascii_dec c0 x); [|discriminate].
  eapply prefix_before_occurrence; eassumption.
Qed.

Lemma replace_from_before c0 t new p r :
  PyStr.mem_char c0 t = false ->
  PyStr.contains (String c0 t) p = false ->
  PyStr.replace_from 0 (String c0 t) new (p ++ String c0 t ++ r)
  = (p ++ PyStr.replace_from 0 (String c0 t) new (String c0 t ++ r))%string.
Proof.
  intros Hmem. induction p as [|x p IH]; intros Hno; [reflexivity|].
  simpl in Hno. apply orb_false_elim in Hno as [Hpre Hno].
  change (String x p ++ String c0 t ++ r)%string
    with (String x (p ++ String c0 t ++ r)).
  cbn [PyStr.replace_from].
  change (String x (p ++ String c0 t ++ r))
    with (String x p ++ String c0 t ++ r)%string.
  destruct (String.prefix (String c0 t) (String x p ++ String c0 t ++ r)) eqn:E.
  - apply no_early_match in E; [|exact Hmem | discriminate].
    simpl in E. simpl in Hpre. congruence.
  - simpl. f_equal. apply IH. exact Hno.
Qed.

Lemma replace_from_absent old new s :
  PyStr.contains old s = false -> PyStr.replace_from 0 old new s = s.
Proof.
  induction s as [|x s IH]; intros Hno; [reflexivity|].
  cbn [PyStr.contains] in Hno. apply orb_false_elim in Hno as [Hpre Hno].
  cbn [PyStr.replace_from]. rewrite Hpre. f_equal. apply IH. exact Hno.
Qed.

Lemma replace_placeholder_absent name s :
  PyStr.contains placeholder s = false ->
  PyStr.replace placeholder name s = s.
Proof. intros H. apply replace_from_absent. exact H. Qed.

Lemma replace_placeholder_occurrence name p rest :
  PyStr.contains placeholder p = false ->
  PyStr.replace placeholder name (p ++ placeholder ++ rest)
  = (p ++ name ++ PyStr.replace placeholder name rest)%string.
Proof.
  intros H. unfold PyStr.replace, placeholder.
  rewrite replace_from_before; [|reflexivity | exact H].
  rewrite replace_from_match. reflexivity.
Qed.

(** Induction on a parsed document, through its lists and mappings. *)
Section YamlInduction.

Variable P : yaml -> Prop.
Hypothesis Hnull : P YNull.
Hypothesis Hbool : forall b, P (YBool b).
Hypothesis Hint : forall i, P (YInt i).
Hypothesis Hfloat : forall f, P (YFloat f).
Hypothesis Hstr : forall s, P (YStr s).
Hypothesis Hlist : forall items, Forall P items -> P (YList items).
Hypothesis Hdict : forall entries, Forall (fun e => P (snd e)) entries -> P (YDict entries).

Fixpoint yaml_induction (y : yaml) : P y :=
  match y with
  | YNull => Hnull
  | YBool b => Hbool b
  | YInt i => Hint i
  | YFloat f => Hfloat f
  | YStr s => Hstr s
  | YList items =>
      Hlist items
        ((fix all (l : list yaml) : Forall P l :=
            match l with
            | [] => Forall_nil P
            | v :: l' => Forall_cons v (yaml_induction v) (all l')
            end) items)
  | YDict entries =>
      Hdict entries
        ((fix all (l : list (string * yaml)) : Forall (fun e => P (snd e)) l :=
            match l with
            | [] => Forall_nil _
            | e :: l' => Forall_cons e (yaml_induction (snd e)) (all l')
            end) entries)
  end.

End YamlInduction.

(** What the descriptor becomes, in the words of the specification: under a
    mapping key that contains [path] a string has its placeholders replaced
    and is then normalized, any other string only has its placeholders
    replaced, every other scalar stays, lists and mappings are resolved item
    by item and keep their keys. The flag tells whether the value stands
    under such a key. *)
Inductive resolved_as (name : string) : bool -> yaml -> yaml -> Prop :=
| ra_null under_path : resolved_as name under_path YNull YNull
| ra_bool under_path b : resolved_as name under_path (YBool b) (YBool b)
| ra_int under_path i : resolved_as name under_path (YInt i) (YInt i)
| ra_float under_path f : resolved_as name under_path (YFloat f) (YFloat f)
| ra_str s :
    resolved_as name false (YStr s) (YStr (PyStr.replace placeholder name s))
| ra_path s :
    resolved_as name true (YStr s)
      (YStr (normalize_path expanduser resolve (PyStr.replace placeholder name s)))
| ra_list under_path items items' :
    Forall2 (resolved_as name false) items items' ->
    resolved_as name under_path (YList items) (YList items')
| ra_dict under_path entries entries' :
    Forall2 (fun e e' =>
               fst e' = fst e /\
               resolved_as name (PyStr.contains "path" (fst e)) (snd e) (snd e'))
      entries entries' ->
    resolved_as name under_path (YDict entries) (YDict entries').

Lemma resolve_item_resolved_as name :
  forall val k,
    resolved_as name (is_path_key k) val
      (resolve_item expanduser resolve (resolved expanduser resolve name) name k val).
Proof.
  induction val as [| b | i | f | s | items IH | entries IH] using yaml_induction;
    intros k; simpl; try constructor.
  - unfold resolve_string. destruct (is_path_key k); constructor.
  - generalize 0 as start. induction IH as [|v items Hv _ IHitems]; intros start.
    + constructor.
    + simpl. constructor; [exact (Hv (KInt start)) | apply IHitems].
  - induction IH as [|e entries He _ IHentries]; simpl.
    + constructor.
    + constructor; [|exact IHentries].
      split; [reflexivity | exact (He (KStr (fst e)))].
Qed.

Lemma resolved_as_keys name under_path entries data' :
  resolved_as name under_path (YDict entries) data' ->
  exists entries', data' = YDict entries' /\ map fst entries' = map fst entries.
Proof.
  intros H. inversion H as [| | | | | | |u es es' Hall]; subst.
  exists es'. split; [reflexivity|]. clear H.
  induction Hall as [|e e' es es' [Hk _] _ IH]; simpl; [reflexivity|].
  rewrite Hk, IH. reflexivity.
Qed.

(** C7. [resolve_strings] walks a nested structure of lists and mappings
    and returns it resolved as the specification says: every string item
    has every occurrence of [{experiment_name}] replaced by the experiment
    name (a string without occurrence stays; the text up to the first
    occurrence stays, the occurrence becomes the name and the replacement
    goes on after it), no mapping key changes, every scalar that is not a
    string stays, and a string under a mapping key that contains [path] is
    then normalized: kept when absolute, [expanduser] when it begins with
    [~], [resolve] against the working directory otherwise. *)
Theorem resolve_strings_replaces_and_normalizes :
  forall name : string,
    (forall items,
       exists items',
         resolve_strings expanduser resolve (YList items) name = Returned (YList items') /\
         resolved_as name false (YList items) (YList items')) /\
    (forall entries,
       exists entries',
         resolve_strings expanduser resolve (YDict entries) name
         = Returned (YDict entries') /\
         resolved_as name false (YDict entries) (YDict entries') /\
         map fst entries' = map fst entries) /\
    (forall s,
       PyStr.contains placeholder s = false ->
       PyStr.replace placeholder name s = s) /\
    (forall p rest,
       PyStr.contains placeholder p = false ->
       PyStr.replace placeholder name (p ++ placeholder ++ rest)
       = (p ++ name ++ PyStr.replace placeholder name rest)%string) /\
    (forall val,
       is_absolute val = true -> normalize_path expanduser resolve val = val) /\
    (forall val,
       is_absolute val = false -> PyStr.startswith "~" val = true ->
       normalize_path expanduser resolve val = expanduser val) /\
    (forall val,
       is_absolute val = false -> PyStr.startswith "~" val = false ->
       normalize_path expanduser resolve val = resolve val).
Proof.
  intros name.
  split; [|split; [|split; [|split; [|split; [|split]]]]].
  - intros items.
    pose proof (resolve_item_resolved_as name (YList items) (KInt 0)) as H.
    simpl in H. eexists. split; [reflexivity | exact H].
  - intros entries.
    pose proof (resolve_item_resolved_as name (YDict entries) (KInt 0)) as H.
    simpl in H. eexists. split; [reflexivity|]. split; [exact H|].
    apply resolved_as_keys in H as [entries' [Heq Hkeys]].
    injection Heq as <-. exact Hkeys.
  - apply replace_placeholder_absent.
  - apply replace_placeholder_occurrence.
  - intros val H. unfold normalize_path. rewrite H. reflexivity.
  - intros val H1 H2. unfold normalize_path. rewrite H1, H2. reflexivity.
  - intros val H1 H2. unfold normalize_path. rewrite H1, H2. reflexivity.
Qed.

(** ** Validation of the descriptor *)

(** A computation that never raises [ValueError]. *)
Definition no_value_error {A} (m : M Blob A) : Prop :=
  forall w r w', m w = (r, w') -> forall msg, r <> Raised (ValueError msg).

Definition plain_no_value_error {A} (o : outcome A) : Prop :=
  forall msg, o <> Raised (ValueError msg).

Lemma nve_bind {A B} (m : M Blob A) (k : A -> M Blob B) :
  no_value_error m -> (forall a, no_value_error (k a)) -> no_value_error (bind m k).
Proof.
  intros Hm Hk w r w' H msg.
  apply bind_inv in H as [[a [w1 [_ H]]] | [e [H ->]]].
  - eapply Hk; exact H.
  - intros Heq. injection Heq as ->. exact (Hm _ _ _ H msg eq_refl).
Qed.

Lemma nve_lift {A} (o : outcome A) : plain_no_value_error o -> no_value_error (lift o).
Proof. intros Ho w r w' H msg. unfold lift in H. injection H as <- _. apply Ho. Qed.

Lemma nve_ret {A} (a : A) : no_value_error (ret (Blob := Blob) a).
Proof. intros w r w' H msg. unfold ret in H. injection H as <- _. discriminate. Qed.

Lemma nve_emit e : no_value_error (emit (Blob := Blob) e).
Proof. intros w r w' H msg. unfold emit in H. injection H as <- _. discriminate. Qed.

Lemma nve_makedirs path : no_value_error (makedirs path).
Proof.
  intros w r w' H msg. unfold makedirs, bind, get_world in H.
  destruct (existsb _ _); unfold raise, put_fs, emit in H; simpl in H;
    injection H as <- _; discriminate.
Qed.

Lemma pnve_obind {A B} (o : outcome A) (k : A -> outcome B) :
  plain_no_value_error o -> (forall a, plain_no_value_error (k a)) ->
  plain_no_value_error (obind o k).
Proof.
  intros Ho Hk msg. destruct o as [a | e]; simpl; [apply Hk|].
  intros H. injection H as ->. exact (Ho msg eq_refl).
Qed.

Lemma pnve_returned {A} (a : A) : plain_no_value_error (Returned a).
Proof. intros msg. discriminate. Qed.

Lemma pnve_subscript y k : plain_no_value_error (subscript y k).
Proof.
  intros msg. destruct y; simpl; try discriminate.
  destruct (PyDict.get k entries); discriminate.
Qed.

Lemma pnve_assign y k v : plain_no_value_error (assign y k v).
Proof. intros msg. destruct y; simpl; discriminate. Qed.

Lemma pnve_as_str y : plain_no_value_error (as_str y).
Proof. intros msg. destruct y; simpl; discriminate. Qed.

Lemma pnve_contains_name y k : plain_no_value_error (contains_name y k).
Proof. intros msg. destruct y; simpl; discriminate. Qed.

Lemma pnve_get_default y k v : plain_no_value_error (get_default y k v).
Proof.
  intros msg. destruct y; simpl; try discriminate.
  destruct (PyDict.get k entries); discriminate.
Qed.

Lemma pnve_resolve_experiment experiment name :
  plain_no_value_error (resolve_experiment experiment name).
Proof.
  intros msg. unfold resolve_experiment, resolve_strings.
  destruct name; destruct experiment; simpl; try discriminate;
    match goal with
    | |- context [if ?b then _ else _] => destruct b; discriminate
    end.
Qed.

Lemma pnve_choose_strategy g : plain_no_value_error (choose_strategy g).
Proof.
  intros msg. unfold choose_strategy.
  destruct (1 <? Datatypes.length g)%nat; [discriminate|].
  destruct g; discriminate.
Qed.

Create HintDb nve.

#[local] Hint Resolve nve_ret nve_emit nve_makedirs pnve_returned pnve_subscript
  pnve_assign pnve_as_str pnve_contains_name pnve_get_default
  pnve_resolve_experiment pnve_choose_strategy : nve.

Ltac no_value_error_tac :=
  repeat first
    [ solve [auto with nve]
    | apply nve_bind; [|intros ?]
    | apply nve_lift
    | apply pnve_obind; [|intros ?]
    | match goal with
      | |- plain_no_value_error (if ?b then _ else _) => destruct b
      end ].

(** The required field [section.field] is present, in the words of the
    specification. *)
Definition has_field (section field : string) (d : list (string * yaml)) : bool :=
  match PyDict.get section d with
  | Some (YDict s) => PyDict.in_ field s
  | _ => false
  end.

(** The descriptor has the three required fields. *)
Definition has_required_fields (d : list (string * yaml)) : bool :=
  PyDict.in_ "name" d && has_field "summary" "path" d && has_field "checkpoint" "path" d.

(** The field is present and its value is true for Python: not empty, not
    null, not zero (lines 129 and 132 test [not ...get('path', None)]). *)
Definition has_true_field (section field : string) (d : list (string * yaml)) : bool :=
  match PyDict.get section d with
  | Some (YDict s) =>
      match PyDict.get field s with
      | Some v => truthy v
      | None => false
      end
  | _ => false
  end.

(** The entries [summary] and [checkpoint] of the descriptor are mappings,
    as the data model has them. *)
Definition sections_are_mappings (d : list (string * yaml)) : Prop :=
  forall k v,
    k = "summary"%string \/ k = "checkpoint"%string ->
    PyDict.get k d = Some v -> exists s, v = YDict s.

Lemma section_path d k :
  sections_are_mappings d ->
  k = "summary"%string \/ k = "checkpoint"%string ->
  exists s v,
    get_default (YDict d) k (YDict []) = Returned (YDict s) /\
    get_default (YDict s) "path" YNull = Returned v /\
    truthy v = has_true_field k "path" d.
Proof.
  intros Hwf Hk. unfold has_true_field, get_default.
  destruct (PyDict.get k d) as [v|] eqn:Hg.
  - destruct (Hwf k v Hk Hg) as [s ->]. exists s.
    destruct (PyDict.get "path" s) as [x|] eqn:Hp.
    + exists x. repeat split.
    + exists YNull. repeat split.
  - exists [], YNull. repeat split.
Qed.

Lemma isfile_of_lookup (fs0 : filesystem Blob) path f :
  lookup path fs0 = Some (File f) -> isfile fs0 path = true.
Proof. unfold isfile. intros ->. reflexivity. Qed.

Lemma load_experiment_value_error path (w : world Blob) d :
  lookup path (fs w) = Some (File (YamlFile (YDict d))) ->
  sections_are_mappings d ->
  (exists msg, fst (load_experiment path w) = Raised (ValueError msg)) <->
  (PyDict.in_ "name" d = false \/
   has_true_field "summary" "path" d = false \/
   has_true_field "checkpoint" "path" d = false).
Proof.
  intros Hfile Hwf.
  destruct (section_path d "summary" Hwf (or_introl eq_refl))
    as [s [sp [Hs [Hsp Hst]]]].
  destruct (section_path d "checkpoint" Hwf (or_intror eq_refl))
    as [c [cp [Hc [Hcp Hct]]]].
  assert (Hpre : forall r w',
             load_experiment path w = (r, w') ->
             (PyDict.in_ "name" d = false /\
              r = Raised (ValueError "An experiment needs a name.")) \/
             (PyDict.in_ "name" d = true /\ truthy sp = false /\
              r = Raised (ValueError "An experiment needs a scribe.")) \/
             (PyDict.in_ "name" d = true /\ truthy sp = true /\ truthy cp = false /\
              r = Raised (ValueError "An experiment needs a dir for checkpoint")) \/
             (PyDict.in_ "name" d = true /\ truthy sp = true /\ truthy cp = true /\
              forall msg, r <> Raised (ValueError msg))).
  { intros r w' H. unfold load_experiment in H.
    unfold bind at 1, get_world at 1 in H.
    rewrite (isfile_of_lookup _ _ _ Hfile) in H. cbn [negb] in H.
    unfold bind at 1, load_yaml at 1, bind at 1, get_world at 1 in H.
    rewrite Hfile in H. unfold ret at 1 in H.
    unfold bind at 1, lift at 1 in H. cbn [contains_name] in H.
    destruct (PyDict.in_ "name" d) eqn:Hname; cbn [negb] in H.
    2:{ left. unfold raise in H. injection H as <- _. split; reflexivity. }
    right.
    unfold bind at 1, lift at 1 in H. rewrite Hs in H.
    unfold bind at 1, lift at 1 in H. rewrite Hsp in H.
    destruct (truthy sp) eqn:Hspt; cbn [negb] in H.
    2:{ left. unfold raise in H. injection H as <- _. repeat split. }
    right.
    unfold bind at 1, lift at 1 in H. rewrite Hc in H.
    unfold bind at 1, lift at 1 in H. rewrite Hcp in H.
    destruct (truthy cp) eqn:Hcpt; cbn [negb] in H.
    2:{ left. unfold raise in H. injection H as <- _. repeat split. }
    right. split; [reflexivity|]. split; [reflexivity|]. split; [reflexivity|].
    match type of H with
    | ?m w = _ => assert (Hn : no_value_error m); [|exact (Hn _ _ _ H)]
    end.
    no_value_error_tac. }
  destruct (load_experiment path w) as [r w'] eqn:Hrun. simpl.
  specialize (Hpre r w' eq_refl). rewrite <- Hst, <- Hct.
  destruct Hpre as [[Hn ->] | [[Hn [Ht ->]] | [[Hn [Ht [Ht' ->]]] | [Hn [Ht [Ht' Hr]]]]]].
  - split; [auto | intros _; eexists; reflexivity].
  - split; [auto | intros _; eexists; reflexivity].
  - split; [auto | intros _; eexists; reflexivity].
  - split.
    + intros [msg Hmsg]. exfalso. exact (Hr msg Hmsg).
    + intros [H | [H | H]]; congruence.
Qed.

Lemma get_resolved_entries (f : key -> yaml -> yaml) k d :
  PyDict.get k (map (fun kv : string * yaml => (fst kv, f (KStr (fst kv)) (snd kv))) d)
  = option_map (f (KStr k)) (PyDict.get k d).
Proof.
  induction d as [|[k' v] d IH]; simpl; [reflexivity|].
  destruct (k' =? k)%string eqn:E; [|exact IH].
  apply String.eqb_eq in E. subst k'. reflexivity.
Qed.

Lemma resolve_experiment_keeps_int experiment name experiment' k i :
  resolve_experiment experiment name = Returned experiment' ->
  subscript experiment k = Returned (YInt i) ->
  subscript experiment' k = Returned (YInt i).
Proof.
  unfold resolve_experiment, resolve_strings. intros Hr Hk.
  destruct experiment as [| | | | |items|d]; simpl in Hk; try discriminate.
  destruct (PyDict.get k d) as [v|] eqn:Hg; [|discriminate].
  injection Hk as ->.
  destruct name;
    try (destruct (has_string_item (YDict d)); [discriminate|];
         injection Hr as <-; simpl; rewrite Hg; reflexivity).
  injection Hr as <-. simpl. rewrite get_resolved_entries, Hg. reflexivity.
Qed.

Lemma load_experiment_default_step path (w : world Blob) d ctx w' :
  lookup path (fs w) = Some (File (YamlFile (YDict d))) ->
  load_experiment path w = (Returned ctx, w') ->
  PyDict.in_ "global_step" d = false ->
  ctx_global_step ctx = YInt 0 /\
  subscript (ctx_experiment ctx) "global_step" = Returned (YInt 0).
Proof.
  intros Hfile H Habsent. unfold load_experiment in H.
  apply bind_inv in H as [[w0 [w1 [Hw H]]] | [e [_ Habs]]]; [|discriminate].
  unfold get_world in Hw. injection Hw as <- <-.
  destruct (negb (isfile (fs w) path)); [discriminate|].
  step_bind H experiment w2 Hload.
  unfold load_yaml, bind, get_world in Hload. rewrite Hfile in Hload.
  unfold ret in Hload. injection Hload as <- <-.
  step_lift H has_name Hn.
  destruct (negb has_name); [discriminate|].
  step_lift H summary Hs. step_lift H sp Hsp.
  destruct (negb (truthy sp)); [discriminate|].
  step_lift H checkpoint Hcp. step_lift H cp Hcpp.
  destruct (negb (truthy cp)); [discriminate|].
  step_lift H has_step Hhs. simpl in Hhs. rewrite Habsent in Hhs.
  injection Hhs as <-.
  step_lift H e1 He1. step_lift H name Hname.
  step_lift H e2 He2. step_lift H cdir Hcdir.
  step_bind H u1 w3 Hmk. step_lift H sdir Hsdir.
  step_bind H u2 w4 Hcw. step_lift H lname Hln. step_lift H strat Hst.
  step_lift H step Hstep.
  step_bind H u3 w5 Hl1. step_bind H u4 w6 Hl2. step_bind H u5 w7 Hl3.
  unfold ret in H. injection H as <- _. simpl.
  pose proof (resolve_experiment_keeps_int _ _ _ "global_step" 0 He2
                (subscript_assign_same _ _ _ _ He1)) as Hzero.
  rewrite Hzero in Hstep. injection Hstep as <-. split; [reflexivity | exact Hzero].
Qed.

Lemma load_experiment_invalid_path path (w : world Blob) :
  isfile (fs w) path = false ->
  load_experiment path w
  = (Raised (ValueError ("Invalid experiment path: " ++ path)%string), w).
Proof.
  intros H. unfold load_experiment, bind, get_world. rewrite H. reflexivity.
Qed.

(** The entry [section] of the descriptor gives no path: it is absent, or
    it is a mapping whose [path] is absent or false for Python. An entry
    that is no mapping is neither this nor [has_true_field]. *)
Definition lacks_true_path (section : string) (d : list (string * yaml)) : bool :=
  match PyDict.get section d with
  | None => true
  | Some (YDict s) =>
      match PyDict.get "path" s with
      | Some v => negb (truthy v)
      | None => true
      end
  | Some _ => false
  end.

(** The entry [section] is present and is no mapping. *)
Definition no_mapping (section : string) (d : list (string * yaml)) : bool :=
  match PyDict.get section d with
  | Some (YDict _) | None => false
  | Some _ => true
  end.

(** The documents the amended claim says are refused with the
    [ValueError]: those without a name (no key, no item, no substring
    [name]), and the mappings with a name whose [summary] gives no path, or
    whose [summary.path] is true and whose [checkpoint] gives no path. *)
Definition refused (document : yaml) : bool :=
  match document with
  | YDict d =>
      negb (PyDict.in_ "name" d)
      || lacks_true_path "summary" d
      || (has_true_field "summary" "path" d && lacks_true_path "checkpoint" d)
  | YList l =>
      negb (existsb (fun v => match v with
                              | YStr s => (s =? "name")%string
                              | _ => false
                              end) l)
  | YStr s => negb (PyStr.contains "name" s)
  | _ => false
  end.

(** The checks of lines 126-133 decide the outcome in their order; past
    them no [ValueError] is raised. *)
Lemma load_experiment_checks path (w : world Blob) document r w' :
  lookup path (fs w) = Some (File (YamlFile document)) ->
  load_experiment path w = (r, w') ->
  match contains_name document "name" with
  | Raised e => r = Raised e
  | Returned false => r = Raised (ValueError "An experiment needs a name.")
  | Returned true =>
      match (s <-- get_default document "summary" (YDict []) ;;
             get_default s "path" YNull) with
      | Raised e => r = Raised e
      | Returned sp =>
          if truthy sp then
            match (c <-- get_default document "checkpoint" (YDict []) ;;
                   get_default c "path" YNull) with
            | Raised e => r = Raised e
            | Returned cp =>
                if truthy cp then forall msg, r <> Raised (ValueError msg)
                else r = Raised (ValueError "An experiment needs a dir for checkpoint")
            end
          else r = Raised (ValueError "An experiment needs a scribe.")
      end
  end.
Proof.
  intros Hfile H. unfold load_experiment in H.
  unfold bind at 1, get_world at 1 in H.
  rewrite (isfile_of_lookup _ _ _ Hfile) in H. cbn [negb] in H.
  unfold bind at 1, load_yaml at 1, bind at 1, get_world at 1 in H.
  rewrite Hfile in H. unfold ret at 1 in H.
  unfold bind at 1, lift at 1 in H.
  destruct (contains_name document "name") as [[|]|e] eqn:Hname; cbn [negb] in H.
  2:{ unfold raise in H. injection H as <- _. reflexivity. }
  2:{ injection H as <- _. reflexivity. }
  unfold bind at 1, lift at 1 in H.
  destruct (get_default document "summary" (YDict [])) as [s|e] eqn:Hs; cbn [obind].
  2:{ injection H as <- _. reflexivity. }
  unfold bind at 1, lift at 1 in H.
  destruct (get_default s "path" YNull) as [sp|e] eqn:Hsp.
  2:{ injection H as <- _. reflexivity. }
  destruct (truthy sp) eqn:Hspt; cbn [negb] in H.
  2:{ unfold raise in H. injection H as <- _. reflexivity. }
  unfold bind at 1, lift at 1 in H.
  destruct (get_default document "checkpoint" (YDict [])) as [c|e] eqn:Hc; cbn [obind].
  2:{ injection H as <- _. reflexivity. }
  unfold bind at 1, lift at 1 in H.
  destruct (get_default c "path" YNull) as [cp|e] eqn:Hcp.
  2:{ injection H as <- _. reflexivity. }
  destruct (truthy cp) eqn:Hcpt; cbn [negb] in H.
  2:{ unfold raise in H. injection H as <- _. reflexivity. }
  match type of H with
  | ?m w = _ => assert (Hn : no_value_error m); [|exact (Hn _ _ _ H)]
  end.
  no_value_error_tac.
Qed.

(** A file that holds a document is refused with the [ValueError] exactly
    when the document is one the amended claim names. *)
Lemma load_experiment_refuses path (w : world Blob) document :
  lookup path (fs w) = Some (File (YamlFile document)) ->
  (exists msg, fst (load_experiment path w) = Raised (ValueError msg)) <->
  refused document = true.
Proof.
  intros Hfile.
  destruct (load_experiment path w) as [r w'] eqn:Hrun. simpl.
  pose proof (load_experiment_checks _ _ _ _ _ Hfile Hrun) as Hchk.
  destruct document as [|b|i|f|s|l|d]; simpl in Hchk |- *;
    try (subst r; split; [intros [msg Hmsg]; discriminate Hmsg | discriminate]).
  - destruct (PyStr.contains "name" s); simpl; subst r.
    + split; [intros [msg Hmsg]; discriminate Hmsg | discriminate].
    + split; [reflexivity | intros _; eexists; reflexivity].
  - destruct (existsb _ l); simpl; subst r.
    + split; [intros [msg Hmsg]; discriminate Hmsg | discriminate].
    + split; [reflexivity | intros _; eexists; reflexivity].
  - unfold lacks_true_path, has_true_field.
    destruct (PyDict.in_ "name" d); simpl.
    2:{ subst r. split; [reflexivity | intros _; eexists; reflexivity]. }
    assert (Hyes : forall msg : string,
               (exists msg', Raised (A := context) (ValueError msg) = Raised (ValueError msg'))
               <-> true = true)
      by (intros msg; split; [reflexivity | intros _; eexists; reflexivity]).
    assert (Hno : (forall msg, r <> Raised (ValueError msg)) ->
                  (exists msg, r = Raised (ValueError msg)) <-> false = true).
    { intros Hr. split; [intros [msg Hmsg]; exfalso; exact (Hr msg Hmsg) | discriminate]. }
    assert (Hattr : (exists msg, Raised (A := context) AttributeError = Raised (ValueError msg))
                    <-> false = true)
      by (split; [intros [msg Hmsg]; discriminate Hmsg | discriminate]).
    destruct (PyDict.get "summary" d) as [[| | | | | |s]|]; simpl in Hchk;
      try (subst r; exact Hattr).
    + destruct (PyDict.get "path" s) as [sp|]; simpl in Hchk;
        [destruct (truthy sp); simpl|]; try (subst r; apply Hyes).
      destruct (PyDict.get "checkpoint" d) as [[| | | | | |c]|]; simpl in Hchk;
        try (subst r; exact Hattr); try (subst r; apply Hyes).
      destruct (PyDict.get "path" c) as [cp|]; simpl in Hchk;
        [destruct (truthy cp); simpl|]; try (subst r; apply Hyes).
      apply Hno. exact Hchk.
    + subst r. apply Hyes.
Qed.

(** A section that is present and is no mapping stops [load_experiment]
    with the [AttributeError] of [.get], whatever else the descriptor
    holds after it. *)
Lemma load_experiment_no_mapping path (w : world Blob) d :
  lookup path (fs w) = Some (File (YamlFile (YDict d))) ->
  PyDict.in_ "name" d = true ->
  no_mapping "summary" d = true \/
  (has_true_field "summary" "path" d = true /\ no_mapping "checkpoint" d = true) ->
  fst (load_experiment path w) = Raised AttributeError.
Proof.
  intros Hfile Hname Hcase.
  destruct (load_experiment path w) as [r w'] eqn:Hrun. simpl.
  pose proof (load_experiment_checks _ _ _ _ _ Hfile Hrun) as Hchk.
  simpl in Hchk. rewrite Hname in Hchk.
  unfold no_mapping, has_true_field in Hcase.
  destruct Hcase as [Hs | [Hs Hc]].
  - destruct (PyDict.get "summary" d) as [[| | | | | |s]|]; simpl in Hchk;
      try discriminate Hs; exact Hchk.
  - destruct (PyDict.get "summary" d) as [[| | | | | |s]|]; try discriminate Hs.
    simpl in Hchk.
    destruct (PyDict.get "path" s) as [sp|]; [|discriminate Hs].
    rewrite Hs in Hchk.
    destruct (PyDict.get "checkpoint" d) as [[| | | | | |c]|]; simpl in Hchk;
      try discriminate Hc; exact Hchk.
Qed.

(** A path that names a file of another kind is refused by the parser, not
    with the [ValueError]. *)
Lemma load_experiment_no_document path (w : world Blob) :
  isfile (fs w) path = true ->
  (forall document, lookup path (fs w) <> Some (File (YamlFile document))) ->
  load_experiment path w = (Raised (OSError path), w).
Proof.
  intros Hfile Hnone. unfold load_experiment.
  unfold bind at 1, get_world at 1. rewrite Hfile. cbn [negb].
  unfold bind at 1, load_yaml at 1, bind at 1, get_world at 1.
  destruct (lookup path (fs w)) as [[[document| |]|]|] eqn:Hl; try reflexivity.
  exfalso. exact (Hnone document eq_refl).
Qed.

(** A document that is no mapping and is not refused for its name stops
    [load_experiment] at the test of the name, which a scalar does not
    support, or at the first [.get], which a list or a string does not
    have. *)
Lemma load_experiment_no_descriptor path (w : world Blob) document :
  lookup path (fs w) = Some (File (YamlFile document)) ->
  match document with
  | YDict _ => True
  | YList _ | YStr _ =>
      refused document = false ->
      fst (load_experiment path w) = Raised AttributeError
  | _ => fst (load_experiment path w) = Raised TypeError
  end.
Proof.
  intros Hfile.
  destruct (load_experiment path w) as [r w'] eqn:Hrun. simpl.
  pose proof (load_experiment_checks _ _ _ _ _ Hfile Hrun) as Hchk.
  destruct document as [|b|i|f|s|l|d]; simpl in Hchk |- *; try exact Hchk; try exact I.
  - intros Hr. apply negb_false_iff in Hr. rewrite Hr in Hchk. exact Hchk.
  - intros Hr. apply negb_false_iff in Hr. rewrite Hr in Hchk. exact Hchk.
Qed.

(** C8 (amended). [load_experiment] raises its [ValueError] exactly when the
    path is no file, or the file holds a document without a name, or a
    mapping with a name whose [summary] entry is absent or is a mapping
    whose [path] is absent or false for Python (empty, null, zero), or one
    whose [summary.path] is true and whose [checkpoint] entry is absent or
    such a mapping. A [summary] or [checkpoint] entry that is present and is
    no mapping is not refused with the [ValueError]: the call stops with the
    [AttributeError] of [.get], as it does on a list or a string that
    contains the name; on an empty or scalar document it stops with the
    [TypeError] of [in]. For a descriptor whose two entries are mappings
    this reads: [name] is absent, or [summary.path] or [checkpoint.path] is
    absent or false. When the call returns and the descriptor had no
    [global_step], the step of the session and of its descriptor is 0. *)
Theorem load_experiment_validates_descriptor :
  forall path (w : world Blob),
    (isfile (fs w) path = false ->
     load_experiment path w
     = (Raised (ValueError ("Invalid experiment path: " ++ path)%string), w)) /\
    ((exists msg, fst (load_experiment path w) = Raised (ValueError msg)) <->
     (isfile (fs w) path = false \/
      exists document,
        lookup path (fs w) = Some (File (YamlFile document)) /\
        refused document = true)) /\
    (forall d,
       lookup path (fs w) = Some (File (YamlFile (YDict d))) ->
       PyDict.in_ "name" d = true ->
       no_mapping "summary" d = true \/
       (has_true_field "summary" "path" d = true /\ no_mapping "checkpoint" d = true) ->
       fst (load_experiment path w) = Raised AttributeError) /\
    (forall document,
       lookup path (fs w) = Some (File (YamlFile document)) ->
       match document with
       | YDict _ => True
       | YList _ | YStr _ =>
           refused document = false ->
           fst (load_experiment path w) = Raised AttributeError
       | _ => fst (load_experiment path w) = Raised TypeError
       end) /\
    (forall d,
       lookup path (fs w) = Some (File (YamlFile (YDict d))) ->
       sections_are_mappings d ->
       ((exists msg, fst (load_experiment path w) = Raised (ValueError msg)) <->
        (PyDict.in_ "name" d = false \/
         has_true_field "summary" "path" d = false \/
         has_true_field "checkpoint" "path" d = false))) /\
    (forall d ctx w',
       lookup path (fs w) = Some (File (YamlFile (YDict d))) ->
       load_experiment path w = (Returned ctx, w') ->
       PyDict.in_ "global_step" d = false ->
       ctx_global_step ctx = YInt 0 /\
       subscript (ctx_experiment ctx) "global_step" = Returned (YInt 0)).
Proof.
  intros path w. split; [apply load_experiment_invalid_path|].
  split; [|split; [|split; [|split]]].
  - destruct (isfile (fs w) path) eqn:Hfile.
    + pose proof Hfile as Hnode. unfold isfile in Hnode.
      destruct (lookup path (fs w)) as [[[document| |]|]|] eqn:Hl; try discriminate Hnode.
      * rewrite (load_experiment_refuses _ _ _ Hl). split.
        -- intros Hr. right. exists document. split; [reflexivity | exact Hr].
        -- intros [Habs | [document' [Hd Hr]]]; [discriminate Habs|].
           injection Hd as <-. exact Hr.
      * rewrite load_experiment_no_document;
          [|exact Hfile | intros document; rewrite Hl; discriminate].
        split; [intros [msg Hmsg]; discriminate Hmsg|].
        intros [Habs | [document [Hd _]]]; [discriminate Habs|].
        discriminate Hd.
      * rewrite load_experiment_no_document;
          [|exact Hfile | intros document; rewrite Hl; discriminate].
        split; [intros [msg Hmsg]; discriminate Hmsg|].
        intros [Habs | [document [Hd _]]]; [discriminate Habs|].
        discriminate Hd.
    + rewrite (load_experiment_invalid_path _ _ Hfile). simpl.
      split; [intros _; left; reflexivity | intros _; eexists; reflexivity].
  - intros d. apply load_experiment_no_mapping.
  - intros document. apply load_experiment_no_descriptor.
  - intros d. apply load_experiment_value_error.
  - intros d ctx w'. apply load_experiment_default_step.
Qed.

(** ** The training adapter *)

(** The tuples the replicas of a strategy receive from a batch. *)
Definition replica_tuples (s : strategy) (data : batch) : option (list (list Tensor)) :=
  match s, data with
  | OneDeviceStrategy _, Local t => Some [t]
  | OneDeviceStrategy _, PerReplica _ => None
  | MirroredStrategy _, PerReplica ts => Some ts
  | MirroredStrategy devices, Local t => Some (map (fun _ => t) devices)
  end.

(** The mean of a list of real numbers. *)
Definition Qmean (l : list Q) : Q := (Qsum l / inject_Z (Z.of_nat (List.length l)))%Q.

(** The counters of a strategy's replicas agree on [i]. *)
Definition in_step (x : distributed Z) (i : Z) : Prop :=
  match x with
  | Local a => a = i
  | PerReplica values => values <> [] /\ Forall (fun a => a = i) values
  end.

Lemma omap_map {A B} (f : A -> outcome B) (g : A -> B) l :
  Forall (fun a => f a = Returned (g a)) l -> omap f l = Returned (map g l).
Proof.
  induction 1 as [|a l Ha _ IH]; simpl; [reflexivity|].
  rewrite Ha. simpl. rewrite IH. reflexivity.
Qed.

Lemma omap_Forall2 {A B} (f : A -> outcome B) l l' :
  Forall2 (fun a b => f a = Returned b) l l' -> omap f l = Returned l'.
Proof.
  induction 1 as [|a b l l' Ha _ IH]; simpl; [reflexivity|].
  rewrite Ha. simpl. rewrite IH. reflexivity.
Qed.

Lemma Zsum_constant i values :
  Forall (fun a => a = i) values -> Zsum values = i * Z.of_nat (List.length values).
Proof.
  induction 1 as [|a l Ha _ IH]; [simpl; lia|].
  cbn [Zsum fold_right List.length]. fold (Zsum l). rewrite IH, Ha. lia.
Qed.

Lemma reduce_mean_int_in_step x i : in_step x i -> reduce_mean_int x = i.
Proof.
  destruct x as [a | values]; simpl; [auto|].
  intros [Hne Hall]. rewrite (Zsum_constant i values Hall).
  apply Z.div_mul. destruct values; [contradiction | simpl; lia].
Qed.

Lemma in_step_update x i : in_step x i -> in_step (dmap (fun a => a + 1) x) (i + 1).
Proof.
  destruct x as [a | values]; simpl; [intros ->; reflexivity|].
  intros [Hne Hall]. split.
  - destruct values; [contradiction | discriminate].
  - clear Hne. induction Hall as [|a l Ha _ IH]; simpl; constructor;
      [rewrite Ha; reflexivity | exact IH].
Qed.

Lemma in_step_mirrored s i :
  (0 < num_replicas_in_sync s)%nat -> in_step (mirrored s i) i.
Proof.
  destruct s as [device | devices]; simpl; [reflexivity|].
  intros Hpos. split.
  - destruct devices; [simpl in Hpos; lia | discriminate].
  - clear Hpos. induction devices as [|d ds IH]; simpl; constructor;
      [reflexivity | exact IH].
Qed.

Lemma choose_strategy_replicas g s :
  choose_strategy g = Returned s -> num_replicas_in_sync s = List.length g.
Proof.
  unfold choose_strategy.
  destruct (1 <? List.length g)%nat eqn:E.
  - intros H. injection H as <-. reflexivity.
  - destruct g as [|gpu rest]; [discriminate|].
    intros H. injection H as <-. simpl.
    apply Nat.ltb_ge in E. simpl in E. destruct rest; [reflexivity | simpl in E; lia].
Qed.

Lemma py_index_in_range {A} (l : list A) i :
  - Z.of_nat (List.length l) <= i < Z.of_nat (List.length l) ->
  exists a, py_index l i = Returned a /\
            nth_error l (Z.to_nat (i mod Z.of_nat (List.length l))) = Some a.
Proof.
  intros Hi. unfold py_index.
  set (n := Z.of_nat (List.length l)) in *.
  set (j := if i <? 0 then i + n else i).
  assert (Hj : 0 <= j < n) by (unfold j; destruct (Z.ltb_spec i 0); lia).
  assert (Hmod : i mod n = j).
  { unfold j. destruct (Z.ltb_spec i 0).
    - rewrite <- (Z.mod_small (i + n) n) by lia.
      replace (i + n) with (i + 1 * n) by lia. rewrite Z.mod_add by lia. reflexivity.
    - apply Z.mod_small. lia. }
  destruct (Z.ltb_spec j 0); [lia|]. destruct (Z.leb_spec n j); [lia|]. simpl.
  rewrite Hmod.
  destruct (nth_error l (Z.to_nat j)) as [a|] eqn:E.
  - exists a. split; reflexivity.
  - apply nth_error_None in E. unfold n in Hj. lia.
Qed.

Lemma py_index_out_of_range {A} (l : list A) i :
  ~ (- Z.of_nat (List.length l) <= i < Z.of_nat (List.length l)) ->
  py_index l i = Raised IndexError.
Proof.
  intros Hi. unfold py_index.
  set (n := Z.of_nat (List.length l)) in *.
  destruct (Z.ltb_spec i 0).
  - destruct (Z.ltb_spec (i + n) 0); [reflexivity|].
    destruct (Z.leb_spec n (i + n)); [reflexivity | lia].
  - destruct (Z.ltb_spec i 0); [lia|].
    destruct (Z.leb_spec n i); [reflexivity | lia].
Qed.

(** [n] is the tuple [t] rearranged by [indices], as line 231 builds it:
    as many inputs as indices, the input at a position being the tensor of
    the tuple at the index of that position, which counts from the end when
    it is negative. *)
Definition permuted (indices : list Z) (t n : list Tensor) : Prop :=
  Forall2 (fun i x => nth_error t (Z.to_nat (i mod Z.of_nat (List.length t))) = Some x)
    indices n.

Lemma select_inputs_permutes (indices : list Z) (inputs : list Tensor) :
  Forall (fun i => - Z.of_nat (List.length inputs) <= i < Z.of_nat (List.length inputs))
    indices ->
  exists selected,
    select_inputs (YList (map YInt indices)) inputs = Returned selected /\
    permuted indices inputs selected.
Proof.
  unfold select_inputs, permuted. simpl.
  induction 1 as [|i indices Hi _ IH]; simpl.
  - exists []. split; [reflexivity | constructor].
  - destruct (py_index_in_range inputs i Hi) as [t [Ht Hnth]].
    destruct IH as [selected [Hsel Hall]].
    rewrite Ht. simpl. rewrite Hsel. simpl.
    exists (t :: selected). split; [reflexivity|]. constructor; assumption.
Qed.

Lemma select_inputs_of_tuples (indices : list Z) (tuples : list (list Tensor)) :
  Forall (fun t => Forall (fun i => - Z.of_nat (List.length t) <= i
                                    < Z.of_nat (List.length t)) indices) tuples ->
  exists new_inputs,
    Forall2 (fun t n => select_inputs (YList (map YInt indices)) t = Returned n)
      tuples new_inputs /\
    Forall2 (permuted indices) tuples new_inputs.
Proof.
  induction 1 as [|t tuples Ht _ IH].
  - exists []. split; constructor.
  - destruct (select_inputs_permutes indices t Ht) as [n [Hn Hp]].
    destruct IH as [ns [Hsel Hperm]].
    exists (n :: ns). split; constructor; assumption.
Qed.

Lemma run_train_one_step a w data tuples new_inputs :
  replica_tuples (ta_strategy a) data = Some tuples ->
  Forall2 (fun t n => select_inputs (ta_index_inputs a) t = Returned n) tuples new_inputs ->
  ta_num_replicas a <> 0 ->
  exists results,
    experimental_run_v2 (ta_strategy a) (train_one_step a w) data = Returned results /\
    replica_values results
    = map (fun n => (scaled_loss a n w, tape_gradient (scaled_loss a n) w)) new_inputs.
Proof.
  intros Htuples Hsel Hnum.
  assert (Hone : Forall2 (fun t r => train_one_step a w t = Returned r) tuples
                   (map (fun n => (scaled_loss a n w,
                                   tape_gradient (scaled_loss a n) w)) new_inputs)).
  { clear Htuples.
    induction Hsel as [|t n ts ns Ht _ IH]; simpl; [constructor|].
    constructor; [|exact IH].
    unfold train_one_step. rewrite Ht. simpl.
    destruct (Z.eqb_spec (ta_num_replicas a) 0); [contradiction | reflexivity]. }
  unfold experimental_run_v2.
  destruct (ta_strategy a) as [device | devices] eqn:Hs;
    destruct data as [t | ts]; simpl in Htuples; try discriminate;
    injection Htuples as <-.
  - inversion Hsel as [|t0 n ts0 ns Ht Hrest]; subst. inversion Hrest; subst.
    inversion Hone as [|t0 r ts0 rs Hr _]; subst. rewrite Hr. simpl.
    eexists. split; reflexivity.
  - rewrite (omap_Forall2 _ _ _ Hone). simpl.
    eexists. split; reflexivity.
  - rewrite (omap_Forall2 _ _ _ Hone). simpl.
    eexists. split; reflexivity.
Qed.

Lemma reduce_mean_is_mean x : (reduce_mean x == Qmean (replica_values x))%Q.
Proof.
  destruct x as [a | values]; [|reflexivity].
  unfold Qmean, Qsum. simpl. field.
Qed.

Lemma replica_values_dmap {A B} (f : A -> B) x :
  replica_values (dmap f x) = map f (replica_values x).
Proof. destruct x; reflexivity. Qed.

(** C1. One call of the adapter [build_strategic_training_model] returns, on
    a batch whose tuples the indices of [index_inputs] apply to: every
    replica rearranges its tuple by those indices and computes the loss of
    the model on the rearranged tuple, summed over the elements and scaled
    by [1 / num_replicas] (which [build_models] sets to the number of
    replicas of the strategy); the optimizer applies the replicas'
    gradients in one update and its counter goes up by one on every
    replica; the call returns the mean of the replicas' losses; in the
    session nothing changes but the variables and that optimizer, and the
    world is not touched. *)
Theorem training_adapter_updates_once_and_returns_mean_loss :
  forall (a : training_adapter) (data : batch) (w : Weights) (o : optimizer)
         (tuples : list (list Tensor)) (indices : list Z),
    replica_tuples (ta_strategy a) data = Some tuples ->
    ta_index_inputs a = YList (map YInt indices) ->
    Forall (fun t => Forall (fun i => - Z.of_nat (List.length t) <= i
                                      < Z.of_nat (List.length t)) indices) tuples ->
    ta_num_replicas a <> 0 ->
    exists new_inputs loss,
      Forall2 (permuted indices) tuples new_inputs /\
      train_one_step_in_graph a data w o
      = Returned (loss,
                  apply_gradients o
                    (map (fun n => tape_gradient (scaled_loss a n) w) new_inputs) w,
                  count_update o) /\
      (loss == Qmean (map (fun n => Qsum (ta_base_model a w n)
                                    * (1 / inject_Z (ta_num_replicas a)))
                        new_inputs))%Q /\
      iterations (count_update o) = dmap (fun i => i + 1) (iterations o) /\
      hyper (count_update o) = hyper o /\
      (forall i, in_step (iterations o) i ->
         in_step (iterations (count_update o)) (i + 1) /\
         reduce_mean_int (iterations (count_update o))
         = reduce_mean_int (iterations o) + 1) /\
      (forall g, choose_strategy g = Returned (ta_strategy a) ->
         ta_num_replicas a = Z.of_nat (List.length g) ->
         ta_num_replicas a = Z.of_nat (num_replicas_in_sync (ta_strategy a))) /\
      (forall ctx m optimizers,
         ctx_models ctx = Some m -> weights m = w ->
         ctx_optimizers ctx = Some optimizers ->
         PyDict.get (ta_optimizer a) optimizers = Some o ->
         exists ctx',
           call_training_adapter a data ctx = Returned (loss, ctx') /\
           ctx_experiment ctx' = ctx_experiment ctx /\
           ctx_strategy ctx' = ctx_strategy ctx /\
           ctx_global_step ctx' = ctx_global_step ctx /\
           ctx_datasets ctx' = ctx_datasets ctx /\
           ctx_models ctx'
           = Some (set_weights m
                     (apply_gradients o
                        (map (fun n => tape_gradient (scaled_loss a n) w) new_inputs) w)) /\
           ctx_optimizers ctx'
           = Some (PyDict.set (ta_optimizer a) (count_update o) optimizers) /\
           (forall k, k <> ta_optimizer a ->
              PyDict.get k (PyDict.set (ta_optimizer a) (count_update o) optimizers)
              = PyDict.get k optimizers)).
Proof.
  intros a data w o tuples indices Htuples Hindices Hrange Hnum.
  destruct (select_inputs_of_tuples indices tuples Hrange) as [new_inputs [Hsel Hperm]].
  rewrite <- Hindices in Hsel.
  destruct (run_train_one_step a w data tuples new_inputs Htuples Hsel Hnum)
    as [results [Hrun Hvalues]].
  assert (Hcall : train_one_step_in_graph a data w o
                  = Returned (reduce_mean (dmap fst results),
                              apply_gradients o
                                (map (fun n => tape_gradient (scaled_loss a n) w)
                                   new_inputs) w,
                              count_update o)).
  { unfold train_one_step_in_graph. rewrite Hrun. simpl.
    rewrite Hvalues, map_map. reflexivity. }
  exists new_inputs, (reduce_mean (dmap fst results)).
  split; [exact Hperm|].
  split; [exact Hcall|]. split.
  { rewrite reduce_mean_is_mean, replica_values_dmap, Hvalues, map_map.
    reflexivity. }
  split; [reflexivity|]. split; [reflexivity|]. split.
  { intros i Hi. split; [apply in_step_update; exact Hi|].
    rewrite (reduce_mean_int_in_step _ _ Hi).
    apply reduce_mean_int_in_step. apply (in_step_update _ _ Hi). }
  split.
  { intros g Hg Hn. rewrite (choose_strategy_replicas _ _ Hg). exact Hn. }
  intros ctx m optimizers Hm Hw Ho Hget.
  eexists. split.
  { unfold call_training_adapter, lookup_key. rewrite Hm, Ho. simpl.
    rewrite Hget. simpl. rewrite Hw, Hcall. simpl. reflexivity. }
  simpl. repeat split.
  intros k Hk. apply get_set_other. exact Hk.
Qed.

(** ** The validation adapter *)



Lemma gather_regroup (x : distributed (Tensor * Tensor)) :
  gather (regroup x)
  = Returned (match x with
              | Local p => p
              | PerReplica values => (concat (map fst values), concat (map snd values))
              end).
Proof. destruct x as [[a b] | values]; reflexivity. Qed.


(** ** The updates made while the models are built *)

(** The dataset an optimizer of the descriptor is bound to. *)
Definition bound_dataset (config : yaml) : outcome yaml :=
  d <-- subscript config "dataset" ;; subscript d "name".

Lemma build_optimizer_fresh s config o :
  build_optimizer s config = Returned o -> iterations o = mirrored s 0.
Proof.
  unfold build_optimizer. intros H.
  apply obind_inv in H as [kind [_ H]].
  apply obind_inv in H as [kind' [_ H]].
  apply obind_inv in H as [has_rate [_ H]].
  apply obind_inv in H as [oc [_ H]].
  apply obind_inv in H as [given [_ H]].
  destruct (kind' =? "adam")%string; [|discriminate].
  unfold from_config in H.
  destruct (if truthy given then given else oc); try discriminate.
  injection H as <-. reflexivity.
Qed.

Lemma train_one_step_in_graph_counts a data w o loss w' o' :
  train_one_step_in_graph a data w o = Returned (loss, w', o') -> o' = count_update o.
Proof.
  unfold train_one_step_in_graph. intros H.
  apply obind_inv in H as [results [_ H]]. injection H as _ _ <-. reflexivity.
Qed.

Lemma build_optimizer_unit_inv num_gpus ctx item ctx' :
  build_optimizer_unit num_gpus ctx item = Returned ctx' ->
  exists datasets optimizers dn b rest o,
    ctx_datasets ctx = Some datasets /\
    ctx_optimizers ctx = Some optimizers /\
    bound_dataset (snd item) = Returned (YStr dn) /\
    PyDict.get dn datasets = Some (b :: rest) /\
    build_optimizer (ctx_strategy ctx) (snd item) = Returned o /\
    ctx_datasets ctx' = Some (PyDict.set dn rest datasets) /\
    ctx_optimizers ctx'
    = Some (PyDict.set (fst item) (count_update o)
              (PyDict.set (fst item) o optimizers)) /\
    same_descriptor ctx ctx'.
Proof.
  unfold build_optimizer_unit. intros H.
  apply obind_inv in H as [m [Hm H]].
  apply obind_inv in H as [model_name [Hmn H]].
  apply obind_inv in H as [model [Hmodel H]].
  apply obind_inv in H as [datasets [Hds H]].
  apply obind_inv in H as [dataset_name [Hdn H]].
  apply obind_inv in H as [dataset [Hd H]].
  apply obind_inv in H as [o [Ho H]].
  apply obind_inv in H as [optimizers [Hos H]].
  apply obind_inv in H as [index_inputs [Hii H]].
  apply obind_inv in H as [[b ctx1] [Hnext H]].
  apply obind_inv in H as [[loss ctx2] [Hcall H]].
  apply obind_inv in H as [m2 [Hm2 H]].
  apply obind_inv in H as [model_key [Hkey H]].
  injection H as <-.
  destruct (ctx_datasets ctx) as [ds|] eqn:Hcd; [|discriminate].
  simpl in Hds. injection Hds as ->.
  destruct (ctx_optimizers ctx) as [os|] eqn:Hco; [|discriminate].
  simpl in Hos. injection Hos as ->.
  apply next_batch_inv in Hnext as [dn [datasets' [rest [-> [Hds' [Hget ->]]]]]].
  simpl in Hds'. rewrite Hcd in Hds'. injection Hds' as <-.
  simpl in Hcall.
  apply call_training_adapter_inv in Hcall
    as [m3 [os3 [o3 [w3 [o3' [Hm3 [Hos3 [Hget3 [Hrun ->]]]]]]]]].
  simpl in Hos3. injection Hos3 as <-.
  simpl in Hget3. rewrite get_set_same in Hget3. injection Hget3 as <-.
  apply train_one_step_in_graph_counts in Hrun. subst o3'.
  exists datasets, optimizers, dn, b, rest, o.
  simpl. repeat split; try assumption; reflexivity.
Qed.

(** How many of the optimizers [configs] are bound to the dataset [n]. *)
Definition count_bound (n : string) (configs : list (string * yaml)) : nat :=
  List.length
    (filter (fun item => match bound_dataset (snd item) with
                         | Returned (YStr dn) => (dn =? n)%string
                         | _ => false
                         end) configs).

(** Every optimizer of the session has made exactly one update. *)
Definition all_at_one (optimizers : list (string * optimizer)) : Prop :=
  Forall (fun e => in_step (iterations (snd e)) 1) optimizers.

Lemma set_set {A} k (v v' : A) d :
  PyDict.set k v' (PyDict.set k v d) = PyDict.set k v' d.
Proof.
  induction d as [|[k0 v0] d IH]; simpl.
  - rewrite String.eqb_refl. reflexivity.
  - destruct (k0 =? k)%string eqn:E; simpl.
    + rewrite String.eqb_refl. reflexivity.
    + rewrite E, IH. reflexivity.
Qed.

Lemma Forall_set {A} (P : string * A -> Prop) k v d :
  P (k, v) -> Forall P d -> Forall P (PyDict.set k v d).
Proof.
  intros Hv. induction 1 as [|[k0 v0] d H0 Hd IH]; simpl.
  - constructor; [exact Hv | constructor].
  - destruct (k0 =? k)%string; constructor; assumption.
Qed.

Lemma get_In {A} k (v : A) d : PyDict.get k d = Some v -> In (k, v) d.
Proof.
  induction d as [|[k0 v0] d IH]; simpl; [discriminate|].
  destruct (k0 =? k)%string eqn:E.
  - apply String.eqb_eq in E. subst. intros H. injection H as <-. left. reflexivity.
  - intros H. right. apply IH. exact H.
Qed.

Lemma get_set_cases {A} k k' (v : A) d :
  PyDict.get k (PyDict.set k' v d) = if (k' =? k)%string then Some v else PyDict.get k d.
Proof.
  destruct (k' =? k)%string eqn:E.
  - apply String.eqb_eq in E. subst. apply get_set_same.
  - apply get_set_other. intros ->. rewrite String.eqb_refl in E. discriminate.
Qed.

Lemma build_optimizers_invariant num_gpus :
  forall configs ctx ctx' datasets optimizers,
    ofold (build_optimizer_unit num_gpus) configs ctx = Returned ctx' ->
    ctx_datasets ctx = Some datasets ->
    ctx_optimizers ctx = Some optimizers ->
    (0 < num_replicas_in_sync (ctx_strategy ctx))%nat ->
    all_at_one optimizers ->
    same_descriptor ctx ctx' /\
    exists datasets' optimizers',
      ctx_datasets ctx' = Some datasets' /\
      ctx_optimizers ctx' = Some optimizers' /\
      all_at_one optimizers' /\
      (forall item, In item configs -> PyDict.in_ (fst item) optimizers' = true) /\
      (forall k, PyDict.in_ k optimizers = true -> PyDict.in_ k optimizers' = true) /\
      (forall n batches,
         PyDict.get n datasets = Some batches ->
         (count_bound n configs <= List.length batches)%nat /\
         PyDict.get n datasets' = Some (skipn (count_bound n configs) batches)).
Proof.
  induction configs as [|item configs IH];
    intros ctx ctx' datasets optimizers H Hds Hos Hpos Hall; simpl in H.
  - injection H as <-. split; [apply same_descriptor_refl|].
    exists datasets, optimizers.
    split; [exact Hds|]. split; [exact Hos|]. split; [exact Hall|].
    split; [intros item []|]. split; [auto|].
    intros n batches Hn. split; [unfold count_bound; simpl; lia | exact Hn].
  - apply obind_inv in H as [ctx1 [Hone H]].
    apply build_optimizer_unit_inv in Hone
      as [ds [os [dn [b [rest [o [Hds1 [Hos1 [Hbound [Hget [Hbuild
          [Hds' [Hos' Hsame]]]]]]]]]]]]].
    rewrite Hds in Hds1. injection Hds1 as <-.
    rewrite Hos in Hos1. injection Hos1 as <-.
    assert (Hstrategy : ctx_strategy ctx1 = ctx_strategy ctx) by apply Hsame.
    assert (Hall1 : all_at_one (PyDict.set (fst item) (count_update o)
                                  (PyDict.set (fst item) o optimizers))).
    { rewrite set_set. apply Forall_set; [|exact Hall]. simpl.
      rewrite (build_optimizer_fresh _ _ _ Hbuild).
      apply (in_step_update _ 0). apply in_step_mirrored. exact Hpos. }
    rewrite <- Hstrategy in Hpos.
    destruct (IH _ _ _ _ H Hds' Hos' Hpos Hall1)
      as [Hsame' [datasets' [optimizers' [Hd' [Ho' [Hall' [Hin [Hmono Hcount]]]]]]]].
    split; [eapply same_descriptor_trans; eassumption|].
    exists datasets', optimizers'.
    split; [exact Hd'|]. split; [exact Ho'|]. split; [exact Hall'|].
    split; [|split].
    + intros item' [<- | Hin']; [|apply Hin; exact Hin'].
      apply Hmono. unfold PyDict.in_. rewrite get_set_same. reflexivity.
    + intros k Hk. apply Hmono. unfold PyDict.in_ in *.
      rewrite !get_set_cases. destruct (fst item =? k)%string; [reflexivity | exact Hk].
    + intros n batches Hn. unfold count_bound. simpl. rewrite Hbound.
      destruct (dn =? n)%string eqn:E.
      * apply String.eqb_eq in E. subst n. rewrite Hget in Hn. injection Hn as <-.
        destruct (Hcount dn rest) as [Hle Hrest]; [apply get_set_same|].
        simpl. split; [unfold count_bound in Hle; lia | exact Hrest].
      * apply Hcount. rewrite get_set_other; [exact Hn|].
        intros ->. rewrite String.eqb_refl in E. discriminate.
Qed.

(** What the loops over the validators and the weight files leave alone. *)
Definition same_training_state (ctx ctx' : context) : Prop :=
  same_descriptor ctx ctx' /\
  ctx_datasets ctx' = ctx_datasets ctx /\
  ctx_optimizers ctx' = ctx_optimizers ctx.

Lemma ofold_keeps {A} (body : context -> A -> outcome context)
  (P : context -> context -> Prop) :
  (forall ctx, P ctx ctx) ->
  (forall a b c, P a b -> P b c -> P a c) ->
  (forall ctx a ctx', body ctx a = Returned ctx' -> P ctx ctx') ->
  forall l ctx ctx', ofold body l ctx = Returned ctx' -> P ctx ctx'.
Proof.
  intros Hrefl Htrans Hbody.
  induction l as [|a l IH]; intros ctx ctx' H; simpl in H.
  - injection H as <-. apply Hrefl.
  - apply obind_inv in H as [ctx1 [H1 H]].
    eapply Htrans; [eapply Hbody; exact H1 | eapply IH; exact H].
Qed.

Lemma same_training_state_refl ctx : same_training_state ctx ctx.
Proof. repeat split. Qed.

Lemma same_training_state_trans a b c :
  same_training_state a b -> same_training_state b c -> same_training_state a c.
Proof.
  intros [H1 [H2 H3]] [H4 [H5 H6]].
  split; [eapply same_descriptor_trans; eassumption|]. split; congruence.
Qed.

Lemma build_validator_unit_keeps ctx validator ctx' :
  build_validator_unit ctx validator = Returned ctx' -> same_training_state ctx ctx'.
Proof.
  unfold build_validator_unit. intros H.
  apply obind_inv in H as [m [_ H]].
  apply obind_inv in H as [model_name [_ H]].
  apply obind_inv in H as [model [_ H]].
  apply obind_inv in H as [ii [_ H]].
  apply obind_inv in H as [ih [_ H]].
  apply obind_inv in H as [model_key [_ H]].
  injection H as <-. repeat split.
Qed.

Lemma load_weights_unit_keeps fs0 ctx item ctx' :
  load_weights_unit fs0 ctx item = Returned ctx' -> same_training_state ctx ctx'.
Proof.
  unfold load_weights_unit. intros H.
  apply obind_inv in H as [found [_ H]].
  destruct found as [path|]; [|injection H as <-; apply same_training_state_refl].
  apply obind_inv in H as [m [_ H]].
  apply obind_inv in H as [p [_ H]].
  destruct (lookup path fs0) as [[[d | blob |] |] |]; try discriminate.
  injection H as <-. repeat split.
Qed.

Lemma furthest_all_at_one optimizers :
  all_at_one optimizers -> optimizers <> [] -> furthest optimizers 0 = 1.
Proof.
  intros Hall Hne. unfold furthest.
  destruct optimizers as [|o rest]; [contradiction|].
  inversion Hall as [|o' rest' Ho Hrest]; subst. simpl.
  rewrite (reduce_mean_int_in_step _ _ Ho).
  change (Z.max 0 1) with 1. clear - Hrest.
  induction Hrest as [|o' rest Ho _ IH]; simpl; [reflexivity|].
  rewrite (reduce_mean_int_in_step _ _ Ho). exact IH.
Qed.

(** C9. When [build_models] returns, every optimizer of the descriptor has
    been built and its training adapter called once on a batch drawn from
    the dataset it is bound to: its iteration counter is 1 on every replica,
    every dataset iterator has lost as many batches as optimizers are bound
    to it, and [global_step] already reports one step more than the offset
    before the first round of the loop. The world is left as it was. *)
Theorem build_models_updates_every_optimizer_once :
  forall ctx (w : world Blob) ctx' w' datasets configs,
    build_models ctx w = (Returned ctx', w') ->
    ctx_datasets ctx = Some datasets ->
    (o <-- subscript (ctx_experiment ctx) "optimizers" ;; items o) = Returned configs ->
    (0 < num_replicas_in_sync (ctx_strategy ctx))%nat ->
    w' = w /\
    exists optimizers datasets',
      ctx_optimizers ctx' = Some optimizers /\
      ctx_datasets ctx' = Some datasets' /\
      all_at_one optimizers /\
      (forall name config,
         In (name, config) configs ->
         exists o,
           PyDict.get name optimizers = Some o /\
           in_step (iterations o) 1 /\
           reduce_mean_int (iterations o) = 1) /\
      (forall n batches,
         PyDict.get n datasets = Some batches ->
         (count_bound n configs <= List.length batches)%nat /\
         PyDict.get n datasets' = Some (skipn (count_bound n configs) batches)) /\
      (configs <> [] ->
       forall base, ctx_global_step ctx = YInt base ->
                    global_step ctx' = Returned (1 + base)).
Proof.
  intros ctx w ctx' w' datasets configs H Hds Hconfigs Hpos.
  unfold build_models in H. rewrite Hds in H.
  apply bind_inv in H as [[w0 [w1 [Hw H]]] | [e [_ Habs]]]; [|discriminate].
  unfold get_world in Hw. injection Hw as <- <-.
  unfold lift in H. injection H as H <-. split; [reflexivity|].
  apply obind_inv in H as [models_config [Hmc H]].
  apply obind_inv in H as [optimizers_config [Hoc H]].
  apply obind_inv in H as [name [Hname H]].
  apply obind_inv in H as [parameters [Hpar H]].
  apply obind_inv in H as [m [Hprov H]].
  apply obind_inv in H as [configs' [Hitems H]].
  rewrite Hoc in Hconfigs. simpl in Hconfigs. rewrite Hitems in Hconfigs.
  injection Hconfigs as ->.
  apply obind_inv in H as [ctx1 [Hopt H]].
  apply obind_inv in H as [validators [Hvs H]].
  apply obind_inv in H as [ctx2 [Hval H]].
  apply obind_inv in H as [principal_configs [Hpc H]].
  apply (build_optimizers_invariant _ _ _ _ datasets []) in Hopt
    as [Hsame [datasets' [optimizers' [Hd' [Ho' [Hall [Hin [_ Hcount]]]]]]]];
    [|exact Hds | reflexivity | exact Hpos | constructor].
  apply (ofold_keeps _ same_training_state same_training_state_refl
           same_training_state_trans build_validator_unit_keeps) in Hval
    as [Hsame2 [Hd2 Ho2]].
  apply (ofold_keeps _ same_training_state same_training_state_refl
           same_training_state_trans (load_weights_unit_keeps (fs w))) in H
    as [Hsame3 [Hd3 Ho3]].
  exists optimizers', datasets'.
  split; [congruence|]. split; [congruence|]. split; [exact Hall|].
  split; [|split].
  - intros oname config Hitem. specialize (Hin _ Hitem). simpl in Hin.
    unfold PyDict.in_ in Hin.
    destruct (PyDict.get oname optimizers') as [o|] eqn:Hget; [|discriminate].
    exists o. split; [reflexivity|].
    apply get_In in Hget. unfold all_at_one in Hall. rewrite Forall_forall in Hall.
    specialize (Hall _ Hget). simpl in Hall.
    split; [exact Hall | apply reduce_mean_int_in_step; exact Hall].
  - exact Hcount.
  - intros Hne base Hbase.
    assert (Hbase' : ctx_global_step ctx' = YInt base).
    { destruct Hsame as [_ [_ H1]]. destruct Hsame2 as [_ [_ H2]].
      destruct Hsame3 as [_ [_ H3]]. simpl in H1. congruence. }
    assert (Hopts : ctx_optimizers ctx' = Some optimizers') by congruence.
    rewrite (global_step_unfold _ _ _ Hopts Hbase').
    rewrite furthest_all_at_one; [reflexivity | exact Hall|].
    destruct configs as [|item rest]; [contradiction|].
    specialize (Hin item (or_introl eq_refl)).
    intros ->. discriminate.
Qed.

(** * Further properties of the script *)

(** ** build_optimizer *)

(** The configuration [build_optimizer] falls back on when the entry has no
    usable [config]: the learning rate alone, when there is one. *)
Definition rate_only (d : list (string * yaml)) : yaml :=
  match PyDict.get "learning_rate" d with
  | Some rate => YDict [("learning_rate", rate)]
  | None => YDict []
  end.

Lemma build_optimizer_mapping s d k :
  PyDict.get "optimizer" d = Some (YStr k) ->
  build_optimizer s (YDict d)
  = if (lower k =? "adam")%string
    then from_config s
           match PyDict.get "config" d with
           | Some given => if truthy given then given else rate_only d
           | None => rate_only d
           end
    else Raised UnboundLocalError.
Proof.
  intros Hk. unfold build_optimizer, rate_only. simpl. rewrite Hk. simpl.
  unfold PyDict.in_.
  destruct (PyDict.get "learning_rate" d) as [rate|]; simpl;
    destruct (PyDict.get "config" d) as [given|]; simpl; reflexivity.
Qed.

(** X1. A configuration saved under [config] wins over [learning_rate]:
    for an entry whose [optimizer] is Adam in any letter case,
    [build_optimizer] builds the optimizer from the entry's [config] when
    that is a non-empty mapping, from the learning rate alone when [config]
    is absent or false for Python, and from the empty configuration when
    there is no learning rate either. The counter of the new optimizer is 0
    on every replica. *)
Theorem build_optimizer_prefers_saved_configuration :
  forall (s : strategy) (d : list (string * yaml)) (k : string),
    PyDict.get "optimizer" d = Some (YStr k) ->
    lower k = "adam"%string ->
    (forall c,
       PyDict.get "config" d = Some (YDict c) -> c <> [] ->
       build_optimizer s (YDict d)
       = Returned {| iterations := mirrored s 0; hyper := YDict c |}) /\
    (forall rate,
       (PyDict.get "config" d = None \/
        exists given, PyDict.get "config" d = Some given /\ truthy given = false) ->
       PyDict.get "learning_rate" d = Some rate ->
       build_optimizer s (YDict d)
       = Returned {| iterations := mirrored s 0;
                     hyper := YDict [("learning_rate", rate)] |}) /\
    ((PyDict.get "config" d = None \/
      exists given, PyDict.get "config" d = Some given /\ truthy given = false) ->
     PyDict.get "learning_rate" d = None ->
     build_optimizer s (YDict d)
     = Returned {| iterations := mirrored s 0; hyper := YDict [] |}).
Proof.
  intros s d k Hk Hadam.
  rewrite (build_optimizer_mapping s d k Hk), Hadam. simpl.
  split; [|split].
  - intros c Hc Hne. rewrite Hc. destruct c; [contradiction | reflexivity].
  - intros rate Hconfig Hrate. unfold rate_only. rewrite Hrate.
    destruct Hconfig as [-> | [given [-> ->]]]; reflexivity.
  - intros Hconfig Hrate. unfold rate_only. rewrite Hrate.
    destruct Hconfig as [-> | [given [-> ->]]]; reflexivity.
Qed.

(** X2. Adam is the only optimizer [build_optimizer] knows: for an entry
    whose [optimizer] is any other name the class is never bound and the
    call raises [UnboundLocalError], whatever else the entry holds; an entry
    without [optimizer] raises [KeyError]. *)
Theorem build_optimizer_knows_only_adam :
  forall (s : strategy) (d : list (string * yaml)),
    (forall k,
       PyDict.get "optimizer" d = Some (YStr k) ->
       lower k <> "adam"%string ->
       build_optimizer s (YDict d) = Raised UnboundLocalError) /\
    (PyDict.get "optimizer" d = None ->
     build_optimizer s (YDict d) = Raised (KeyError "optimizer")) /\
    (forall k o,
       PyDict.get "optimizer" d = Some (YStr k) ->
       build_optimizer s (YDict d) = Returned o ->
       lower k = "adam"%string).
Proof.
  intros s d. split; [|split].
  - intros k Hk Hother. rewrite (build_optimizer_mapping s d k Hk).
    destruct (String.eqb_spec (lower k) "adam"); [contradiction | reflexivity].
  - intros Hnone. unfold build_optimizer. simpl. rewrite Hnone. reflexivity.
  - intros k o Hk Hrun. rewrite (build_optimizer_mapping s d k Hk) in Hrun.
    destruct (String.eqb_spec (lower k) "adam"); [assumption | discriminate].
Qed.

(** ** build_datasets *)

Lemma omap_inv {A B} (f : A -> outcome B) l l' :
  omap f l = Returned l' -> Forall2 (fun a b => f a = Returned b) l l'.
Proof.
  revert l'. induction l as [|a l IH]; intros l' H; simpl in H.
  - injection H as <-. constructor.
  - apply obind_inv in H as [b [Hb H]].
    apply obind_inv in H as [bs [Hbs H]].
    injection H as <-. constructor; [exact Hb | apply IH; exact Hbs].
Qed.

Lemma get_app {A} k (l l' : list (string * A)) :
  PyDict.get k (l ++ l')
  = match PyDict.get k l with
    | Some v => Some v
    | None => PyDict.get k l'
    end.
Proof.
  induction l as [|[k0 v0] l IH]; simpl; [reflexivity|].
  destruct (k0 =? k)%string; [reflexivity | exact IH].
Qed.

(** A dictionary filled by assignments in a loop holds, under every key,
    the value assigned last. *)
Lemma get_fold_set {A} k (built : list (string * A)) :
  forall acc,
    PyDict.get k (fold_left (fun d item => PyDict.set (fst item) (snd item) d) built acc)
    = match PyDict.get k (rev built) with
      | Some v => Some v
      | None => PyDict.get k acc
      end.
Proof.
  induction built as [|[k0 v0] built IH]; intros acc; simpl; [reflexivity|].
  rewrite IH, get_app, get_set_cases. simpl.
  destruct (PyDict.get k (rev built)); [reflexivity|].
  destruct (k0 =? k)%string; reflexivity.
Qed.

Lemma get_in_keys {A} k (l : list (string * A)) :
  PyDict.in_ k l = true <-> In k (map fst l).
Proof.
  unfold PyDict.in_. induction l as [|[k0 v0] l IH]; simpl.
  - split; [discriminate | contradiction].
  - destruct (String.eqb_spec k0 k) as [-> | Hne].
    + split; auto.
    + rewrite IH. split; [auto | intros [H | H]; [contradiction | exact H]].
Qed.

Lemma get_unique {A} k (v : A) l :
  NoDup (map fst l) -> In (k, v) l -> PyDict.get k l = Some v.
Proof.
  induction l as [|[k0 v0] l IH]; simpl; intros Hnd Hin; [contradiction|].
  inversion Hnd as [|x xs Hnotin Hnd']; subst.
  destruct Hin as [Heq | Hin].
  - injection Heq as -> ->. rewrite String.eqb_refl. reflexivity.
  - destruct (String.eqb_spec k0 k) as [-> | Hne]; [|apply IH; assumption].
    exfalso. apply Hnotin. apply (in_map fst) in Hin. exact Hin.
Qed.

(** What the Dataset Provider is asked for one entry of the descriptor. *)
Definition requested_dataset (num_gpus : Z) (s : strategy) (config : yaml)
  (dataset : list batch) : Prop :=
  exists subsets batch_size sample_rate augment,
    subscript config "subsets" = Returned subsets /\
    (b <-- subscript config "batch_size" ;; as_int b) = Returned batch_size /\
    subscript config "sample_rate" = Returned sample_rate /\
    subscript config "augment" = Returned augment /\
    dataset = distribute s (build_dataset subsets (batch_size * num_gpus)
                              sample_rate augment).

Lemma build_dataset_unit_inv num_gpus s item built :
  build_dataset_unit num_gpus s item = Returned built ->
  fst built = fst item /\ requested_dataset num_gpus s (snd item) (snd built).
Proof.
  unfold build_dataset_unit. intros H.
  apply obind_inv in H as [subsets [Hs H]].
  apply obind_inv in H as [batch_size [Hb H]].
  apply obind_inv in H as [sample_rate [Hr H]].
  apply obind_inv in H as [augment [Ha H]].
  injection H as <-. split; [reflexivity|].
  exists subsets, batch_size, sample_rate, augment. repeat split; assumption.
Qed.

Lemma build_datasets_inv ctx (w : world Blob) ctx' w' :
  build_datasets ctx w = (Returned ctx', w') ->
  w' = w /\
  exists entries built,
    subscript (ctx_experiment ctx) "datasets" = Returned (YDict entries) /\
    Forall2 (fun item b =>
               fst b = fst item /\
               requested_dataset (Z.of_nat (List.length (gpus w))) (ctx_strategy ctx)
                 (snd item) (snd b)) entries built /\
    ctx' = set_datasets ctx
             (fold_left (fun d item => PyDict.set (fst item) (snd item) d) built []).
Proof.
  unfold build_datasets, bind, get_world, lift. intros H.
  injection H as H <-. split; [reflexivity|].
  apply obind_inv in H as [entries [He H]].
  apply obind_inv in H as [built [Hb H]].
  injection H as <-.
  apply obind_inv in He as [d [Hd He]].
  destruct d; try discriminate. injection He as ->.
  exists entries, built. split; [exact Hd|]. split; [|reflexivity].
  apply omap_inv in Hb.
  clear Hd. induction Hb as [|item b entries built Hone _ IH]; [constructor|].
  constructor; [|exact IH]. apply build_dataset_unit_inv. exact Hone.
Qed.

Lemma Forall2_keys {A B} (R : string * A -> string * B -> Prop) l l' :
  Forall2 (fun a b => fst b = fst a /\ R a b) l l' -> map fst l' = map fst l.
Proof.
  induction 1 as [|a b l l' [Hk _] _ IH]; simpl; [reflexivity|].
  rewrite Hk, IH. reflexivity.
Qed.

(** X3. When [build_datasets] returns, [context['datasets']] holds exactly
    the datasets the descriptor names, each built by the Dataset Provider
    from the entry's [subsets], [sample_rate] and [augment] with the entry's
    [batch_size] multiplied by the number of logical GPUs, and distributed by
    the strategy of the session. Nothing else of the session changes and the
    world is left as it was. *)
Theorem build_datasets_scales_batch_size_by_gpus :
  forall ctx (w : world Blob) ctx' w',
    build_datasets ctx w = (Returned ctx', w') ->
    w' = w /\
    ctx_experiment ctx' = ctx_experiment ctx /\
    ctx_strategy ctx' = ctx_strategy ctx /\
    ctx_global_step ctx' = ctx_global_step ctx /\
    ctx_models ctx' = ctx_models ctx /\
    ctx_optimizers ctx' = ctx_optimizers ctx /\
    exists entries datasets,
      subscript (ctx_experiment ctx) "datasets" = Returned (YDict entries) /\
      ctx_datasets ctx' = Some datasets /\
      (forall name, PyDict.in_ name datasets = true <-> In name (map fst entries)) /\
      (NoDup (map fst entries) ->
       forall name config,
         In (name, config) entries ->
         exists subsets batch_size sample_rate augment,
           subscript config "subsets" = Returned subsets /\
           (b <-- subscript config "batch_size" ;; as_int b) = Returned batch_size /\
           subscript config "sample_rate" = Returned sample_rate /\
           subscript config "augment" = Returned augment /\
           PyDict.get name datasets
           = Some (distribute (ctx_strategy ctx)
                     (build_dataset subsets
                        (batch_size * Z.of_nat (List.length (gpus w)))
                        sample_rate augment))).
Proof.
  intros ctx w ctx' w' H.
  apply build_datasets_inv in H as [-> [entries [built [Hd [Hall ->]]]]].
  split; [reflexivity|]. repeat (split; [reflexivity|]).
  exists entries. eexists. split; [exact Hd|]. split; [reflexivity|].
  pose proof (Forall2_keys _ _ _ Hall) as Hkeys.
  split.
  - intros name. rewrite <- Hkeys. unfold PyDict.in_ at 1.
    rewrite get_fold_set. simpl.
    rewrite (in_rev (map fst built)), <- map_rev, <- get_in_keys.
    unfold PyDict.in_. destruct (PyDict.get name (rev built)); reflexivity.
  - intros Hnodup name config Hin.
    assert (Hb : exists dataset,
               In (name, dataset) built /\
               requested_dataset (Z.of_nat (List.length (gpus w))) (ctx_strategy ctx)
                 config dataset).
    { clear Hkeys Hnodup Hd. induction Hall as [|item b entries built [Hk Hr] _ IH].
      - contradiction.
      - destruct Hin as [-> | Hin].
        + exists (snd b). split; [left; destruct b; simpl in *; congruence | exact Hr].
        + destruct (IH Hin) as [dataset [Hin' Hr']].
          exists dataset. split; [right; exact Hin' | exact Hr']. }
    destruct Hb as [dataset [Hin' [subsets [bs [rate [aug [H1 [H2 [H3 [H4 Hds]]]]]]]]]].
    exists subsets, bs, rate, aug. repeat (split; [assumption|]).
    rewrite get_fold_set.
    rewrite (get_unique name dataset (rev built)); [rewrite Hds; reflexivity | |].
    + rewrite map_rev. apply NoDup_rev. rewrite Hkeys. exact Hnodup.
    + apply -> in_rev. exact Hin'.
Qed.

(** ** load_experiment, when it returns *)

Lemma load_yaml_inv path (w : world Blob) document w' :
  load_yaml path w = (Returned document, w') ->
  lookup path (fs w) = Some (File (YamlFile document)) /\ w' = w.
Proof.
  unfold load_yaml, bind, get_world. intros H.
  destruct (lookup path (fs w)) as [[[d | blob |] |] |]; try discriminate.
  unfold ret in H. injection H as <- <-. split; reflexivity.
Qed.

Lemma emit_inv e (w : world Blob) r w' :
  emit e w = (r, w') ->
  r = Returned tt /\ fs w' = fs w /\ gpus w' = gpus w /\ trace w' = trace w ++ [e].
Proof. unfold emit. intros H. injection H as <- <-. repeat split. Qed.

(** The directories [os.makedirs(path, exist_ok=True)] asks for: [path] and
    everything above it. *)
Definition wanted_dirs (path : string) : list string :=
  path :: ancestors (String.length path) path.

Lemma makedirs_inv path (w : world Blob) r w' :
  makedirs path w = (r, w') ->
  (existsb (isfile (fs w)) (wanted_dirs path) = true /\
   r = Raised (OSError path) /\ w' = w) \/
  (existsb (isfile (fs w)) (wanted_dirs path) = false /\
   r = Returned tt /\
   fs w' = map (fun p => (p, Dir))
             (filter (fun p => negb (isdir (fs w) p)) (wanted_dirs path)) ++ fs w /\
   gpus w' = gpus w /\
   trace w' = trace w ++ [MadeDirs path]).
Proof.
  unfold makedirs, wanted_dirs, bind, get_world.
  destruct (existsb _ _) eqn:E; intros H.
  - left. unfold raise in H. injection H as <- <-. repeat split.
  - right. unfold put_fs, emit in H. simpl in H. injection H as <- <-.
    repeat split.
Qed.

(** The context [load_experiment] returns for a resolved descriptor. *)
Definition loaded_context (experiment : yaml) (s : strategy) (step : yaml) : context :=
  {| ctx_experiment := experiment;
     ctx_strategy := s;
     ctx_global_step := step;
     ctx_datasets := None;
     ctx_models := None;
     ctx_optimizers := None |}.

(** [experiment['summary']['path']] as [create_file_writer] accepts it. *)
Definition summary_dir (experiment : yaml) : outcome string :=
  s <-- subscript experiment "summary" ;;
  p <-- subscript s "path" ;;
  as_str p.

Lemma load_experiment_inv path (w : world Blob) ctx w' :
  load_experiment path w = (Returned ctx, w') ->
  exists document has_step e1 n e2 cdir sdir w1 strat step,
    lookup path (fs w) = Some (File (YamlFile document)) /\
    contains_name document "name" = Returned true /\
    contains_name document "global_step" = Returned has_step /\
    (if has_step then Returned document
     else assign document "global_step" (YInt 0)) = Returned e1 /\
    subscript e1 "name" = Returned (YStr n) /\
    resolve_strings expanduser resolve e1 n = Returned e2 /\
    checkpoint_dir e2 = Returned cdir /\
    makedirs cdir w = (Returned tt, w1) /\
    summary_dir e2 = Returned sdir /\
    choose_strategy (gpus w) = Returned strat /\
    subscript e2 "global_step" = Returned step /\
    ctx = loaded_context e2 strat step /\
    fs w' = fs w1 /\ gpus w' = gpus w1 /\
    trace w' = trace w1 ++ [CreatedWriter sdir; LoggedInfo "global step";
                            LoggedInfo ("summary: " ++ sdir)%string;
                            LoggedInfo "strategy"].
Proof.
  unfold load_experiment. intros H.
  apply bind_inv in H as [[w0 [w1 [Hw H]]] | [e [_ Habs]]]; [|discriminate].
  unfold get_world in Hw. injection Hw as <- <-.
  destruct (negb (isfile (fs w) path)); [discriminate|].
  step_bind H document w2 Hload.
  apply load_yaml_inv in Hload as [Hfile ->].
  step_lift H has_name Hn.
  destruct has_name; [|discriminate]. cbn [negb] in H.
  step_lift H summary Hs. step_lift H sp Hsp.
  destruct (negb (truthy sp)); [discriminate|].
  step_lift H checkpoint Hcp. step_lift H cp Hcpp.
  destruct (negb (truthy cp)); [discriminate|].
  step_lift H has_step Hhs. step_lift H e1 He1. step_lift H name Hname.
  step_lift H e2 He2. step_lift H cdir Hcdir.
  step_bind H u1 w3 Hmk. step_lift H sdir Hsdir.
  step_bind H u2 w4 Hcw. step_lift H n Hln. step_lift H strat Hst.
  step_lift H step Hstep.
  step_bind H u3 w5 Hl1. step_bind H u4 w6 Hl2. step_bind H u5 w7 Hl3.
  unfold ret in H. injection H as <- <-.
  destruct name; try discriminate. simpl in Hln. injection Hln as ->.
  simpl in He2. destruct u1.
  apply emit_inv in Hcw as [_ [Hf4 [Hg4 Ht4]]].
  apply emit_inv in Hl1 as [_ [Hf5 [Hg5 Ht5]]].
  apply emit_inv in Hl2 as [_ [Hf6 [Hg6 Ht6]]].
  apply emit_inv in Hl3 as [_ [Hf7 [Hg7 Ht7]]].
  exists document, has_step, e1, n, e2, cdir, sdir, w3, strat, step.
  repeat (split; [assumption || reflexivity|]).
  split; [congruence|]. split; [congruence|].
  rewrite Ht7, Ht6, Ht5, Ht4. rewrite <- !app_assoc. reflexivity.
Qed.

(** X4. The context [load_experiment] returns holds no datasets, no models
    and no optimizers yet: on it [build_models] raises the [ValueError] that
    asks for the datasets, and [train], [validate] and [save] raise
    [KeyError] at their first step, the reading of the global step; none of
    them touches the world. After [build_datasets] the datasets are there,
    and [train] still raises until [build_models] has run. *)
Theorem units_need_the_session_built :
  forall path (w : world Blob) ctx w1,
    load_experiment path w = (Returned ctx, w1) ->
    ctx_datasets ctx = None /\ ctx_models ctx = None /\ ctx_optimizers ctx = None /\
    (forall w2,
       build_models ctx w2
       = (Raised (ValueError "build datasets before building models"), w2)) /\
    (forall w2, train ctx w2 = (Raised (KeyError "optimizers"), w2)) /\
    (forall w2, validate ctx w2 = (Raised (KeyError "optimizers"), w2)) /\
    (forall w2, save ctx w2 = (Raised (KeyError "optimizers"), w2)) /\
    (forall ctx2 w2 w3,
       build_datasets ctx w2 = (Returned ctx2, w3) ->
       ctx_datasets ctx2 <> None /\
       train ctx2 w3 = (Raised (KeyError "optimizers"), w3)).
Proof.
  intros path w ctx w1 H.
  apply load_experiment_inv in H
    as (document & has_step & e1 & n & e2 & cdir & sdir & w3 & strat & step & H).
  destruct H as (_ & _ & _ & _ & _ & _ & _ & _ & _ & _ & _ & -> & _).
  repeat (split; [reflexivity|]).
  intros ctx2 w2 w4 Hbuild.
  apply build_datasets_inv in Hbuild as [-> [entries [built [_ [_ ->]]]]].
  split; [discriminate | reflexivity].
Qed.

(** X5. [load_experiment] takes the strategy from the logical GPUs of the
    machine: with more than one it mirrors over all of them, with exactly
    one it uses that device, and with none [gpus[0]] raises, so that the
    call cannot return on a machine without GPU. The strategy it returns has
    as many replicas as the machine has logical GPUs. *)
Theorem load_experiment_needs_a_gpu :
  forall path (w : world Blob),
    (gpus w = [] -> forall ctx w', load_experiment path w <> (Returned ctx, w')) /\
    (forall ctx w',
       load_experiment path w = (Returned ctx, w') ->
       gpus w' = gpus w /\
       num_replicas_in_sync (ctx_strategy ctx) = List.length (gpus w) /\
       ((exists gpu, gpus w = [gpu] /\ ctx_strategy ctx = OneDeviceStrategy gpu) \/
        ((1 < List.length (gpus w))%nat /\
         ctx_strategy ctx = MirroredStrategy (gpus w)))).
Proof.
  intros path w.
  assert (Hreturned : forall ctx w',
             load_experiment path w = (Returned ctx, w') ->
             gpus w' = gpus w /\
             choose_strategy (gpus w) = Returned (ctx_strategy ctx)).
  { intros ctx w' H.
    apply load_experiment_inv in H
      as (document & has_step & e1 & n & e2 & cdir & sdir & w3 & strat & step & H).
    destruct H as (_ & _ & _ & _ & _ & _ & _ & Hmk & _ & Hs & _ & -> & _ & Hg & _).
    apply makedirs_inv in Hmk as [[_ [Habs _]] | [_ [_ [_ [Hg3 _]]]]]; [discriminate|].
    split; [congruence | exact Hs]. }
  split.
  - intros Hnone ctx w' H. apply Hreturned in H as [_ H].
    rewrite Hnone in H. discriminate H.
  - intros ctx w' H. apply Hreturned in H as [Hg Hs].
    split; [exact Hg|]. split; [apply choose_strategy_replicas; exact Hs|].
    unfold choose_strategy in Hs.
    destruct (1 <? List.length (gpus w))%nat eqn:E.
    + right. injection Hs as <-. apply Nat.ltb_lt in E. split; [exact E | reflexivity].
    + left. apply Nat.ltb_ge in E.
      destruct (gpus w) as [|gpu rest]; [discriminate|].
      injection Hs as <-. exists gpu.
      destruct rest; [split; reflexivity | simpl in E; lia].
Qed.

Lemma lookup_made p (made : list string) (fs0 : filesystem Blob) :
  lookup p (map (fun q => (q, Dir)) made ++ fs0)
  = if existsb (String.eqb p) made then Some Dir else lookup p fs0.
Proof.
  induction made as [|q made IH]; simpl; [reflexivity|].
  rewrite (String.eqb_sym p q).
  destruct (q =? p)%string; [reflexivity | exact IH].
Qed.

Lemma existsb_eqb_In p (l : list string) :
  existsb (String.eqb p) l = true <-> In p l.
Proof.
  rewrite existsb_exists. split.
  - intros [q [Hin Heq]]. apply String.eqb_eq in Heq. subst. exact Hin.
  - intros Hin. exists p. split; [exact Hin | apply String.eqb_refl].
Qed.

(** What [os.makedirs(path, exist_ok=True)] leaves when it returns: [path]
    and everything above it are directories, every file is as it was and
    every directory is still one. *)
Lemma makedirs_effect path (w : world Blob) w' :
  makedirs path w = (Returned tt, w') ->
  (forall p, In p (wanted_dirs path) -> isdir (fs w') p = true) /\
  (forall p, isfile (fs w') p = isfile (fs w) p) /\
  (forall p, isdir (fs w) p = true -> isdir (fs w') p = true) /\
  (forall p f, lookup p (fs w) = Some (File f) -> lookup p (fs w') = Some (File f)) /\
  gpus w' = gpus w /\
  trace w' = trace w ++ [MadeDirs path].
Proof.
  intros H.
  apply makedirs_inv in H as [[_ [Habs _]] | [Hfiles [_ [Hfs [Hg Ht]]]]];
    [discriminate|].
  set (missing := filter (fun p => negb (isdir (fs w) p)) (wanted_dirs path)) in *.
  assert (Hnofile : forall p, In p missing -> isfile (fs w) p = false).
  { intros p Hp. apply filter_In in Hp as [Hp _].
    destruct (isfile (fs w) p) eqn:E; [|reflexivity].
    assert (Hex : existsb (isfile (fs w)) (wanted_dirs path) = true)
      by (apply existsb_exists; exists p; split; assumption).
    congruence. }
  assert (Hlook : forall p,
             lookup p (fs w')
             = if existsb (String.eqb p) missing then Some Dir else lookup p (fs w)).
  { intros p. rewrite Hfs. apply lookup_made. }
  repeat split; try assumption.
  - intros p Hp. unfold isdir. rewrite Hlook.
    destruct (existsb (String.eqb p) missing) eqn:E; [reflexivity|].
    destruct (isdir (fs w) p) eqn:Hd; [exact Hd|].
    assert (Hin : In p missing)
      by (apply filter_In; split; [exact Hp | rewrite Hd; reflexivity]).
    apply existsb_eqb_In in Hin. congruence.
  - intros p. unfold isfile at 1. rewrite Hlook.
    destruct (existsb (String.eqb p) missing) eqn:E; [|reflexivity].
    apply existsb_eqb_In in E. symmetry. apply Hnofile. exact E.
  - intros p Hd. unfold isdir. rewrite Hlook.
    destruct (existsb (String.eqb p) missing); [reflexivity | exact Hd].
  - intros p f Hf. rewrite Hlook.
    destruct (existsb (String.eqb p) missing) eqn:E; [|exact Hf].
    apply existsb_eqb_In in E. apply Hnofile in E.
    unfold isfile in E. rewrite Hf in E. discriminate E.
Qed.

(** X6. What [load_experiment] itself does to the file system is
    [os.makedirs]: when it returns, the checkpoint directory of the resolved
    descriptor and every directory above it exist, no file of the file
    system has been removed or changed and none has taken the place of a
    directory. What it leaves in the log is the creation of the directory,
    the summary writer opened on the summary directory, and its three
    messages, in that order. A run that raises [ValueError] has touched
    nothing. *)
Theorem load_experiment_creates_the_checkpoint_directory :
  forall path (w : world Blob),
    (forall ctx w',
       load_experiment path w = (Returned ctx, w') ->
       exists cdir sdir,
         checkpoint_dir (ctx_experiment ctx) = Returned cdir /\
         summary_dir (ctx_experiment ctx) = Returned sdir /\
         (forall p, In p (wanted_dirs cdir) -> isdir (fs w') p = true) /\
         (forall p, isfile (fs w') p = isfile (fs w) p) /\
         (forall p, isdir (fs w) p = true -> isdir (fs w') p = true) /\
         (forall p f, lookup p (fs w) = Some (File f) ->
                      lookup p (fs w') = Some (File f)) /\
         trace w' = trace w ++ [MadeDirs cdir; CreatedWriter sdir;
                                LoggedInfo "global step";
                                LoggedInfo ("summary: " ++ sdir)%string;
                                LoggedInfo "strategy"]) /\
    (forall msg w',
       load_experiment path w = (Raised (ValueError msg), w') -> w' = w).
Proof.
  intros path w. split.
  - intros ctx w' H.
    apply load_experiment_inv in H
      as (document & has_step & e1 & n & e2 & cdir & sdir & w3 & strat & step & H).
    destruct H as (_ & _ & _ & _ & _ & _ & Hc & Hmk & Hs & _ & _ & -> & Hf & _ & Ht).
    apply makedirs_effect in Hmk as (Hdirs & Hfiles & Hkeep & Hsame & _ & Ht3).
    exists cdir, sdir. simpl. split; [exact Hc|]. split; [exact Hs|].
    unfold isdir, isfile in *. rewrite Hf.
    repeat (split; [assumption|]).
    rewrite Ht, Ht3, <- app_assoc. reflexivity.
  - intros msg w' H. unfold load_experiment in H.
    apply bind_inv in H as [[w0 [w1 [Hw H]]] | [e [Habs _]]]; [|discriminate].
    unfold get_world in Hw. injection Hw as <- <-.
    destruct (negb (isfile (fs w) path));
      [unfold raise in H; injection H as _ <-; reflexivity|].
    apply bind_inv in H as [[document [w2 [Hload H]]] | [e [Hload He]]].
    2:{ unfold load_yaml, bind, get_world in Hload.
        destruct (lookup path (fs w)) as [[[d | blob |] |] |];
          unfold ret, raise in Hload; try discriminate Hload;
          injection Hload as _ <-; reflexivity. }
    apply load_yaml_inv in Hload as [_ ->].
    apply bind_lift_inv in H as [[has_name [_ H]] | [e [_ [_ ->]]]]; [|reflexivity].
    destruct (negb has_name);
      [unfold raise in H; injection H as _ <-; reflexivity|].
    apply bind_lift_inv in H as [[summary [_ H]] | [e [_ [_ ->]]]]; [|reflexivity].
    apply bind_lift_inv in H as [[sp [_ H]] | [e [_ [_ ->]]]]; [|reflexivity].
    destruct (negb (truthy sp));
      [unfold raise in H; injection H as _ <-; reflexivity|].
    apply bind_lift_inv in H as [[checkpoint [_ H]] | [e [_ [_ ->]]]]; [|reflexivity].
    apply bind_lift_inv in H as [[cp [_ H]] | [e [_ [_ ->]]]]; [|reflexivity].
    destruct (negb (truthy cp));
      [unfold raise in H; injection H as _ <-; reflexivity|].
    exfalso.
    match type of H with
    | ?m w = _ => assert (Hn : no_value_error m); [|exact (Hn _ _ _ H msg eq_refl)]
    end.
    no_value_error_tac.
Qed.

Lemma resolve_item_string name k v s :
  resolve_item expanduser resolve (resolved expanduser resolve name) name k v = YStr s ->
  exists s0, v = YStr s0 /\ s = resolve_string expanduser resolve name k s0.
Proof.
  destruct v; simpl; try discriminate.
  intros H. injection H as <-. eexists. split; reflexivity.
Qed.

Lemma resolve_item_mapping name k v entries :
  resolve_item expanduser resolve (resolved expanduser resolve name) name k v
  = YDict entries ->
  exists entries0,
    v = YDict entries0 /\
    YDict entries = resolved expanduser resolve name (YDict entries0).
Proof.
  destruct v; simpl; try discriminate.
  intros H. eexists. split; [reflexivity | symmetry; exact H].
Qed.

(** The path of a section of the resolved descriptor is the path the
    descriptor gives, with the placeholder replaced and then normalized. *)
Lemma resolved_section_path name d section dir :
  (c <-- subscript (resolved expanduser resolve name (YDict d)) section ;;
   p <-- subscript c "path" ;; as_str p) = Returned dir ->
  exists c s,
    PyDict.get section d = Some (YDict c) /\
    PyDict.get "path" c = Some (YStr s) /\
    dir = normalize_path expanduser resolve (PyStr.replace placeholder name s).
Proof.
  intros H.
  apply obind_inv in H as [c' [Hc H]].
  apply obind_inv in H as [p' [Hp H]].
  destruct p' as [| | | |s'| |]; simpl in H; try discriminate H. injection H as ->.
  simpl in Hc. rewrite get_resolved_entries in Hc.
  destruct (PyDict.get section d) as [v|] eqn:Hsec; [|discriminate].
  simpl in Hc. injection Hc as <-.
  destruct (resolve_item expanduser resolve (resolved expanduser resolve name) name
              (KStr section) v) as [| | | | | |entries] eqn:Hv; try discriminate.
  apply resolve_item_mapping in Hv as [c [-> Hv]]. injection Hv as ->.
  simpl in Hp. rewrite get_resolved_entries in Hp.
  destruct (PyDict.get "path" c) as [p|] eqn:Hpath; [|discriminate].
  simpl in Hp. injection Hp as Hp.
  apply resolve_item_string in Hp as [s [-> ->]].
  exists c, s. repeat split; assumption.
Qed.

(** X7. The session [load_experiment] returns holds the descriptor of the
    file resolved with the experiment's own name ([global_step] set to 0
    first when the file has none): the name is a string, and the checkpoint
    directory it creates and the summary directory it opens are the paths
    the file gives with [{experiment_name}] replaced by the name and then
    normalized. *)
Theorem load_experiment_resolves_with_the_experiment_name :
  forall path (w : world Blob) d ctx w',
    lookup path (fs w) = Some (File (YamlFile (YDict d))) ->
    load_experiment path w = (Returned ctx, w') ->
    exists name c cp s sp,
      PyDict.get "name" d = Some (YStr name) /\
      PyDict.get "checkpoint" d = Some (YDict c) /\
      PyDict.get "path" c = Some (YStr cp) /\
      PyDict.get "summary" d = Some (YDict s) /\
      PyDict.get "path" s = Some (YStr sp) /\
      ctx_experiment ctx
      = resolved expanduser resolve name
          (YDict (if PyDict.in_ "global_step" d then d
                  else PyDict.set "global_step" (YInt 0) d)) /\
      checkpoint_dir (ctx_experiment ctx)
      = Returned (normalize_path expanduser resolve
                    (PyStr.replace placeholder name cp)) /\
      summary_dir (ctx_experiment ctx)
      = Returned (normalize_path expanduser resolve
                    (PyStr.replace placeholder name sp)) /\
      In (MadeDirs (normalize_path expanduser resolve
                      (PyStr.replace placeholder name cp))) (trace w') /\
      In (CreatedWriter (normalize_path expanduser resolve
                           (PyStr.replace placeholder name sp))) (trace w').
Proof.
  intros path w d ctx w' Hfile H.
  apply load_experiment_inv in H
    as (document & has_step & e1 & n & e2 & cdir & sdir & w3 & strat & step & H).
  destruct H as (Hfile' & _ & Hhs & He1 & Hname & He2 & Hc & Hmk & Hs & _ & _ & -> & _ & _ & Ht).
  rewrite Hfile in Hfile'. injection Hfile' as <-.
  simpl in Hhs. injection Hhs as <-.
  set (d1 := if PyDict.in_ "global_step" d then d
             else PyDict.set "global_step" (YInt 0) d) in *.
  assert (Hd1 : e1 = YDict d1).
  { unfold d1. destruct (PyDict.in_ "global_step" d); simpl in He1;
      injection He1 as <-; reflexivity. }
  subst e1.
  assert (Hget : forall k, k <> "global_step"%string -> PyDict.get k d1 = PyDict.get k d).
  { intros k Hk. unfold d1. destruct (PyDict.in_ "global_step" d); [reflexivity|].
    apply get_set_other. exact Hk. }
  simpl in He2. injection He2 as <-.
  pose proof Hc as Hc'. pose proof Hs as Hs'.
  apply resolved_section_path in Hc' as (c & cp & Hgc & Hgcp & ->).
  apply resolved_section_path in Hs' as (s & sp & Hgs & Hgsp & ->).
  rewrite Hget in Hgc, Hgs by discriminate.
  simpl in Hname. rewrite Hget in Hname by discriminate.
  destruct (PyDict.get "name" d) as [v|] eqn:Hn; [|discriminate].
  injection Hname as ->.
  exists n, c, cp, s, sp.
  repeat (split; [assumption || reflexivity|]).
  apply makedirs_inv in Hmk as [[_ [Habs _]] | [_ [_ [_ [_ Ht3]]]]]; [discriminate|].
  rewrite Ht, Ht3. split.
  - apply in_or_app. left. apply in_or_app. right. left. reflexivity.
  - apply in_or_app. right. left. reflexivity.
Qed.

(** ** The entry point *)

(** X8. The script run on a path: on anything that is no directory it is
    [train_validate_save] on that path, so that a path that names nothing
    ends in the [ValueError] of [load_experiment]; on a directory without
    checkpoint descriptor it ends in the [ValueError] of
    [find_latest_checkpoint]; on a directory with descriptors it is
    [train_validate_save] on the last of them in lexicographic order. The
    two errors leave the world as it was. *)
Theorem main_resumes_from_the_newest_checkpoint :
  forall (n : nat) (argument : string) (w : world Blob),
    (isdir (fs w) argument = false ->
     main n argument w = train_validate_save n argument w) /\
    (isdir (fs w) argument = false -> isfile (fs w) argument = false ->
     main n argument w
     = (Raised (ValueError ("Invalid experiment path: " ++ argument)%string), w)) /\
    (isdir (fs w) argument = true ->
     candidates (listdir (fs w) argument) = [] ->
     main n argument w
     = (Raised (ValueError ("Found no checkpoint within " ++ argument)%string), w)) /\
    (isdir (fs w) argument = true ->
     candidates (listdir (fs w) argument) <> [] ->
     main n argument w
     = train_validate_save n
         (path_join argument (last (sorted (candidates (listdir (fs w) argument))) ""))
         w).
Proof.
  intros n argument w.
  assert (Hfile : isdir (fs w) argument = false ->
                  main n argument w = train_validate_save n argument w).
  { intros Hd. unfold main. unfold bind at 1.
    rewrite (find_latest_checkpoint_not_dir _ _ Hd). reflexivity. }
  split; [exact Hfile|]. split; [|split].
  - intros Hd Hf. rewrite (Hfile Hd). unfold train_validate_save. unfold bind at 1.
    rewrite (load_experiment_invalid_path _ _ Hf). reflexivity.
  - intros Hd Hnone. unfold main. unfold bind at 1.
    rewrite (find_latest_checkpoint_dir _ _ Hd), Hnone. reflexivity.
  - intros Hd Hsome. unfold main. unfold bind at 1.
    rewrite (find_latest_checkpoint_dir _ _ Hd).
    destruct (sorted (candidates (listdir (fs w) argument))) as [|n0 ns] eqn:Hs;
      [|reflexivity].
    pose proof (sorted_permutation (candidates (listdir (fs w) argument))) as Hp.
    rewrite Hs in Hp. apply Permutation_sym, Permutation_nil in Hp. contradiction.
Qed.

(** ** What train and validate write *)

(** An event a training or validation round may leave: a summary of one of
    the given metrics under the given step, or a log message. *)
Definition logged_at (metrics : list string) (step : Z) (e : event) : Prop :=
  match e with
  | SummaryScalar metric _ s _ => In metric metrics /\ s = step
  | SummaryImage metric _ s => In metric metrics /\ s = step
  | LoggedInfo _ => True
  | _ => False
  end.

(** Between two worlds nothing happened but such events. *)
Definition only_logs (metrics : list string) (step : Z) (w w' : world Blob) : Prop :=
  fs w' = fs w /\ gpus w' = gpus w /\
  exists events, trace w' = trace w ++ events /\ Forall (logged_at metrics step) events.

Lemma only_logs_refl metrics step w : only_logs metrics step w w.
Proof.
  repeat split. exists []. split; [rewrite app_nil_r; reflexivity | constructor].
Qed.

Lemma only_logs_trans metrics step a b c :
  only_logs metrics step a b -> only_logs metrics step b c -> only_logs metrics step a c.
Proof.
  intros [Hf [Hg [ev [Ht Hall]]]] [Hf' [Hg' [ev' [Ht' Hall']]]].
  split; [congruence|]. split; [congruence|].
  exists (ev ++ ev'). split; [rewrite Ht', Ht, app_assoc; reflexivity|].
  apply Forall_app. split; assumption.
Qed.

Lemma only_logs_emit metrics step e (w : world Blob) r w' :
  logged_at metrics step e -> emit e w = (r, w') -> only_logs metrics step w w'.
Proof.
  intros He H. apply emit_inv in H as [_ [Hf [Hg Ht]]].
  split; [exact Hf|]. split; [exact Hg|].
  exists [e]. split; [exact Ht | repeat constructor; exact He].
Qed.

(** A loop over the session keeps a relation between worlds that each of its
    rounds keeps, however it ends. *)
Lemma foldM_world {A} (body : context -> A -> M Blob context)
  (P : world Blob -> world Blob -> Prop) :
  (forall w, P w w) ->
  (forall a b c, P a b -> P b c -> P a c) ->
  (forall ctx a w r w', body ctx a w = (r, w') -> P w w') ->
  forall l ctx w r w', foldM body l ctx w = (r, w') -> P w w'.
Proof.
  intros Hrefl Htrans Hbody.
  induction l as [|a l IH]; intros ctx w r w' H; simpl in H.
  - unfold ret in H. injection H as _ <-. apply Hrefl.
  - apply bind_inv in H as [[ctx1 [w1 [H1 H]]] | [e [H1 _]]].
    + eapply Htrans; [eapply Hbody; exact H1 | eapply IH; exact H].
    + eapply Hbody; exact H1.
Qed.

Ltac lift_or_stop H x :=
  apply bind_lift_inv in H as [[x [_ H]] | [? [_ [_ ->]]]];
  [|apply only_logs_refl].

Lemma train_unit_logs step exts ctx name (w : world Blob) r w' :
  train_unit step exts ctx name w = (r, w') -> only_logs ["loss"] step w w'.
Proof.
  unfold train_unit. intros H.
  lift_or_stop H config. lift_or_stop H go.
  destruct (negb go); [unfold ret in H; injection H as _ <-; apply only_logs_refl|].
  lift_or_stop H dn. lift_or_stop H ds. lift_or_stop H model. lift_or_stop H res.
  apply bind_inv in H as [[u1 [w1 [H1 H]]] | [e [H1 _]]];
    [|apply emit_inv in H1 as [Habs _]; discriminate].
  apply bind_inv in H as [[u2 [w2 [H2 H]]] | [e [H2 _]]];
    [|apply emit_inv in H2 as [Habs _]; discriminate].
  unfold ret in H. injection H as _ <-.
  eapply only_logs_trans; [eapply only_logs_emit; [|exact H1]; simpl; auto|].
  eapply only_logs_emit; [|exact H2]. exact I.
Qed.

Lemma validate_unit_logs step prs ctx validator (w : world Blob) r w' :
  validate_unit step prs ctx validator w = (r, w') ->
  only_logs ["psnr"; "ssim"; "hd-sr"] step w w'.
Proof.
  unfold validate_unit. intros H.
  lift_or_stop H go.
  destruct (negb go); [unfold ret in H; injection H as _ <-; apply only_logs_refl|].
  lift_or_stop H dn. lift_or_stop H ds. lift_or_stop H model. lift_or_stop H res.
  lift_or_stop H m. lift_or_stop H images. lift_or_stop H name.
  apply bind_inv in H as [[u1 [w1 [H1 H]]] | [e [H1 _]]];
    [|apply emit_inv in H1 as [Habs _]; discriminate].
  apply bind_inv in H as [[u2 [w2 [H2 H]]] | [e [H2 _]]];
    [|apply emit_inv in H2 as [Habs _]; discriminate].
  apply bind_inv in H as [[u3 [w3 [H3 H]]] | [e [H3 _]]];
    [|apply emit_inv in H3 as [Habs _]; discriminate].
  apply bind_inv in H as [[u4 [w4 [H4 H]]] | [e [H4 _]]];
    [|apply emit_inv in H4 as [Habs _]; discriminate].
  apply bind_inv in H as [[u5 [w5 [H5 H]]] | [e [H5 _]]];
    [|apply emit_inv in H5 as [Habs _]; discriminate].
  unfold ret in H. injection H as _ <-.
  eapply only_logs_trans; [eapply only_logs_emit; [|exact H1]; simpl; auto|].
  eapply only_logs_trans; [eapply only_logs_emit; [|exact H2]; simpl; auto|].
  eapply only_logs_trans; [eapply only_logs_emit; [|exact H3]; simpl; auto|].
  eapply only_logs_trans; [eapply only_logs_emit; [|exact H4]; simpl; exact I|].
  eapply only_logs_emit; [|exact H5]. exact I.
Qed.

Lemma train_logs ctx step (w : world Blob) r w' :
  global_step ctx = Returned step ->
  train ctx w = (r, w') -> only_logs ["loss"] step w w'.
Proof.
  intros Hstep H. unfold train in H. rewrite Hstep in H.
  unfold bind at 1, lift at 1 in H.
  lift_or_stop H m. lift_or_stop H optimizers.
  eapply (foldM_world _ (only_logs ["loss"] step)); [| | |exact H].
  - apply only_logs_refl.
  - apply only_logs_trans.
  - intros. eapply train_unit_logs. eassumption.
Qed.

Lemma validate_logs ctx step (w : world Blob) r w' :
  global_step ctx = Returned step ->
  validate ctx w = (r, w') -> only_logs ["psnr"; "ssim"; "hd-sr"] step w w'.
Proof.
  intros Hstep H. unfold validate in H. rewrite Hstep in H.
  unfold bind at 1, lift at 1 in H.
  lift_or_stop H m. lift_or_stop H validators.
  eapply (foldM_world _ (only_logs ["psnr"; "ssim"; "hd-sr"] step)); [| | |exact H].
  - apply only_logs_refl.
  - apply only_logs_trans.
  - intros. eapply validate_unit_logs. eassumption.
Qed.

(** X9. A call of [train] or of [validate] reads the global step once, at
    its start: every summary the call writes is written under that step,
    also those of the optimizers that train after another optimizer of the
    same call has advanced the count. [train] leaves only [loss] summaries
    and log messages, [validate] only [psnr], [ssim] and [hd-sr] summaries
    and log messages; neither makes a directory, saves weights or writes a
    descriptor, whether the call returns or raises. *)
Theorem train_and_validate_log_under_the_step_at_entry :
  forall ctx step (w : world Blob),
    global_step ctx = Returned step ->
    (forall r w', train ctx w = (r, w') -> only_logs ["loss"] step w w') /\
    (forall r w',
       validate ctx w = (r, w') -> only_logs ["psnr"; "ssim"; "hd-sr"] step w w').
Proof.
  intros ctx step w Hstep. split; intros r w' H.
  - eapply train_logs; eassumption.
  - eapply validate_logs; eassumption.
Qed.

(** ** The step of the session *)

(** The count of an optimizer as [global_step] reads it. *)
Definition count (o : optimizer) : Z := reduce_mean_int (iterations o).

Lemma Zsum_update values :
  Zsum (map (fun a => a + 1) values) = Zsum values + Z.of_nat (List.length values).
Proof.
  induction values as [|a l IH]; [reflexivity|].
  cbn [map Zsum fold_right List.length]. fold (Zsum (map (fun a => a + 1) l)).
  fold (Zsum l). rewrite IH. lia.
Qed.

(** One update moves the count of an optimizer up by one; a counter without
    replica reads 0 before and after. *)
Lemma count_update_step o :
  count (count_update o)
  = count o + match replica_values (iterations o) with [] => 0 | _ => 1 end.
Proof.
  unfold count, count_update. simpl.
  destruct (iterations o) as [a | values]; simpl; [reflexivity|].
  rewrite Zsum_update, length_map.
  destruct values as [|v l]; [reflexivity|].
  set (n := Z.of_nat (List.length (v :: l))).
  assert (Hn : n <> 0) by (unfold n; simpl; lia).
  replace (Zsum (v :: l) + n) with (Zsum (v :: l) + 1 * n) by lia.
  apply Z.div_add. exact Hn.
Qed.

Lemma count_update_le o : count o <= count (count_update o).
Proof.
  rewrite count_update_step. destruct (replica_values (iterations o)); lia.
Qed.

(** The optimizers of a later moment: the same names in the same order,
    no count lower than before. *)
Definition advanced (os os' : list (string * optimizer)) : Prop :=
  Forall2 (fun e e' => fst e' = fst e /\ count (snd e) <= count (snd e')) os os'.

Lemma advanced_refl os : advanced os os.
Proof. induction os; constructor; [split; [reflexivity | lia] | assumption]. Qed.

Lemma advanced_trans a b c : advanced a b -> advanced b c -> advanced a c.
Proof.
  intros Hab. revert c. induction Hab as [|x y a b [Hk Hc] _ IH]; intros c Hbc.
  - inversion Hbc. constructor.
  - inversion Hbc as [|y' z b' c' [Hk' Hc'] Hrest]; subst.
    constructor; [split; [congruence | lia] | apply IH; exact Hrest].
Qed.

Lemma advanced_set k o o' os :
  PyDict.get k os = Some o -> count o <= count o' -> advanced os (PyDict.set k o' os).
Proof.
  intros Hget Hle. induction os as [|[k0 o0] os IH]; simpl in *; [discriminate|].
  destruct (k0 =? k)%string eqn:E.
  - injection Hget as ->. apply String.eqb_eq in E. subst k0.
    constructor; [split; [reflexivity | exact Hle] | apply advanced_refl].
  - constructor; [split; [reflexivity | lia] | apply IH; exact Hget].
Qed.

Lemma advanced_keys os os' : advanced os os' -> map fst os' = map fst os.
Proof.
  induction 1 as [|x y a b [Hk _] _ IH]; simpl; [reflexivity|].
  rewrite Hk, IH. reflexivity.
Qed.

Lemma furthest_advanced os os' :
  advanced os os' ->
  forall start start', start <= start' -> furthest os start <= furthest os' start'.
Proof.
  unfold furthest.
  induction 1 as [|x y a b [_ Hc] _ IH]; intros start start' Hle; simpl; [exact Hle|].
  apply IH. unfold count in Hc. lia.
Qed.

(** What a round of training may change in the session, as far as the step
    is concerned. *)
Definition moved_on (ctx ctx' : context) : Prop :=
  same_descriptor ctx ctx' /\
  forall os, ctx_optimizers ctx = Some os ->
             exists os', ctx_optimizers ctx' = Some os' /\ advanced os os'.

Lemma moved_on_refl ctx : moved_on ctx ctx.
Proof.
  split; [apply same_descriptor_refl|].
  intros os Hos. exists os. split; [exact Hos | apply advanced_refl].
Qed.

Lemma moved_on_trans a b c : moved_on a b -> moved_on b c -> moved_on a c.
Proof.
  intros [Hd Ho] [Hd' Ho']. split; [eapply same_descriptor_trans; eassumption|].
  intros os Hos. destruct (Ho os Hos) as [os1 [Hos1 Ha]].
  destruct (Ho' os1 Hos1) as [os2 [Hos2 Ha']].
  exists os2. split; [exact Hos2 | eapply advanced_trans; eassumption].
Qed.

Lemma global_step_moved_on ctx ctx' s :
  moved_on ctx ctx' ->
  global_step ctx = Returned s ->
  exists s', global_step ctx' = Returned s' /\ s <= s'.
Proof.
  intros [[_ [_ Hbase]] Hos] Hs. unfold global_step in *.
  destruct (ctx_optimizers ctx) as [os|]; [|discriminate].
  destruct (Hos os eq_refl) as [os' [-> Hadv]]. simpl in *. rewrite Hbase.
  destruct (as_int (ctx_global_step ctx)) as [base|]; [|discriminate].
  simpl in *. injection Hs as <-.
  eexists. split; [reflexivity|].
  pose proof (furthest_advanced _ _ Hadv 0 0 (Z.le_refl 0)) as Hle.
  unfold furthest in Hle. lia.
Qed.

Lemma train_unit_moves_on step exts ctx name (w : world Blob) ctx' w' :
  train_unit step exts ctx name w = (Returned ctx', w') -> moved_on ctx ctx'.
Proof.
  intros H. split; [eapply train_unit_keeps; exact H|].
  unfold train_unit in H.
  step_lift H config Hc. step_lift H go Hgo.
  destruct go; simpl in H.
  - step_lift H dn Hdn. step_lift H ds Hds. step_lift H model Hm.
    step_lift H res Hr.
    unfold bind, emit, ret in H. simpl in H. injection H as <- _.
    apply obind_inv in Hr as [[b ctx1] [Hn Hr]].
    apply next_batch_inv in Hn as [n [datasets [rest [_ [_ [_ ->]]]]]].
    destruct res as [loss ctx2]. simpl in Hr |- *.
    apply call_training_adapter_inv in Hr
      as [m [os [o [w0 [o' [_ [Hos [Hget [Hrun ->]]]]]]]]].
    simpl in Hos. intros os0 Hos0. rewrite Hos in Hos0. injection Hos0 as <-.
    simpl. eexists. split; [reflexivity|].
    apply train_one_step_in_graph_counts in Hrun. subst o'.
    eapply advanced_set; [exact Hget | apply count_update_le].
  - unfold ret in H. injection H as <- _. intros os Hos.
    exists os. split; [exact Hos | apply advanced_refl].
Qed.

Lemma train_moves_on ctx (w : world Blob) ctx' w' :
  train ctx w = (Returned ctx', w') -> moved_on ctx ctx'.
Proof.
  unfold train. intros H.
  step_lift H step Hs. step_lift H m Hm. step_lift H os Ho.
  eapply (foldM_keeps _ moved_on moved_on_refl moved_on_trans); [|exact H].
  intros. eapply train_unit_moves_on; eassumption.
Qed.

Lemma round_moves_on ctx (w : world Blob) ctx1 w1 ctx2 w2 ctx3 w3 :
  train ctx w = (Returned ctx1, w1) ->
  validate ctx1 w1 = (Returned ctx2, w2) ->
  save ctx2 w2 = (Returned ctx3, w3) ->
  ctx_global_step ctx3 = ctx_global_step ctx /\
  ctx_strategy ctx3 = ctx_strategy ctx /\
  forall os, ctx_optimizers ctx = Some os ->
             exists os', ctx_optimizers ctx3 = Some os' /\ advanced os os'.
Proof.
  intros H1 H2 H3.
  apply train_moves_on in H1 as [[_ [Hs1 Hg1]] Ho1].
  apply validate_keeps in H2 as [[_ [Hs2 Hg2]] [Ho2 _]].
  destruct (save_keeps _ _ _ _ H3) as [[experiment ->] _]. simpl.
  split; [congruence|]. split; [congruence|].
  intros os Hos. destruct (Ho1 os Hos) as [os' [Hos' Hadv]].
  exists os'. split; [congruence | exact Hadv].
Qed.

Lemma global_step_advanced ctx ctx' s :
  ctx_global_step ctx' = ctx_global_step ctx ->
  (forall os, ctx_optimizers ctx = Some os ->
              exists os', ctx_optimizers ctx' = Some os' /\ advanced os os') ->
  global_step ctx = Returned s ->
  exists s', global_step ctx' = Returned s' /\ s <= s'.
Proof.
  intros Hbase Hos Hs. unfold global_step in *.
  destruct (ctx_optimizers ctx) as [os|]; [|discriminate].
  destruct (Hos os eq_refl) as [os' [-> Hadv]]. simpl in *. rewrite Hbase.
  destruct (as_int (ctx_global_step ctx)) as [base|]; [|discriminate].
  simpl in *. injection Hs as <-.
  eexists. split; [reflexivity|].
  pose proof (furthest_advanced _ _ Hadv 0 0 (Z.le_refl 0)) as Hle.
  unfold furthest in Hle. lia.
Qed.

Lemma rounds_move_on n :
  forall ctx (w : world Blob) ctx' w',
    rounds n ctx w = (Returned ctx', w') ->
    ctx_global_step ctx' = ctx_global_step ctx /\
    ctx_strategy ctx' = ctx_strategy ctx /\
    forall os, ctx_optimizers ctx = Some os ->
               exists os', ctx_optimizers ctx' = Some os' /\ advanced os os'.
Proof.
  induction n as [|n IH]; intros ctx w ctx' w' H; simpl in H.
  - unfold ret in H. injection H as <- _.
    split; [reflexivity|]. split; [reflexivity|].
    intros os Hos. exists os. split; [exact Hos | apply advanced_refl].
  - step_bind H ctx1 w1 H1. step_bind H ctx2 w2 H2. step_bind H ctx3 w3 H3.
    destruct (round_moves_on _ _ _ _ _ _ _ _ H1 H2 H3) as [Hg [Hs Ho]].
    apply IH in H as [Hg' [Hs' Ho']].
    split; [congruence|]. split; [congruence|].
    intros os Hos. destruct (Ho os Hos) as [os1 [Hos1 Ha]].
    destruct (Ho' os1 Hos1) as [os2 [Hos2 Ha']].
    exists os2. split; [exact Hos2 | eapply advanced_trans; eassumption].
Qed.

(** X10. The global step of a session never goes back: a call of [train]
    leaves it where it was or moves it up, [validate] and [save] leave it
    where it was, and so after any number of rounds of the loop it is at
    least what it was before. An update moves the count of its optimizer up
    by exactly one (a counter without replica reads 0 throughout). *)
Theorem global_step_never_decreases :
  forall ctx s,
    global_step ctx = Returned s ->
    (forall (w : world Blob) ctx' w',
       train ctx w = (Returned ctx', w') ->
       exists s', global_step ctx' = Returned s' /\ s <= s') /\
    (forall (w : world Blob) ctx' w',
       validate ctx w = (Returned ctx', w') -> global_step ctx' = Returned s) /\
    (forall (w : world Blob) ctx' w',
       save ctx w = (Returned ctx', w') -> global_step ctx' = Returned s) /\
    (forall n (w : world Blob) ctx' w',
       rounds n ctx w = (Returned ctx', w') ->
       exists s', global_step ctx' = Returned s' /\ s <= s') /\
    (forall o,
       replica_values (iterations o) <> [] ->
       reduce_mean_int (iterations (count_update o))
       = reduce_mean_int (iterations o) + 1).
Proof.
  intros ctx s Hs. split; [|split; [|split; [|split]]].
  - intros w ctx' w' H. apply train_moves_on in H.
    eapply global_step_moved_on; eassumption.
  - intros w ctx' w' H.
    apply validate_keeps in H as [[_ [_ Hg]] [Ho _]].
    unfold global_step in *. rewrite Ho, Hg. exact Hs.
  - intros w ctx' w' H.
    destruct (save_keeps _ _ _ _ H) as [[experiment ->] _]. exact Hs.
  - intros n w ctx' w' H. apply rounds_move_on in H as [Hg [_ Ho]].
    eapply global_step_advanced; eassumption.
  - intros o Hne. pose proof (count_update_step o) as H. unfold count in H.
    rewrite H. destruct (replica_values (iterations o)); [contradiction | reflexivity].
Qed.

(** ** The descriptor a checkpoint writes *)

(** A run of [save] that returns, step by step. *)
Lemma save_inv ctx (w : world Blob) ctx' w' :
  save ctx w = (Returned ctx', w') ->
  (exists step,
     global_step ctx = Returned step /\
     (c <-- subscript (ctx_experiment ctx) "checkpoint" ;; fires c step)
     = Returned false /\
     ctx' = ctx /\ w' = w) \/
  (exists step e1 mc pcs pcs' w1 e2 ocs ocs' e3 dir,
     global_step ctx = Returned step /\
     (c <-- subscript (ctx_experiment ctx) "checkpoint" ;; fires c step)
     = Returned true /\
     assign (ctx_experiment ctx) "global_step" (YInt step) = Returned e1 /\
     subscript e1 "models" = Returned mc /\
     (p <-- subscript mc "principals" ;; items p) = Returned pcs /\
     mapM (save_principal ctx e1 step) pcs w = (Returned pcs', w1) /\
     (m <-- assign mc "principals" (YDict pcs') ;; assign e1 "models" m)
     = Returned e2 /\
     (o <-- subscript e2 "optimizers" ;; items o) = Returned ocs /\
     omap (snapshot_optimizer ctx) ocs = Returned ocs' /\
     assign e2 "optimizers" (YDict ocs') = Returned e3 /\
     checkpoint_dir e3 = Returned dir /\
     write_descriptor (path_join dir (step_file_name step "checkpoint.yaml")) e3 w1
     = (Returned tt, w') /\
     ctx' = set_experiment ctx e3).
Proof.
  unfold save. intros H.
  step_lift H step Hstep. step_lift H go Hgo.
  destruct go; simpl in H.
  2:{ unfold ret in H. injection H as <- <-. left. exists step. repeat split; assumption. }
  step_lift H e1 He1. step_lift H mc Hmc. step_lift H pcs Hpcs.
  step_bind H pcs' w1 Hmap.
  step_lift H e2 He2. step_lift H ocs Hocs. step_lift H ocs' Hocs'.
  step_lift H e3 He3. step_lift H dir Hdir.
  step_bind H u w2 Hdesc. destruct u.
  unfold ret in H. injection H as <- <-.
  right. exists step, e1, mc, pcs, pcs', w1, e2, ocs, ocs', e3, dir.
  repeat split; assumption.
Qed.

Lemma snapshot_optimizer_inv ctx item item' :
  snapshot_optimizer ctx item = Returned item' ->
  exists optimizers o,
    ctx_optimizers ctx = Some optimizers /\
    PyDict.get (fst item) optimizers = Some o /\
    fst item' = fst item /\
    assign (snd item) "config" (keras_config (hyper o)) = Returned (snd item').
Proof.
  unfold snapshot_optimizer. intros H.
  apply obind_inv in H as [optimizers [Ho H]].
  apply obind_inv in H as [o [Hget H]].
  apply obind_inv in H as [config [Hc H]].
  injection H as <-.
  destruct (ctx_optimizers ctx) as [os|]; [|discriminate]. injection Ho as ->.
  unfold lookup_key in Hget.
  destruct (PyDict.get (fst item) optimizers) as [o0|] eqn:Hg; [|discriminate].
  injection Hget as ->.
  exists optimizers, o. repeat split; assumption.
Qed.

(** Entries rewritten one by one keep their keys, so that what is found
    under a key is the rewritten entry of what was found there. *)
Lemma get_rewritten {A B} (R : string * A -> string * B -> Prop) l l' k v :
  Forall2 (fun a b => fst b = fst a /\ R a b) l l' ->
  PyDict.get k l = Some v ->
  exists v', PyDict.get k l' = Some v' /\ R (k, v) (k, v').
Proof.
  induction 1 as [|[k0 a] [k0' b] l l' [Hk Hr] _ IH]; simpl; [discriminate|].
  simpl in Hk. subst k0'.
  destruct (String.eqb_spec k0 k) as [-> | Hne].
  - intros Hv. injection Hv as <-. exists b. split; [reflexivity | exact Hr].
  - exact IH.
Qed.

Lemma snapshots_keep_keys ctx ocs ocs' :
  omap (snapshot_optimizer ctx) ocs = Returned ocs' ->
  Forall2 (fun a b => fst b = fst a /\
                      exists o optimizers,
                        ctx_optimizers ctx = Some optimizers /\
                        PyDict.get (fst a) optimizers = Some o /\
                        assign (snd a) "config" (keras_config (hyper o))
                        = Returned (snd b)) ocs ocs'.
Proof.
  intros H. apply omap_inv in H.
  induction H as [|a b ocs ocs' Hone _ IH]; [constructor|].
  constructor; [|exact IH].
  apply snapshot_optimizer_inv in Hone as [optimizers [o [Ho [Hg [Hk Ha]]]]].
  split; [exact Hk|]. exists o, optimizers. repeat split; assumption.
Qed.

(** ** A step at which no optimizer trains *)

(** The gate of the optimizer [name] at a step (lines 416-418). *)
Definition gate_of (ctx : context) (name : string) (step : Z) : outcome bool :=
  config <-- (o <-- subscript (ctx_experiment ctx) "optimizers" ;; subscript o name) ;;
  fires config step.

(** The gate of every optimizer of the session is closed at [step]. *)
Definition no_optimizer_fires (ctx : context) (step : Z) : Prop :=
  forall os name,
    ctx_optimizers ctx = Some os -> In name (map fst os) ->
    gate_of ctx name step = Returned false.

Lemma foldM_idle {A} (body : context -> A -> M Blob context) ctx (w : world Blob) l :
  (forall a, In a l -> body ctx a w = (Returned ctx, w)) ->
  foldM body l ctx w = (Returned ctx, w).
Proof.
  induction l as [|a l IH]; intros Hbody; simpl; [reflexivity|].
  unfold bind. rewrite (Hbody a (or_introl eq_refl)).
  apply IH. intros b Hb. apply Hbody. right. exact Hb.
Qed.

Lemma train_unit_idle step exts ctx name (w : world Blob) :
  gate_of ctx name step = Returned false ->
  train_unit step exts ctx name w = (Returned ctx, w).
Proof.
  unfold gate_of. intros H.
  apply obind_inv in H as [config [Hc Hf]].
  unfold train_unit. rewrite Hc. unfold bind at 1, lift at 1.
  rewrite Hf. reflexivity.
Qed.

Lemma train_idle ctx step (w : world Blob) :
  global_step ctx = Returned step ->
  ctx_models ctx <> None ->
  no_optimizer_fires ctx step ->
  train ctx w = (Returned ctx, w).
Proof.
  intros Hs Hm Hclosed. unfold train. rewrite Hs.
  unfold bind at 1, lift at 1.
  destruct (ctx_models ctx) as [m|]; [|contradiction].
  unfold bind at 1, lift at 1. simpl entry.
  assert (Hos : exists os, ctx_optimizers ctx = Some os).
  { unfold global_step in Hs. destruct (ctx_optimizers ctx) as [os|]; [|discriminate].
    exists os. reflexivity. }
  destruct Hos as [os Hos]. rewrite Hos. unfold bind at 1, lift at 1. simpl entry.
  apply foldM_idle. intros name Hin. apply train_unit_idle.
  apply (Hclosed os name Hos Hin).
Qed.

Lemma fires_assign config k v config' step :
  assign config k v = Returned config' -> k <> "cycle"%string ->
  fires config' step = fires config step.
Proof.
  intros Ha Hk. unfold fires.
  rewrite (subscript_assign_other _ _ _ _ "cycle" Ha) by congruence. reflexivity.
Qed.

Lemma gate_after_save ctx (w : world Blob) ctx' w' name step :
  save ctx w = (Returned ctx', w') ->
  gate_of ctx name step = Returned false ->
  gate_of ctx' name step = Returned false.
Proof.
  intros H Hgate.
  apply save_inv in H as [(s & _ & _ & -> & _) | H]; [exact Hgate|].
  destruct H as (s & e1 & mc & pcs & pcs' & w1 & e2 & ocs & ocs' & e3 & dir & H).
  destruct H as (_ & _ & He1 & _ & _ & _ & He2 & Hocs & Hocs' & He3 & _ & _ & ->).
  unfold gate_of in *. simpl.
  rewrite (subscript_assign_same _ _ _ _ He3). simpl.
  apply obind_inv in He2 as [mc' [_ He2]].
  rewrite (subscript_assign_other _ _ _ _ "optimizers" He2) in Hocs by discriminate.
  rewrite (subscript_assign_other _ _ _ _ "optimizers" He1) in Hocs by discriminate.
  apply obind_inv in Hocs as [o [Ho Hitems]].
  rewrite Ho in Hgate. simpl in Hgate.
  destruct o; try discriminate. simpl in Hitems. injection Hitems as ->.
  apply obind_inv in Hgate as [config [Hc Hf]]. simpl in Hc.
  destruct (PyDict.get name ocs) as [cfg|] eqn:Hget; [|discriminate].
  injection Hc as ->.
  destruct (get_rewritten _ _ _ _ _ (snapshots_keep_keys _ _ _ Hocs') Hget)
    as [config' [Hget' [o [os [_ [_ Ha]]]]]].
  rewrite Hget'. simpl in Ha |- *.
  rewrite (fires_assign _ _ _ _ step Ha) by discriminate. exact Hf.
Qed.

(** X11. At a step at which the gate of every optimizer is closed, [train]
    does nothing at all; [validate] and [save] do not move the step and
    keep the cycles, so the session stays at that step for good: after any
    number of rounds of the loop the step, the optimizers and the variables
    of the models are what they were, and the gates are still closed. *)
Theorem training_stalls_when_no_optimizer_fires :
  forall ctx step,
    global_step ctx = Returned step ->
    ctx_models ctx <> None ->
    no_optimizer_fires ctx step ->
    (forall w : world Blob, train ctx w = (Returned ctx, w)) /\
    (forall n (w : world Blob) ctx' w',
       rounds n ctx w = (Returned ctx', w') ->
       global_step ctx' = Returned step /\
       ctx_optimizers ctx' = ctx_optimizers ctx /\
       ctx_models ctx' = ctx_models ctx /\
       no_optimizer_fires ctx' step).
Proof.
  intros ctx step Hs Hm Hclosed.
  split; [intros w; apply (train_idle ctx step); assumption|].
  intros n. revert ctx Hs Hm Hclosed.
  induction n as [|n IH]; intros ctx Hs Hm Hclosed w ctx' w' H; simpl in H.
  - unfold ret in H. injection H as <- _. repeat split; assumption.
  - unfold bind at 1 in H. rewrite (train_idle ctx step w Hs Hm Hclosed) in H.
    step_bind H ctx2 w2 H2. step_bind H ctx3 w3 H3.
    pose proof (validate_keeps _ _ _ _ H2) as [[He2 [_ Hg2]] [Ho2 Hm2]].
    destruct (save_keeps _ _ _ _ H3) as [[experiment Hctx3] _].
    assert (Hs2 : global_step ctx2 = Returned step)
      by (unfold global_step in *; rewrite Ho2, Hg2; exact Hs).
    assert (Hclosed2 : no_optimizer_fires ctx2 step).
    { intros os name Hos Hin. unfold gate_of. rewrite He2.
      apply (Hclosed os name); [congruence | exact Hin]. }
    assert (Hs3 : global_step ctx3 = Returned step) by (subst ctx3; exact Hs2).
    assert (Ho3 : ctx_optimizers ctx3 = ctx_optimizers ctx2) by (subst ctx3; reflexivity).
    assert (Hm3 : ctx_models ctx3 = ctx_models ctx2) by (subst ctx3; reflexivity).
    assert (Hclosed3 : no_optimizer_fires ctx3 step).
    { intros os name Hos Hin. eapply gate_after_save; [exact H3|].
      apply (Hclosed2 os name); [congruence | exact Hin]. }
    assert (Hm3' : ctx_models ctx3 <> None) by congruence.
    destruct (IH ctx3 Hs3 Hm3' Hclosed3 _ _ _ H) as [Hs' [Ho' [Hm' Hc']]].
    split; [exact Hs'|]. split; [congruence|]. split; [congruence | exact Hc'].
Qed.

Lemma save_fired_inv ctx (w : world Blob) ctx' w' step :
  save ctx w = (Returned ctx', w') ->
  global_step ctx = Returned step ->
  (c <-- subscript (ctx_experiment ctx) "checkpoint" ;; fires c step) = Returned true ->
  exists e1 mc pcs pcs' w1 e2 ocs ocs' e3 dir,
    assign (ctx_experiment ctx) "global_step" (YInt step) = Returned e1 /\
    subscript e1 "models" = Returned mc /\
    (p <-- subscript mc "principals" ;; items p) = Returned pcs /\
    mapM (save_principal ctx e1 step) pcs w = (Returned pcs', w1) /\
    (m <-- assign mc "principals" (YDict pcs') ;; assign e1 "models" m) = Returned e2 /\
    (o <-- subscript e2 "optimizers" ;; items o) = Returned ocs /\
    omap (snapshot_optimizer ctx) ocs = Returned ocs' /\
    assign e2 "optimizers" (YDict ocs') = Returned e3 /\
    checkpoint_dir e3 = Returned dir /\
    write_descriptor (path_join dir (step_file_name step "checkpoint.yaml")) e3 w1
    = (Returned tt, w') /\
    ctx' = set_experiment ctx e3.
Proof.
  intros H Hs Hgo.
  apply save_inv in H as [(s & Hs' & Hgo' & _) | H].
  - rewrite Hs in Hs'. injection Hs' as <-. rewrite Hgo in Hgo'. discriminate.
  - destruct H as (s & e1 & mc & pcs & pcs' & w1 & e2 & ocs & ocs' & e3 & dir & Hs' & _ & H).
    rewrite Hs in Hs'. injection Hs' as <-.
    exists e1, mc, pcs, pcs', w1, e2, ocs, ocs', e3, dir. exact H.
Qed.

(** X12. A checkpoint keeps the configuration of every optimizer: in the
    descriptor [save] writes, the entry of an optimizer is its entry of
    before with [config] set to what [get_config()] reports, and
    [build_optimizer] on that entry builds an Adam optimizer with exactly
    that configuration, whatever [learning_rate] the entry carries. Its
    counter starts again at 0: the count of the session lives on in the
    descriptor's [global_step] only. *)
Theorem checkpoint_restores_optimizer_configuration :
  forall ctx (w : world Blob) ctx' w' step name config,
    save ctx w = (Returned ctx', w') ->
    global_step ctx = Returned step ->
    (c <-- subscript (ctx_experiment ctx) "checkpoint" ;; fires c step) = Returned true ->
    (o <-- subscript (ctx_experiment ctx) "optimizers" ;; subscript o name)
    = Returned config ->
    exists optimizers o config',
      ctx_optimizers ctx = Some optimizers /\
      PyDict.get name optimizers = Some o /\
      (o <-- subscript (ctx_experiment ctx') "optimizers" ;; subscript o name)
      = Returned config' /\
      assign config "config" (keras_config (hyper o)) = Returned config' /\
      (forall s c k,
         keras_config (hyper o) = YDict c -> c <> [] ->
         subscript config "optimizer" = Returned (YStr k) ->
         lower k = "adam"%string ->
         build_optimizer s config'
         = Returned {| iterations := mirrored s 0; hyper := YDict c |}).
Proof.
  intros ctx w ctx' w' step name config H Hs Hgo Hcfg.
  apply (save_fired_inv _ _ _ _ _ H Hs) in Hgo
    as (e1 & mc & pcs & pcs' & w1 & e2 & ocs & ocs' & e3 & dir & Hgo).
  destruct Hgo as (He1 & _ & _ & _ & He2 & Hocs & Hocs' & He3 & _ & _ & ->).
  apply obind_inv in He2 as [mc' [_ He2]].
  rewrite (subscript_assign_other _ _ _ _ "optimizers" He2) in Hocs by discriminate.
  rewrite (subscript_assign_other _ _ _ _ "optimizers" He1) in Hocs by discriminate.
  apply obind_inv in Hocs as [o [Ho Hitems]].
  rewrite Ho in Hcfg. simpl in Hcfg.
  destruct o; try discriminate. simpl in Hitems. injection Hitems as ->.
  simpl in Hcfg.
  destruct (PyDict.get name ocs) as [cfg|] eqn:Hget; [|discriminate].
  injection Hcfg as ->.
  destruct (get_rewritten _ _ _ _ _ (snapshots_keep_keys _ _ _ Hocs') Hget)
    as [config' [Hget' [o [os [Hos [Hgo Ha]]]]]].
  simpl in Hgo, Ha.
  exists os, o, config'.
  split; [exact Hos|]. split; [exact Hgo|]. split.
  { simpl. rewrite (subscript_assign_same _ _ _ _ He3). simpl. rewrite Hget'.
    reflexivity. }
  split; [exact Ha|].
  intros s c k Hc Hne Hk Hadam.
  destruct config as [| | | | | |d]; try discriminate.
  simpl in Ha. injection Ha as <-. simpl in Hk.
  destruct (PyDict.get "optimizer" d) as [v|] eqn:Hopt; [|discriminate].
  injection Hk as ->.
  rewrite (build_optimizer_mapping s _ k).
  - rewrite Hadam. simpl. rewrite get_set_same, Hc.
    destruct c; [contradiction | reflexivity].
  - rewrite get_set_other by discriminate. exact Hopt.
Qed.

Lemma lookup_written path f (fs0 : filesystem Blob) :
  lookup path ((path, File f) :: fs0) = Some (File f).
Proof. simpl. rewrite String.eqb_refl. reflexivity. Qed.

Lemma load_experiment_step path (w : world Blob) document step ctx w' :
  lookup path (fs w) = Some (File (YamlFile document)) ->
  subscript document "global_step" = Returned (YInt step) ->
  load_experiment path w = (Returned ctx, w') ->
  ctx_global_step ctx = YInt step.
Proof.
  intros Hfile Hstep H.
  apply load_experiment_inv in H
    as (document' & has_step & e1 & n & e2 & cdir & sdir & w3 & strat & s & H).
  destruct H as (Hfile' & _ & Hhs & He1 & _ & He2 & _ & _ & _ & _ & Hs & -> & _).
  rewrite Hfile in Hfile'. injection Hfile' as <-.
  destruct document as [| | | | | |d]; try discriminate.
  simpl in Hstep, Hhs. unfold PyDict.in_ in Hhs.
  destruct (PyDict.get "global_step" d) as [v|] eqn:Hget; [|discriminate].
  injection Hstep as ->. injection Hhs as <-. injection He1 as <-.
  assert (Hkeep : subscript e2 "global_step" = Returned (YInt step)).
  { apply (resolve_experiment_keeps_int (YDict d) (YStr n)); [exact He2|].
    simpl. rewrite Hget. reflexivity. }
  rewrite Hkeep in Hs. injection Hs as <-. reflexivity.
Qed.

Lemma has_true_field_set section field k v d :
  k <> section ->
  has_true_field section field (PyDict.set k v d) = has_true_field section field d.
Proof.
  intros Hk. unfold has_true_field. rewrite get_set_other by congruence. reflexivity.
Qed.

(** X13. A checkpoint can be resumed: the descriptor [save] writes is a file
    [load_experiment] reads back as written, its [global_step] is the step
    of the checkpoint, and every session [load_experiment] returns from it
    starts with that step as its offset. When the descriptor of the session
    had its name and true [summary.path] and [checkpoint.path], so has the
    checkpoint, and [load_experiment] does not refuse it. *)
Theorem checkpoint_loads_at_the_saved_step :
  forall ctx (w : world Blob) ctx' w' step,
    save ctx w = (Returned ctx', w') ->
    global_step ctx = Returned step ->
    (c <-- subscript (ctx_experiment ctx) "checkpoint" ;; fires c step) = Returned true ->
    exists dir,
      checkpoint_dir (ctx_experiment ctx) = Returned dir /\
      lookup (path_join dir (step_file_name step "checkpoint.yaml")) (fs w')
      = Some (File (YamlFile (ctx_experiment ctx'))) /\
      subscript (ctx_experiment ctx') "global_step" = Returned (YInt step) /\
      (forall ctx2 w2,
         load_experiment (path_join dir (step_file_name step "checkpoint.yaml")) w'
         = (Returned ctx2, w2) ->
         ctx_global_step ctx2 = YInt step) /\
      (forall d,
         ctx_experiment ctx = YDict d ->
         sections_are_mappings d ->
         PyDict.in_ "name" d = true ->
         has_true_field "summary" "path" d = true ->
         has_true_field "checkpoint" "path" d = true ->
         forall msg,
           fst (load_experiment (path_join dir (step_file_name step "checkpoint.yaml")) w')
           <> Raised (ValueError msg)).
Proof.
  intros ctx w ctx' w' step H Hs Hgo.
  apply (save_fired_inv _ _ _ _ _ H Hs) in Hgo
    as (e1 & mc & pcs & pcs' & w1 & e2 & ocs & ocs' & e3 & dir & Hgo).
  destruct Hgo as (He1 & _ & _ & _ & He2 & _ & _ & He3 & Hdir & Hw & ->).
  apply obind_inv in He2 as [mc' [_ He2]].
  exists dir. simpl.
  assert (Hdir0 : checkpoint_dir (ctx_experiment ctx) = Returned dir).
  { rewrite <- (checkpoint_dir_assign _ _ _ _ He1) by discriminate.
    rewrite <- (checkpoint_dir_assign _ _ _ _ He2) by discriminate.
    rewrite <- (checkpoint_dir_assign _ _ _ _ He3) by discriminate.
    exact Hdir. }
  assert (Hstep3 : subscript e3 "global_step" = Returned (YInt step)).
  { rewrite (subscript_assign_other _ _ _ _ "global_step" He3) by discriminate.
    rewrite (subscript_assign_other _ _ _ _ "global_step" He2) by discriminate.
    exact (subscript_assign_same _ _ _ _ He1). }
  assert (Hfile : lookup (path_join dir (step_file_name step "checkpoint.yaml")) (fs w')
                  = Some (File (YamlFile e3))).
  { apply write_descriptor_inv in Hw as [[_ [Hfs _]] | [e [Habs _]]]; [|discriminate].
    rewrite Hfs. apply lookup_written. }
  split; [exact Hdir0|]. split; [exact Hfile|]. split; [exact Hstep3|]. split.
  - intros ctx2 w2 Hload. eapply load_experiment_step; eassumption.
  - intros d Hd Hmaps Hname Hsum Hcp msg Hmsg.
    rewrite Hd in He1. simpl in He1. injection He1 as <-.
    simpl in He2. injection He2 as <-. simpl in He3. injection He3 as <-.
    set (d3 := PyDict.set "optimizers" (YDict ocs')
                 (PyDict.set "models" mc'
                    (PyDict.set "global_step" (YInt step) d))) in *.
    assert (Hget : forall k,
               k <> "optimizers"%string -> k <> "models"%string ->
               k <> "global_step"%string -> PyDict.get k d3 = PyDict.get k d).
    { intros k H1 H2 H3. unfold d3. rewrite !get_set_other by congruence. reflexivity. }
    assert (Hmaps3 : sections_are_mappings d3).
    { intros k v Hk Hv. apply (Hmaps k v Hk).
      rewrite <- Hget; [exact Hv | | |]; destruct Hk as [-> | ->]; discriminate. }
    destruct (load_experiment_value_error _ _ d3 Hfile Hmaps3) as [Hforward _].
    destruct (Hforward (ex_intro _ msg Hmsg)) as [Hn | [Hn | Hn]].
    + unfold PyDict.in_ in Hn, Hname. rewrite Hget in Hn by discriminate. congruence.
    + unfold d3 in Hn. rewrite !has_true_field_set in Hn by discriminate. congruence.
    + unfold d3 in Hn. rewrite !has_true_field_set in Hn by discriminate. congruence.
Qed.

(** ** The names of checkpoint files *)

Lemma string_length_append (a b : string) :
  String.length (a ++ b) = (String.length a + String.length b)%nat.
Proof. induction a as [|c a IH]; simpl; [reflexivity | rewrite IH; reflexivity]. Qed.

Lemma string_append_inv_head (a x y : string) : (a ++ x = a ++ y)%string -> x = y.
Proof.
  induction a as [|c a IH]; simpl; intros H; [exact H|].
  injection H as H. apply IH. exact H.
Qed.

Lemma step_file_name_relative n sfx :
  0 <= n < 10 ^ 16 -> PyStr.startswith "/" (step_file_name n sfx) = false.
Proof.
  intros Hn. destruct (step_file_name_digits n sfx Hn) as (d & Hsize & _ & ->).
  destruct d; simpl in Hsize; try lia; reflexivity.
Qed.

Lemma path_join_inj dir x y :
  PyStr.startswith "/" x = false -> PyStr.startswith "/" y = false ->
  path_join dir x = path_join dir y -> x = y.
Proof.
  unfold path_join. intros -> ->.
  destruct ((dir =? "")%string || PyStr.endswith "/" dir); intros H.
  - apply string_append_inv_head in H. exact H.
  - apply string_append_inv_head in H. apply (string_append_inv_head "/") in H.
    exact H.
Qed.

(** X14. The files of a checkpoint carry its step in a fixed width: for
    steps of at most sixteen digits the name is the sixteen digits of the
    step, an underscore and the suffix, names compare as their steps do, and
    the files of two different steps in one directory are different files,
    so that a checkpoint never overwrites the files of another step. *)
Theorem checkpoints_of_different_steps_are_different_files :
  forall (a b : Z) (suffix dir : string),
    0 <= a < 10 ^ 16 -> 0 <= b < 10 ^ 16 ->
    String.length (step_file_name a suffix) = (17 + String.length suffix)%nat /\
    String.compare (step_file_name a suffix) (step_file_name b suffix) = Z.compare a b /\
    (step_file_name a suffix = step_file_name b suffix -> a = b) /\
    (a <> b ->
     path_join dir (step_file_name a suffix) <> path_join dir (step_file_name b suffix)).
Proof.
  intros a b suffix dir Ha Hb.
  assert (Hinj : step_file_name a suffix = step_file_name b suffix -> a = b).
  { intros Heq. apply Z.compare_eq.
    rewrite <- (step_file_name_compare a b suffix Ha Hb), Heq.
    apply string_compare_refl. }
  split; [|split; [|split]].
  - destruct (step_file_name_digits a suffix Ha) as (d & Hsize & _ & ->).
    rewrite string_length_append, sou_length, Hsize. reflexivity.
  - apply step_file_name_compare; assumption.
  - exact Hinj.
  - intros Hne Heq. apply Hne, Hinj.
    apply (path_join_inj dir); [| |exact Heq]; apply step_file_name_relative; assumption.
Qed.

(** ** The training adapters build_models keeps *)

(** The optimizer of the descriptor entry [item] trains the extension model
    [e]. *)
Definition trains (e : string) (item : string * yaml) : bool :=
  match subscript (snd item) "extension_model" with
  | Returned (YStr m) => (m =? e)%string
  | _ => false
  end.

(** The last entry of the descriptor whose optimizer trains [e]. *)
Definition last_trainer (e : string) (configs : list (string * yaml))
  : option (string * yaml) :=
  hd_error (rev (filter (trains e) configs)).

(** The adapter [build_models] builds for an entry (lines 367-372). *)
Definition adapter_of (s : strategy) (num_gpus : Z) (m : models) (e : string)
  (item : string * yaml) (a : training_adapter) : Prop :=
  ta_optimizer a = fst item /\
  ta_strategy a = s /\
  ta_num_replicas a = num_gpus /\
  PyDict.get e (extensions m) = Some (ta_base_model a) /\
  (d <-- subscript (snd item) "dataset" ;; subscript d "input_indices")
  = Returned (ta_index_inputs a).

Lemma build_optimizer_unit_models num_gpus ctx item ctx' :
  build_optimizer_unit num_gpus ctx item = Returned ctx' ->
  exists m m' e a,
    ctx_models ctx = Some m /\
    ctx_models ctx' = Some m' /\
    ctx_strategy ctx' = ctx_strategy ctx /\
    extensions m' = extensions m /\
    subscript (snd item) "extension_model" = Returned (YStr e) /\
    adapter_of (ctx_strategy ctx) num_gpus m e item a /\
    strategic_extensions m' = PyDict.set e a (strategic_extensions m) /\
    principals m' = principals m /\
    strategic_principals m' = strategic_principals m.
Proof.
  unfold build_optimizer_unit. intros H.
  apply obind_inv in H as [m [Hm H]].
  apply obind_inv in H as [model_name [Hmn H]].
  apply obind_inv in H as [model [Hmodel H]].
  apply obind_inv in H as [datasets [Hds H]].
  apply obind_inv in H as [dataset_name [Hdn H]].
  apply obind_inv in H as [dataset [Hd H]].
  apply obind_inv in H as [o [Ho H]].
  apply obind_inv in H as [optimizers [Hos H]].
  apply obind_inv in H as [index_inputs [Hii H]].
  apply obind_inv in H as [[b ctx1] [Hnext H]].
  apply obind_inv in H as [[loss ctx2] [Hcall H]].
  apply obind_inv in H as [m2 [Hm2 H]].
  apply obind_inv in H as [model_key [Hkey H]].
  injection H as <-.
  destruct (ctx_models ctx) as [m0|] eqn:Hcm; [|discriminate].
  simpl in Hm. injection Hm as ->.
  destruct model_name as [| | | |e| |]; try discriminate.
  simpl in Hkey. injection Hkey as <-.
  apply next_batch_inv in Hnext as [dn [datasets' [rest [-> [_ [_ ->]]]]]].
  simpl in Hcall.
  apply call_training_adapter_inv in Hcall
    as [m3 [os3 [o3 [w3 [o3' [Hm3 [_ [_ [_ ->]]]]]]]]].
  simpl in Hm3. rewrite Hcm in Hm3. injection Hm3 as <-.
  simpl in Hm2. injection Hm2 as <-.
  simpl in Hmodel. unfold lookup_key in Hmodel.
  destruct (PyDict.get e (extensions m)) as [f|] eqn:Hf; [|discriminate].
  injection Hmodel as ->.
  eexists m, _, e, _. simpl.
  split; [reflexivity|]. split; [reflexivity|]. split; [reflexivity|].
  split; [reflexivity|]. split; [exact Hmn|]. split; [|repeat split].
  unfold adapter_of. simpl. repeat split; assumption.
Qed.

Lemma rev_filter_cons {A} (f : A -> bool) a l :
  rev (filter f (a :: l)) = rev (filter f l) ++ (if f a then [a] else []).
Proof. simpl. destruct (f a); simpl; [reflexivity | rewrite app_nil_r; reflexivity]. Qed.

Lemma adapters_of_the_last_trainers num_gpus :
  forall configs ctx ctx' m,
    ofold (build_optimizer_unit num_gpus) configs ctx = Returned ctx' ->
    ctx_models ctx = Some m ->
    exists m',
      ctx_models ctx' = Some m' /\
      extensions m' = extensions m /\
      forall e,
        match last_trainer e configs with
        | Some item =>
            exists a, PyDict.get e (strategic_extensions m') = Some a /\
                      adapter_of (ctx_strategy ctx) num_gpus m e item a
        | None =>
            PyDict.get e (strategic_extensions m')
            = PyDict.get e (strategic_extensions m)
        end.
Proof.
  induction configs as [|item configs IH]; intros ctx ctx' m H Hm; simpl in H.
  - injection H as <-. exists m. split; [exact Hm|]. split; [reflexivity|].
    intros e. reflexivity.
  - apply obind_inv in H as [ctx1 [Hone H]].
    apply build_optimizer_unit_models in Hone
      as (m0 & m1 & e0 & a0 & Hm0 & Hm1 & Hs1 & Hx1 & He0 & Ha0 & Hse1 & _ & _).
    rewrite Hm in Hm0. injection Hm0 as <-.
    destruct (IH _ _ _ H Hm1) as (m' & Hm' & Hx' & Hall).
    exists m'. split; [exact Hm'|]. split; [congruence|].
    intros e. specialize (Hall e). unfold last_trainer in *.
    rewrite rev_filter_cons.
    destruct (rev (filter (trains e) configs)) as [|item' rest]; simpl in *.
    + rewrite Hall, Hse1, get_set_cases. unfold trains. rewrite He0.
      destruct (String.eqb_spec e0 e) as [-> | Hne]; simpl.
      * exists a0. split; [reflexivity | exact Ha0].
      * reflexivity.
    + destruct Hall as [a [Hget Ha]]. exists a. split; [exact Hget|].
      unfold adapter_of in *. rewrite Hs1, Hx1 in Ha. exact Ha.
Qed.

(** The loops over the validators and over the weight files keep the
    training adapters. *)
Definition same_adapters (ctx ctx' : context) : Prop :=
  forall m, ctx_models ctx = Some m ->
            exists m', ctx_models ctx' = Some m' /\
                       strategic_extensions m' = strategic_extensions m /\
                       extensions m' = extensions m.

Lemma same_adapters_refl ctx : same_adapters ctx ctx.
Proof. intros m Hm. exists m. split; [exact Hm | split; reflexivity]. Qed.

Lemma same_adapters_trans a b c :
  same_adapters a b -> same_adapters b c -> same_adapters a c.
Proof.
  intros Hab Hbc m Hm. destruct (Hab m Hm) as [m1 [Hm1 [H1 H1']]].
  destruct (Hbc m1 Hm1) as [m2 [Hm2 [H2 H2']]].
  exists m2. split; [exact Hm2 | split; congruence].
Qed.

Lemma build_validator_unit_adapters ctx validator ctx' :
  build_validator_unit ctx validator = Returned ctx' -> same_adapters ctx ctx'.
Proof.
  unfold build_validator_unit. intros H.
  apply obind_inv in H as [m [Hm H]].
  apply obind_inv in H as [model_name [_ H]].
  apply obind_inv in H as [model [_ H]].
  apply obind_inv in H as [ii [_ H]].
  apply obind_inv in H as [ih [_ H]].
  apply obind_inv in H as [model_key [_ H]].
  injection H as <-. intros m0 Hm0. rewrite Hm0 in Hm. injection Hm as <-.
  eexists. repeat split.
Qed.

Lemma load_weights_unit_adapters fs0 ctx item ctx' :
  load_weights_unit fs0 ctx item = Returned ctx' -> same_adapters ctx ctx'.
Proof.
  unfold load_weights_unit. intros H.
  apply obind_inv in H as [found [_ H]].
  destruct found as [path|]; [|injection H as <-; apply same_adapters_refl].
  apply obind_inv in H as [m [Hm H]].
  apply obind_inv in H as [p [_ H]].
  destruct (lookup path fs0) as [[[d | blob |] |] |]; try discriminate.
  injection H as <-. intros m0 Hm0. rewrite Hm0 in Hm. injection Hm as <-.
  eexists. repeat split.
Qed.

Lemma last_trainer_exists e name config configs :
  In (name, config) configs ->
  subscript config "extension_model" = Returned (YStr e) ->
  exists item, last_trainer e configs = Some item /\ trains e item = true.
Proof.
  intros Hin He. unfold last_trainer.
  assert (Hf : In (name, config) (filter (trains e) configs)).
  { apply filter_In. split; [exact Hin|]. unfold trains. simpl. rewrite He.
    apply String.eqb_refl. }
  apply in_rev in Hf.
  destruct (rev (filter (trains e) configs)) as [|item rest] eqn:Hr; [contradiction|].
  exists item. split; [reflexivity|].
  assert (Hitem : In item (filter (trains e) configs))
    by (apply in_rev; rewrite Hr; left; reflexivity).
  apply filter_In in Hitem as [_ Hitem]. exact Hitem.
Qed.

(** X15. [build_models] keeps the training adapters under the name of the
    extension model they train, one per model: when it returns, the adapter
    of an extension model is the one built for the last optimizer of the
    descriptor that trains the model, with that optimizer, the strategy of
    the session, the number of logical GPUs as number of replicas and the
    input indices of that optimizer's dataset. A model no optimizer trains
    has no adapter; every optimizer's model has one, which is its own only
    when no later optimizer trains the same model. *)
Theorem build_models_keeps_the_adapter_of_the_last_trainer :
  forall ctx (w : world Blob) ctx' w' configs,
    build_models ctx w = (Returned ctx', w') ->
    (o <-- subscript (ctx_experiment ctx) "optimizers" ;; items o) = Returned configs ->
    exists m',
      ctx_models ctx' = Some m' /\
      (forall e,
         last_trainer e configs = None ->
         PyDict.get e (strategic_extensions m') = None) /\
      (forall e item,
         last_trainer e configs = Some item ->
         exists a,
           PyDict.get e (strategic_extensions m') = Some a /\
           ta_optimizer a = fst item /\
           ta_strategy a = ctx_strategy ctx /\
           ta_num_replicas a = Z.of_nat (List.length (gpus w)) /\
           PyDict.get e (extensions m') = Some (ta_base_model a) /\
           (d <-- subscript (snd item) "dataset" ;; subscript d "input_indices")
           = Returned (ta_index_inputs a)) /\
      (forall name config e,
         In (name, config) configs ->
         subscript config "extension_model" = Returned (YStr e) ->
         exists item, last_trainer e configs = Some item /\ trains e item = true).
Proof.
  intros ctx w ctx' w' configs H Hconfigs.
  unfold build_models in H.
  destruct (ctx_datasets ctx) as [datasets|]; [|discriminate].
  apply bind_inv in H as [[w0 [w1 [Hw H]]] | [e [_ Habs]]]; [|discriminate].
  unfold get_world in Hw. injection Hw as <- <-.
  unfold lift in H. injection H as H <-.
  apply obind_inv in H as [models_config [Hmc H]].
  apply obind_inv in H as [optimizers_config [Hoc H]].
  apply obind_inv in H as [name [Hname H]].
  apply obind_inv in H as [parameters [Hpar H]].
  apply obind_inv in H as [m [Hprov H]].
  apply obind_inv in H as [configs' [Hitems H]].
  rewrite Hoc in Hconfigs. simpl in Hconfigs. rewrite Hitems in Hconfigs.
  injection Hconfigs as ->.
  apply obind_inv in H as [ctx1 [Hopt H]].
  apply obind_inv in H as [validators [Hvs H]].
  apply obind_inv in H as [ctx2 [Hval H]].
  apply obind_inv in H as [principal_configs [Hpc H]].
  eapply adapters_of_the_last_trainers in Hopt as (m1 & Hm1 & Hx1 & Hall);
    [|reflexivity].
  apply (ofold_keeps _ same_adapters same_adapters_refl same_adapters_trans
           build_validator_unit_adapters) in Hval.
  apply (ofold_keeps _ same_adapters same_adapters_refl same_adapters_trans
           (load_weights_unit_adapters (fs w))) in H.
  destruct (Hval m1 Hm1) as (m2 & Hm2 & Hse2 & Hx2).
  destruct (H m2 Hm2) as (m3 & Hm3 & Hse3 & Hx3).
  exists m3. split; [exact Hm3|]. split; [|split].
  - intros e Hnone. specialize (Hall e). rewrite Hnone in Hall.
    rewrite Hse3, Hse2, Hall. reflexivity.
  - intros e item Hsome. specialize (Hall e). rewrite Hsome in Hall.
    destruct Hall as [a [Hget [Ho [Hs [Hn [Hbase Hidx]]]]]].
    exists a. rewrite Hse3, Hse2, Hx3, Hx2, Hx1.
    repeat split; assumption.
  - intros oname config e Hin He. eapply last_trainer_exists; eassumption.
Qed.

Lemma lookup_yaml_inv {A} k (d : list (string * A)) a :
  lookup_yaml k d = Returned a -> exists s, k = YStr s /\ PyDict.get s d = Some a.
Proof.
  destruct k; simpl; try discriminate. unfold lookup_key.
  destruct (PyDict.get s d) as [x|] eqn:E; [|discriminate].
  intros H. injection H as <-. exists s. split; [reflexivity | exact E].
Qed.

(** X16. A training unit whose gate is open draws one batch from the dataset
    of its own entry and calls the adapter kept for its extension model; the
    optimizer that is updated, once, is the one that adapter was built for,
    which is the unit's own optimizer only when the adapter is its own. No
    other optimizer changes, and the loss is logged under the unit's name at
    the step of the round. *)
Theorem training_unit_updates_the_optimizer_of_its_adapter :
  forall step exts ctx name (w : world Blob) ctx' w' config,
    (o <-- subscript (ctx_experiment ctx) "optimizers" ;; subscript o name)
    = Returned config ->
    fires config step = Returned true ->
    train_unit step exts ctx name w = (Returned ctx', w') ->
    exists e a optimizers o dn datasets b rest loss,
      subscript config "extension_model" = Returned (YStr e) /\
      PyDict.get e exts = Some a /\
      ctx_optimizers ctx = Some optimizers /\
      PyDict.get (ta_optimizer a) optimizers = Some o /\
      ctx_optimizers ctx'
      = Some (PyDict.set (ta_optimizer a) (count_update o) optimizers) /\
      (forall k, k <> ta_optimizer a ->
         PyDict.get k (PyDict.set (ta_optimizer a) (count_update o) optimizers)
         = PyDict.get k optimizers) /\
      bound_dataset config = Returned (YStr dn) /\
      ctx_datasets ctx = Some datasets /\
      PyDict.get dn datasets = Some (b :: rest) /\
      ctx_datasets ctx' = Some (PyDict.set dn rest datasets) /\
      trace w' = trace w ++ [SummaryScalar "loss" (YStr name) step loss;
                             LoggedInfo ("loss[" ++ name ++ "][" ++ str_of_Z step ++ "]")].
Proof.
  intros step exts ctx name w ctx' w' config Hcfg Hgo H.
  unfold train_unit in H. rewrite Hcfg in H.
  unfold bind at 1, lift at 1 in H. rewrite Hgo in H.
  unfold bind at 1, lift at 1 in H. cbn [negb] in H.
  step_lift H dn Hdn. step_lift H ds Hds. step_lift H model Hm.
  step_lift H res Hr.
  unfold bind, emit, ret in H. simpl in H. injection H as <- <-.
  apply obind_inv in Hm as [ename [He Hm]].
  apply lookup_yaml_inv in Hm as [e [-> Hget]].
  apply obind_inv in Hr as [[b ctx1] [Hn Hr]].
  apply next_batch_inv in Hn as [n [datasets [rest [-> [Hds' [Hgetd ->]]]]]].
  destruct res as [loss ctx2]. simpl in Hr |- *.
  apply call_training_adapter_inv in Hr
    as [m [os [o [w0 [o' [_ [Hos [Hgeto [Hrun ->]]]]]]]]].
  apply train_one_step_in_graph_counts in Hrun. subst o'.
  simpl in Hos.
  exists e, model, os, o, n, datasets, b, rest, loss. simpl.
  repeat (split; [assumption || reflexivity|]).
  split; [intros k Hk; apply get_set_other; exact Hk|].
  repeat (split; [assumption || reflexivity|]).
  rewrite <- app_assoc. reflexivity.
Qed.

(** ** The inputs an adapter selects *)

(** X17. The inputs an adapter hands to its model are the tensors of the
    batch at the given indices, in the order of the indices: an index from 0
    to the number of tensors counts from the front, a negative one down to
    minus that number from the back, as Python indexes; there are as many
    inputs as indices. The first index outside that range raises
    [IndexError]. *)
Theorem select_inputs_indexes_the_batch :
  forall (indices : list Z) (inputs : list Tensor),
    (Forall (fun i => - Z.of_nat (List.length inputs) <= i
                      < Z.of_nat (List.length inputs)) indices ->
     exists selected,
       select_inputs (YList (map YInt indices)) inputs = Returned selected /\
       List.length selected = List.length indices /\
       Forall2 (fun i t =>
                  nth_error inputs (Z.to_nat (i mod Z.of_nat (List.length inputs)))
                  = Some t) indices selected) /\
    (~ Forall (fun i => - Z.of_nat (List.length inputs) <= i
                        < Z.of_nat (List.length inputs)) indices ->
     select_inputs (YList (map YInt indices)) inputs = Raised IndexError).
Proof.
  intros indices inputs. unfold select_inputs. simpl. split.
  - induction 1 as [|i indices Hi _ IH]; simpl.
    + exists []. repeat split. constructor.
    + destruct (py_index_in_range inputs i Hi) as [t [Ht Hnth]].
      destruct IH as [selected [Hsel [Hlen Hall]]].
      rewrite Ht. simpl. rewrite Hsel. simpl.
      exists (t :: selected). split; [reflexivity|].
      split; [simpl; rewrite Hlen; reflexivity|].
      constructor; assumption.
  - induction indices as [|i indices IH]; intros Hnot; simpl.
    + exfalso. apply Hnot. constructor.
    + destruct (Z_le_dec (- Z.of_nat (List.length inputs)) i) as [Hlo|Hlo];
        [destruct (Z_lt_dec i (Z.of_nat (List.length inputs))) as [Hhi|Hhi]|].
      * destruct (py_index_in_range inputs i (conj Hlo Hhi)) as [t [Ht _]].
        rewrite Ht. simpl. rewrite IH; [reflexivity|].
        intros Hall. apply Hnot. constructor; [split; assumption | exact Hall].
      * rewrite py_index_out_of_range by lia. reflexivity.
      * rewrite py_index_out_of_range by lia. reflexivity.
Qed.

(** ** The weights build_models loads *)

(** The entry of a principal gives no file to load weights from: it has no
    [path], or one that is false for Python, or one that names no file. *)
Definition nothing_to_load (fs0 : filesystem Blob) (config : yaml) : Prop :=
  exists d,
    config = YDict d /\
    (PyDict.get "path" d = None \/
     (exists v, PyDict.get "path" d = Some v /\ truthy v = false) \/
     (exists p, PyDict.get "path" d = Some (YStr p) /\ isfile fs0 p = false)).

Lemma load_weights_unit_skips fs0 ctx item :
  isfile fs0 "" = false ->
  nothing_to_load fs0 (snd item) ->
  load_weights_unit fs0 ctx item = Returned ctx.
Proof.
  intros Hempty [d [Hd Hcase]]. unfold load_weights_unit, weights_path.
  rewrite Hd. simpl.
  destruct Hcase as [-> | [[v [-> Hv]] | [p [-> Hp]]]]; simpl.
  - rewrite Hempty. reflexivity.
  - rewrite Hv, Hempty. reflexivity.
  - destruct (String.eqb_spec p "") as [-> | Hne]; simpl.
    + rewrite Hempty. reflexivity.
    + rewrite Hp. reflexivity.
Qed.

(** X18. [build_models] loads the weights of a principal only from an
    existing file: a principal whose entry has no [path], an empty or null
    one, or one that names no file is passed over without a word, and when
    that holds for every principal the loop over the weight files leaves the
    session as the warm-up steps left it. A principal whose [path] names a
    weight file has the weights of that file loaded into its variables. *)
Theorem weights_are_loaded_only_from_existing_files :
  forall (fs0 : filesystem Blob) ctx,
    isfile fs0 "" = false ->
    (forall item,
       nothing_to_load fs0 (snd item) ->
       load_weights_unit fs0 ctx item = Returned ctx) /\
    (forall principal_configs,
       Forall (fun item => nothing_to_load fs0 (snd item)) principal_configs ->
       ofold (load_weights_unit fs0) principal_configs ctx = Returned ctx) /\
    (forall name d p blob m model,
       PyDict.get "path" d = Some (YStr p) ->
       lookup p fs0 = Some (File (WeightsFile blob)) ->
       ctx_models ctx = Some m ->
       PyDict.get name (principals m) = Some model ->
       load_weights_unit fs0 ctx (name, YDict d)
       = Returned (set_models ctx (set_weights m (load_blob name blob (weights m))))).
Proof.
  intros fs0 ctx Hempty. split; [|split].
  - intros item. apply load_weights_unit_skips. exact Hempty.
  - induction 1 as [|item l Hitem _ IH]; simpl; [reflexivity|].
    rewrite (load_weights_unit_skips fs0 ctx item Hempty Hitem). simpl. exact IH.
  - intros name d p blob m model Hpath Hfile Hm Hmodel.
    unfold load_weights_unit, weights_path. simpl. rewrite Hpath.
    assert (Hisfile : isfile fs0 p = true) by (unfold isfile; rewrite Hfile; reflexivity).
    assert (Hne : p <> ""%string) by (intros ->; congruence).
    simpl. destruct (String.eqb_spec p ""); [contradiction|]. simpl.
    rewrite Hisfile. simpl. rewrite Hm. simpl.
    unfold lookup_key. rewrite Hmodel. simpl. rewrite Hfile. reflexivity.
Qed.

(** ** One round of the loop *)

Lemma validate_unit_fired step prs ctx validator (w : world Blob) ctx' w' :
  fires validator step = Returned true ->
  validate_unit step prs ctx validator w = (Returned ctx', w') ->
  exists dn datasets b rest e a m resp name,
    bound_dataset validator = Returned (YStr dn) /\
    ctx_datasets ctx = Some datasets /\
    PyDict.get dn datasets = Some (b :: rest) /\
    subscript validator "principal_model" = Returned (YStr e) /\
    PyDict.get e prs = Some a /\
    ctx_models ctx = Some m /\
    validate_one_step_in_graph a b (weights m) = Returned resp /\
    subscript validator "name" = Returned name /\
    ctx' = set_datasets ctx (PyDict.set dn rest datasets) /\
    exists images,
      gather resp = Returned images /\
      trace w' = trace w ++ [SummaryScalar "psnr" name step (psnr (fst images) (snd images));
                             SummaryScalar "ssim" name step (ssim (fst images) (snd images));
                             SummaryImage "hd-sr" name step;
                             LoggedInfo "psnr"; LoggedInfo "ssim"] /\
      fs w' = fs w.
Proof.
  intros Hgo H. unfold validate_unit in H.
  unfold bind at 1, lift at 1 in H. rewrite Hgo in H. cbn [negb] in H.
  step_lift H dn Hdn. step_lift H ds Hds. step_lift H model Hm.
  step_lift H res Hr. step_lift H m Hmm. step_lift H images Hi.
  step_lift H name Hname.
  unfold bind, emit, ret in H. simpl in H. injection H as <- <-.
  apply obind_inv in Hm as [ename [He Hm]].
  apply lookup_yaml_inv in Hm as [e [-> Hget]].
  destruct res as [b ctx1].
  apply next_batch_inv in Hr as [n [datasets [rest [-> [Hds' [Hgetd ->]]]]]].
  simpl in Hmm, Hi |- *.
  destruct (ctx_models ctx) as [m0|] eqn:Hcm; [|discriminate].
  simpl in Hmm. injection Hmm as ->.
  apply obind_inv in Hi as [resp [Hresp Hgather]].
  exists n, datasets, b, rest, e, model, m, resp, name.
  repeat (split; [assumption || reflexivity|]).
  exists images. split; [exact Hgather|]. split; [|reflexivity].
  repeat rewrite <- app_assoc. reflexivity.
Qed.

(** X19. A validation unit whose gate is open draws one batch from the
    dataset of its entry, runs the adapter kept for its principal model on
    the variables as they are, and scores what comes back: the outputs of
    all replicas joined against the references of all replicas joined under
    the mirrored strategy, the one output against the one reference on a
    single device. The two scores and the image are written under the
    validator's name and the step of the round; the session changes in
    nothing but the iterator the batch was drawn from. *)
Theorem validation_unit_scores_the_batch_it_draws :
  forall step prs ctx validator (w : world Blob) ctx' w',
    fires validator step = Returned true ->
    validate_unit step prs ctx validator w = (Returned ctx', w') ->
    exists dn datasets b rest e a m results name,
      bound_dataset validator = Returned (YStr dn) /\
      ctx_datasets ctx = Some datasets /\
      PyDict.get dn datasets = Some (b :: rest) /\
      subscript validator "principal_model" = Returned (YStr e) /\
      PyDict.get e prs = Some a /\
      ctx_models ctx = Some m /\
      experimental_run_v2 (va_strategy a) (validate_one_step a (weights m)) b
      = Returned results /\
      subscript validator "name" = Returned name /\
      ctx' = set_datasets ctx (PyDict.set dn rest datasets) /\
      fs w' = fs w /\
      let images :=
        match results with
        | Local one => one
        | PerReplica pairs => (concat (map fst pairs), concat (map snd pairs))
        end in
      trace w' = trace w ++ [SummaryScalar "psnr" name step (psnr (fst images) (snd images));
                             SummaryScalar "ssim" name step (ssim (fst images) (snd images));
                             SummaryImage "hd-sr" name step;
                             LoggedInfo "psnr"; LoggedInfo "ssim"].
Proof.
  intros step prs ctx validator w ctx' w' Hgo H.
  destruct (validate_unit_fired _ _ _ _ _ _ _ Hgo H)
    as (dn & datasets & b & rest & e & a & m & resp & name & H1 & H2 & H3 & H4 & H5
        & H6 & Hrun & H8 & H9 & images & Hgather & Htrace & Hfs).
  unfold validate_one_step_in_graph in Hrun.
  apply obind_inv in Hrun as [results [Hresults Hrun]]. injection Hrun as <-.
  rewrite gather_regroup in Hgather. injection Hgather as <-.
  exists dn, datasets, b, rest, e, a, m, results, name.
  repeat (split; [assumption|]). exact Htrace.
Qed.

(** X20. Within one round of the loop the step is read three times: [train]
    logs its losses under the step before the updates of the round,
    [validate] writes its scores under the step those updates left, and
    [save] decides on that same step and writes it into the checkpoint. *)
Theorem validate_and_save_use_the_step_train_left :
  forall ctx (w : world Blob) ctx1 w1 ctx2 w2 ctx3 w3 s,
    global_step ctx = Returned s ->
    train ctx w = (Returned ctx1, w1) ->
    validate ctx1 w1 = (Returned ctx2, w2) ->
    save ctx2 w2 = (Returned ctx3, w3) ->
    exists s1,
      global_step ctx1 = Returned s1 /\ s <= s1 /\
      only_logs ["loss"] s w w1 /\
      only_logs ["psnr"; "ssim"; "hd-sr"] s1 w1 w2 /\
      global_step ctx2 = Returned s1 /\
      global_step ctx3 = Returned s1 /\
      ((ctx3 = ctx2 /\ w3 = w2) \/
       subscript (ctx_experiment ctx3) "global_step" = Returned (YInt s1)).
Proof.
  intros ctx w ctx1 w1 ctx2 w2 ctx3 w3 s Hs H1 H2 H3.
  destruct (global_step_moved_on _ _ _ (train_moves_on _ _ _ _ H1) Hs) as [s1 [Hs1 Hle]].
  exists s1. split; [exact Hs1|]. split; [exact Hle|].
  split; [eapply train_logs; eassumption|].
  split; [eapply validate_logs; eassumption|].
  assert (Hs2 : global_step ctx2 = Returned s1).
  { pose proof (validate_keeps _ _ _ _ H2) as [[_ [_ Hg]] [Ho _]].
    unfold global_step in *. rewrite Ho, Hg. exact Hs1. }
  split; [exact Hs2|].
  apply save_inv in H3 as [(s' & _ & _ & -> & ->) | H3].
  - split; [exact Hs2 | left; split; reflexivity].
  - destruct H3 as (s' & e1 & mc & pcs & pcs' & w1' & e2 & ocs & ocs' & e3 & dir & H3).
    destruct H3 as (Hs' & _ & He1 & _ & _ & _ & He2 & _ & _ & He3 & _ & _ & ->).
    rewrite Hs2 in Hs'. injection Hs' as <-.
    split; [exact Hs2|]. right. simpl.
    apply obind_inv in He2 as [mc' [_ He2]].
    rewrite (subscript_assign_other _ _ _ _ "global_step" He3) by discriminate.
    rewrite (subscript_assign_other _ _ _ _ "global_step" He2) by discriminate.
    exact (subscript_assign_same _ _ _ _ He1).
Qed.

(** ** The validation adapters build_models keeps *)

(** The validator validates the principal model [e]. *)
Definition validates (e : string) (validator : yaml) : bool :=
  match subscript validator "principal_model" with
  | Returned (YStr m) => (m =? e)%string
  | _ => false
  end.

(** The last validator of the descriptor that validates [e]. *)
Definition last_validator (e : string) (validators : list yaml) : option yaml :=
  hd_error (rev (filter (validates e) validators)).

(** The adapter [build_models] builds for a validator (lines 386-390). *)
Definition validator_of (s : strategy) (m : models) (e : string) (validator : yaml)
  (a : validation_adapter) : Prop :=
  va_strategy a = s /\
  PyDict.get e (principals m) = Some (va_base_model a) /\
  (d <-- subscript validator "dataset" ;; subscript d "input_indices")
  = Returned (va_index_inputs a) /\
  (d <-- subscript validator "dataset" ;; subscript d "hd_image_index")
  = Returned (va_index_hd_images a).

Lemma build_validator_unit_models ctx validator ctx' :
  build_validator_unit ctx validator = Returned ctx' ->
  exists m m' e a,
    ctx_models ctx = Some m /\
    ctx_models ctx' = Some m' /\
    ctx_strategy ctx' = ctx_strategy ctx /\
    principals m' = principals m /\
    subscript validator "principal_model" = Returned (YStr e) /\
    validator_of (ctx_strategy ctx) m e validator a /\
    strategic_principals m' = PyDict.set e a (strategic_principals m).
Proof.
  unfold build_validator_unit. intros H.
  apply obind_inv in H as [m [Hm H]].
  apply obind_inv in H as [model_name [Hmn H]].
  apply obind_inv in H as [model [Hmodel H]].
  apply obind_inv in H as [ii [Hii H]].
  apply obind_inv in H as [ih [Hih H]].
  apply obind_inv in H as [model_key [Hkey H]].
  injection H as <-.
  destruct (ctx_models ctx) as [m0|] eqn:Hcm; [|discriminate].
  simpl in Hm. injection Hm as ->.
  destruct model_name as [| | | |e| |]; try discriminate.
  simpl in Hkey. injection Hkey as <-.
  simpl in Hmodel. unfold lookup_key in Hmodel.
  destruct (PyDict.get e (principals m)) as [f|] eqn:Hf; [|discriminate].
  injection Hmodel as ->.
  eexists m, _, e, _. simpl.
  split; [reflexivity|]. split; [reflexivity|]. split; [reflexivity|].
  split; [reflexivity|]. split; [exact Hmn|]. split; [|reflexivity].
  unfold validator_of. simpl. repeat split; assumption.
Qed.

Lemma adapters_of_the_last_validators :
  forall validators ctx ctx' m,
    ofold build_validator_unit validators ctx = Returned ctx' ->
    ctx_models ctx = Some m ->
    exists m',
      ctx_models ctx' = Some m' /\
      principals m' = principals m /\
      forall e,
        match last_validator e validators with
        | Some validator =>
            exists a, PyDict.get e (strategic_principals m') = Some a /\
                      validator_of (ctx_strategy ctx) m e validator a
        | None =>
            PyDict.get e (strategic_principals m')
            = PyDict.get e (strategic_principals m)
        end.
Proof.
  induction validators as [|v validators IH]; intros ctx ctx' m H Hm; simpl in H.
  - injection H as <-. exists m. split; [exact Hm|]. split; [reflexivity|].
    intros e. reflexivity.
  - apply obind_inv in H as [ctx1 [Hone H]].
    apply build_validator_unit_models in Hone
      as (m0 & m1 & e0 & a0 & Hm0 & Hm1 & Hs1 & Hp1 & He0 & Ha0 & Hsp1).
    rewrite Hm in Hm0. injection Hm0 as <-.
    destruct (IH _ _ _ H Hm1) as (m' & Hm' & Hp' & Hall).
    exists m'. split; [exact Hm'|]. split; [congruence|].
    intros e. specialize (Hall e). unfold last_validator in *.
    rewrite rev_filter_cons.
    destruct (rev (filter (validates e) validators)) as [|v' rest]; simpl in *.
    + rewrite Hall, Hsp1, get_set_cases. unfold validates. rewrite He0.
      destruct (String.eqb_spec e0 e) as [-> | Hne]; simpl.
      * exists a0. split; [reflexivity | exact Ha0].
      * reflexivity.
    + destruct Hall as [a [Hget Ha]]. exists a. split; [exact Hget|].
      unfold validator_of in *. rewrite Hs1, Hp1 in Ha. exact Ha.
Qed.

(** What the loop over the optimizers and the loop over the weight files
    keep of the models. *)
Definition same_principals (ctx ctx' : context) : Prop :=
  ctx_strategy ctx' = ctx_strategy ctx /\
  ctx_experiment ctx' = ctx_experiment ctx /\
  forall m, ctx_models ctx = Some m ->
            exists m', ctx_models ctx' = Some m' /\
                       strategic_principals m' = strategic_principals m /\
                       principals m' = principals m.

Lemma same_principals_refl ctx : same_principals ctx ctx.
Proof.
  split; [reflexivity|]. split; [reflexivity|].
  intros m Hm. exists m. split; [exact Hm | split; reflexivity].
Qed.

Lemma same_principals_trans a b c :
  same_principals a b -> same_principals b c -> same_principals a c.
Proof.
  intros [Hs [He Hab]] [Hs' [He' Hbc]].
  split; [congruence|]. split; [congruence|].
  intros m Hm. destruct (Hab m Hm) as [m1 [Hm1 [H1 H1']]].
  destruct (Hbc m1 Hm1) as [m2 [Hm2 [H2 H2']]].
  exists m2. split; [exact Hm2 | split; congruence].
Qed.

Lemma build_optimizer_unit_principals num_gpus ctx item ctx' :
  build_optimizer_unit num_gpus ctx item = Returned ctx' -> same_principals ctx ctx'.
Proof.
  intros H.
  pose proof (build_optimizer_unit_inv _ _ _ _ H)
    as (ds & os & dn & b & rest & o & _ & _ & _ & _ & _ & _ & _ & [He [Hs _]]).
  apply build_optimizer_unit_models in H
    as (m0 & m1 & e0 & a0 & Hm0 & Hm1 & _ & _ & _ & _ & _ & Hp & Hsp).
  split; [exact Hs|]. split; [exact He|].
  intros m Hm. rewrite Hm in Hm0. injection Hm0 as <-.
  exists m1. repeat split; assumption.
Qed.

Lemma load_weights_unit_principals fs0 ctx item ctx' :
  load_weights_unit fs0 ctx item = Returned ctx' -> same_principals ctx ctx'.
Proof.
  unfold load_weights_unit. intros H.
  apply obind_inv in H as [found [_ H]].
  destruct found as [path|]; [|injection H as <-; apply same_principals_refl].
  apply obind_inv in H as [m [Hm H]].
  apply obind_inv in H as [p [_ H]].
  destruct (lookup path fs0) as [[[d | blob |] |] |]; try discriminate.
  injection H as <-. split; [reflexivity|]. split; [reflexivity|].
  intros m0 Hm0. rewrite Hm0 in Hm. injection Hm as <-.
  eexists. repeat split.
Qed.

(** X21. [build_models] keeps the validation adapters under the name of
    the principal model they validate, one per model: when it returns, the
    adapter of a principal model is the one built for the last validator of
    the descriptor that validates the model, with the strategy of the
    session and the input indices and reference index of that validator's
    dataset; a principal model no validator names has no adapter. *)
Theorem build_models_keeps_the_adapter_of_the_last_validator :
  forall ctx (w : world Blob) ctx' w' validators,
    build_models ctx w = (Returned ctx', w') ->
    (v <-- subscript (ctx_experiment ctx) "validators" ;; iterate v)
    = Returned validators ->
    exists m',
      ctx_models ctx' = Some m' /\
      (forall e,
         last_validator e validators = None ->
         PyDict.get e (strategic_principals m') = None) /\
      (forall e validator,
         last_validator e validators = Some validator ->
         exists a,
           PyDict.get e (strategic_principals m') = Some a /\
           va_strategy a = ctx_strategy ctx /\
           PyDict.get e (principals m') = Some (va_base_model a) /\
           (d <-- subscript validator "dataset" ;; subscript d "input_indices")
           = Returned (va_index_inputs a) /\
           (d <-- subscript validator "dataset" ;; subscript d "hd_image_index")
           = Returned (va_index_hd_images a)).
Proof.
  intros ctx w ctx' w' validators H Hvalidators.
  unfold build_models in H.
  destruct (ctx_datasets ctx) as [datasets|]; [|discriminate].
  apply bind_inv in H as [[w0 [w1 [Hw H]]] | [e [_ Habs]]]; [|discriminate].
  unfold get_world in Hw. injection Hw as <- <-.
  unfold lift in H. injection H as H <-.
  apply obind_inv in H as [models_config [Hmc H]].
  apply obind_inv in H as [optimizers_config [Hoc H]].
  apply obind_inv in H as [name [Hname H]].
  apply obind_inv in H as [parameters [Hpar H]].
  apply obind_inv in H as [m [Hprov H]].
  apply obind_inv in H as [configs [Hitems H]].
  apply obind_inv in H as [ctx1 [Hopt H]].
  apply obind_inv in H as [validators' [Hvs H]].
  apply obind_inv in H as [ctx2 [Hval H]].
  apply obind_inv in H as [principal_configs [Hpc H]].
  apply (ofold_keeps _ same_principals same_principals_refl same_principals_trans
           (build_optimizer_unit_principals _)) in Hopt as [Hs1 [He1 Hopt]].
  simpl in Hs1, He1.
  rewrite He1, Hvalidators in Hvs. injection Hvs as <-.
  destruct (Hopt _ eq_refl) as (m1 & Hm1 & Hsp1 & Hp1). simpl in Hsp1, Hp1.
  destruct (adapters_of_the_last_validators _ _ _ _ Hval Hm1) as (m2 & Hm2 & Hp2 & Hall).
  apply (ofold_keeps _ same_principals same_principals_refl same_principals_trans
           (load_weights_unit_principals (fs w))) in H as [_ [_ H]].
  destruct (H m2 Hm2) as (m3 & Hm3 & Hsp3 & Hp3).
  exists m3. split; [exact Hm3|]. split.
  - intros e Hnone. specialize (Hall e). rewrite Hnone in Hall.
    rewrite Hsp3, Hall, Hsp1. reflexivity.
  - intros e validator Hsome. specialize (Hall e). rewrite Hsome in Hall.
    destruct Hall as [a [Hget [Hs [Hbase [Hii Hih]]]]].
    exists a. rewrite Hsp3, Hp3, Hp2.
    split; [exact Hget|]. split; [congruence|]. repeat split; assumption.
Qed.

(** ** Resuming where the session stopped *)

Lemma summary_dir_assign experiment k v experiment' :
  assign experiment k v = Returned experiment' ->
  k <> "summary"%string ->
  summary_dir experiment' = summary_dir experiment.
Proof.
  intros Ha Hne. unfold summary_dir.
  rewrite (subscript_assign_other _ _ _ _ "summary" Ha) by congruence.
  reflexivity.
Qed.

(** A path that is absolute and holds no placeholder is what it resolves
    to, under any key. *)
Lemma resolved_path_is_stable name s :
  is_absolute s = true ->
  PyStr.contains placeholder s = false ->
  normalize_path expanduser resolve (PyStr.replace placeholder name s) = s.
Proof.
  intros Habs Hnone. rewrite (replace_placeholder_absent name s Hnone).
  unfold normalize_path. rewrite Habs. reflexivity.
Qed.

Lemma section_path_of d section dir :
  (c <-- subscript (YDict d) section ;; p <-- subscript c "path" ;; as_str p)
  = Returned dir ->
  exists c, PyDict.get section d = Some (YDict c) /\
            PyDict.get "path" c = Some (YStr dir).
Proof.
  intros H. apply obind_inv in H as [c [Hc H]].
  apply obind_inv in H as [p [Hp H]].
  simpl in Hc. destruct (PyDict.get section d) as [v|]; [|discriminate].
  injection Hc as ->.
  destruct c as [| | | | | |entries]; try discriminate.
  simpl in Hp. destruct (PyDict.get "path" entries) as [v|] eqn:Hget; [|discriminate].
  injection Hp as ->.
  destruct p; try discriminate. injection H as ->.
  exists entries. split; [reflexivity | exact Hget].
Qed.

(** The directories of a session loaded from a descriptor whose paths are
    absolute and hold no placeholder are the directories of the descriptor. *)
Lemma load_experiment_keeps_stable_paths path (w : world Blob) d ctx w' section dir :
  lookup path (fs w) = Some (File (YamlFile (YDict d))) ->
  load_experiment path w = (Returned ctx, w') ->
  section <> "global_step"%string ->
  (c <-- subscript (YDict d) section ;; p <-- subscript c "path" ;; as_str p)
  = Returned dir ->
  is_absolute dir = true ->
  PyStr.contains placeholder dir = false ->
  (c <-- subscript (ctx_experiment ctx) section ;; p <-- subscript c "path" ;; as_str p)
  = Returned dir.
Proof.
  intros Hfile H Hsection Hdir Habs Hnone.
  apply load_experiment_inv in H
    as (document & has_step & e1 & n & e2 & cdir & sdir & w3 & strat & step & H).
  destruct H as (Hfile' & _ & Hhs & He1 & _ & He2 & _ & _ & _ & _ & _ & -> & _).
  rewrite Hfile in Hfile'. injection Hfile' as <-.
  apply section_path_of in Hdir as [c [Hc Hp]].
  assert (Hd1 : exists d1, e1 = YDict d1 /\ PyDict.get section d1 = Some (YDict c)).
  { destruct has_step; simpl in He1; injection He1 as <-.
    - exists d. split; [reflexivity | exact Hc].
    - eexists. split; [reflexivity|]. rewrite get_set_other by congruence. exact Hc. }
  destruct Hd1 as [d1 [-> Hc1]].
  simpl in He2. injection He2 as <-. simpl.
  rewrite get_resolved_entries, Hc1. simpl.
  rewrite get_resolved_entries, Hp.
  cbn [option_map resolve_item obind as_str]. unfold resolve_string.
  change (is_path_key (KStr "path")) with true. cbv iota.
  rewrite (resolved_path_is_stable n dir Habs Hnone). reflexivity.
Qed.

(** X22. A session resumed from a checkpoint goes on where the saved one
    stopped: when the checkpoint directory of the saved session is an
    absolute path that holds no placeholder, the session [load_experiment]
    returns from the descriptor [save] wrote has the same checkpoint
    directory, so that its checkpoints join those of the saved session, and
    the saved step as its offset; the same holds for the summary
    directory. *)
Theorem resumed_session_keeps_its_directories :
  forall ctx (w : world Blob) ctx' w' step dir ctx2 w2,
    save ctx w = (Returned ctx', w') ->
    global_step ctx = Returned step ->
    (c <-- subscript (ctx_experiment ctx) "checkpoint" ;; fires c step) = Returned true ->
    checkpoint_dir (ctx_experiment ctx) = Returned dir ->
    is_absolute dir = true ->
    PyStr.contains placeholder dir = false ->
    load_experiment (path_join dir (step_file_name step "checkpoint.yaml")) w'
    = (Returned ctx2, w2) ->
    checkpoint_dir (ctx_experiment ctx2) = Returned dir /\
    ctx_global_step ctx2 = YInt step /\
    (forall sdir,
       summary_dir (ctx_experiment ctx) = Returned sdir ->
       is_absolute sdir = true ->
       PyStr.contains placeholder sdir = false ->
       summary_dir (ctx_experiment ctx2) = Returned sdir).
Proof.
  intros ctx w ctx' w' step dir ctx2 w2 H Hs Hgo Hdir Habs Hnone Hload.
  apply (save_fired_inv _ _ _ _ _ H Hs) in Hgo
    as (e1 & mc & pcs & pcs' & w1 & e2 & ocs & ocs' & e3 & dir' & Hgo).
  destruct Hgo as (He1 & _ & _ & _ & He2 & _ & _ & He3 & Hdir3 & Hw & ->).
  apply obind_inv in He2 as [mc' [_ He2]].
  assert (Hsame : checkpoint_dir e3 = checkpoint_dir (ctx_experiment ctx)).
  { rewrite (checkpoint_dir_assign _ _ _ _ He3) by discriminate.
    rewrite (checkpoint_dir_assign _ _ _ _ He2) by discriminate.
    apply (checkpoint_dir_assign _ _ _ _ He1). discriminate. }
  assert (Hsum : summary_dir e3 = summary_dir (ctx_experiment ctx)).
  { rewrite (summary_dir_assign _ _ _ _ He3) by discriminate.
    rewrite (summary_dir_assign _ _ _ _ He2) by discriminate.
    apply (summary_dir_assign _ _ _ _ He1). discriminate. }
  rewrite Hsame, Hdir in Hdir3. injection Hdir3 as <-.
  assert (Hstep3 : subscript e3 "global_step" = Returned (YInt step)).
  { rewrite (subscript_assign_other _ _ _ _ "global_step" He3) by discriminate.
    rewrite (subscript_assign_other _ _ _ _ "global_step" He2) by discriminate.
    exact (subscript_assign_same _ _ _ _ He1). }
  assert (Hfile : lookup (path_join dir (step_file_name step "checkpoint.yaml")) (fs w')
                  = Some (File (YamlFile e3))).
  { apply write_descriptor_inv in Hw as [[_ [Hfs _]] | [e [Habs' _]]]; [|discriminate].
    rewrite Hfs. apply lookup_written. }
  split; [|split].
  - destruct e3 as [| | | | | |d3]; try discriminate.
    apply (load_experiment_keeps_stable_paths _ _ _ _ _ "checkpoint" dir Hfile Hload);
      [discriminate | | exact Habs | exact Hnone].
    rewrite <- Hdir, <- Hsame. reflexivity.
  - eapply load_experiment_step; eassumption.
  - intros sdir Hsdir Habs' Hnone'.
    destruct e3 as [| | | | | |d3]; try discriminate.
    apply (load_experiment_keeps_stable_paths _ _ _ _ _ "summary" sdir Hfile Hload);
      [discriminate | | exact Habs' | exact Hnone'].
    rewrite <- Hsdir, <- Hsum. reflexivity.
Qed.

(** ** The weights a checkpoint holds *)

Lemma string_append_same_tail (a b t u : string) :
  String.length t = String.length u ->
  (a ++ t = b ++ u)%string -> a = b /\ t = u.
Proof.
  revert b. induction a as [|c a IH]; intros b Hlen H.
  - destruct b as [|c' b]; [split; [reflexivity | exact H]|].
    simpl in H. apply (f_equal String.length) in H. simpl in H.
    rewrite string_length_append in H. lia.
  - destruct b as [|c' b].
    + simpl in H. apply (f_equal String.length) in H. simpl in H.
      rewrite string_length_append in H. lia.
    + simpl in H. injection H as -> H.
      destruct (IH b Hlen H) as [-> ->]. split; reflexivity.
Qed.

Lemma step_file_name_suffix step s1 s2 :
  step_file_name step s1 = step_file_name step s2 -> s1 = s2.
Proof.
  unfold step_file_name. intros H.
  apply string_append_inv_head in H. apply (string_append_inv_head "_") in H. exact H.
Qed.

(** In one directory and for one step the weight files of two principals
    are different files, and none of them is the descriptor. *)
Lemma weights_file_inj dir step n1 n2 :
  0 <= step < 10 ^ 16 ->
  weights_file dir step n1 = weights_file dir step n2 -> n1 = n2.
Proof.
  intros Hstep H. unfold weights_file in H.
  apply path_join_inj in H; try (apply step_file_name_relative; exact Hstep).
  apply step_file_name_suffix in H.
  apply (string_append_same_tail n1 n2 ".h5" ".h5" eq_refl) in H as [H _]. exact H.
Qed.

Lemma weights_file_is_no_descriptor dir step n :
  0 <= step < 10 ^ 16 ->
  weights_file dir step n <> path_join dir (step_file_name step "checkpoint.yaml").
Proof.
  intros Hstep H. unfold weights_file in H.
  apply path_join_inj in H; try (apply step_file_name_relative; exact Hstep).
  apply step_file_name_suffix in H.
  apply (string_append_same_tail n "checkpoint.y" ".h5" "aml" eq_refl) in H as [_ H].
  discriminate H.
Qed.

Lemma save_principal_content ctx experiment step item (w : world Blob) b w' :
  save_principal ctx experiment step item w = (Returned b, w') ->
  exists dir m config',
    checkpoint_dir experiment = Returned dir /\
    ctx_models ctx = Some m /\
    fs w' = (weights_file dir step (fst item),
             File (WeightsFile (weights_blob (fst item) (weights m)))) :: fs w /\
    assign (snd item) "path" (YStr (weights_file dir step (fst item))) = Returned config' /\
    b = (fst item, config').
Proof.
  unfold save_principal. intros H.
  step_lift H dir Hdir. step_lift H m Hm. step_lift H f Hf.
  step_bind H u w1 Hw. step_bind H u' w2 Hemit. step_lift H config' Hc.
  unfold ret in H. injection H as <- <-.
  apply write_file_inv in Hw as [[_ [Hfs _]] | [e [Habs _]]]; [|discriminate].
  apply emit_inv in Hemit as [_ [Hfs2 _]].
  destruct (ctx_models ctx) as [m0|]; [|discriminate]. simpl in Hm. injection Hm as ->.
  exists dir, m, config'. split; [exact Hdir|]. split; [reflexivity|].
  split; [rewrite Hfs2, Hfs; reflexivity|]. split; [exact Hc | reflexivity].
Qed.

Lemma lookup_other path n (fs0 : filesystem Blob) p :
  path <> p -> lookup p ((path, n) :: fs0) = lookup p fs0.
Proof.
  intros Hne. simpl. destruct (String.eqb_spec path p); [contradiction | reflexivity].
Qed.

Lemma save_principals_content ctx experiment step dir m :
  checkpoint_dir experiment = Returned dir ->
  ctx_models ctx = Some m ->
  0 <= step < 10 ^ 16 ->
  forall entries (w : world Blob) entries' w',
    mapM (save_principal ctx experiment step) entries w = (Returned entries', w') ->
    NoDup (map fst entries) ->
    Forall (fun p =>
              lookup (weights_file dir step (fst p)) (fs w')
              = Some (File (WeightsFile (weights_blob (fst p) (weights m))))) entries' /\
    (forall p, (forall n, In n (map fst entries) -> weights_file dir step n <> p) ->
               lookup p (fs w') = lookup p (fs w)).
Proof.
  intros Hdir Hm Hstep.
  induction entries as [|item rest IH]; intros w entries' w' H Hnodup; simpl in H.
  - unfold ret in H. injection H as <- <-. split; [constructor | reflexivity].
  - step_bind H b w1 Hone. step_bind H bs w2 Hrest.
    unfold ret in H. injection H as <- <-.
    apply save_principal_content in Hone
      as (dir' & m' & config' & Hdir' & Hm' & Hfs & _ & ->).
    rewrite Hdir in Hdir'. injection Hdir' as <-.
    rewrite Hm in Hm'. injection Hm' as <-.
    inversion Hnodup as [|x xs Hnotin Hnodup']; subst.
    destruct (IH _ _ _ Hrest Hnodup') as [Hall Hother].
    split.
    + constructor; [|exact Hall]. simpl.
      rewrite Hother.
      * rewrite Hfs. apply lookup_written.
      * intros n Hn Heq. apply weights_file_inj in Heq; [|exact Hstep].
        subst n. contradiction.
    + intros p Hp. rewrite Hother.
      * rewrite Hfs. apply lookup_other. apply Hp. left. reflexivity.
      * intros n Hn. apply Hp. right. exact Hn.
Qed.

Lemma load_weights_unit_loads fs0 ctx name d p blob m model :
  PyDict.get "path" d = Some (YStr p) ->
  lookup p fs0 = Some (File (WeightsFile blob)) ->
  ctx_models ctx = Some m ->
  PyDict.get name (principals m) = Some model ->
  load_weights_unit fs0 ctx (name, YDict d)
  = Returned (set_models ctx (set_weights m (load_blob name blob (weights m)))).
Proof.
  intros Hpath Hfile Hm Hmodel.
  unfold load_weights_unit, weights_path. simpl. rewrite Hpath.
  assert (Hisfile : isfile fs0 p = true) by (unfold isfile; rewrite Hfile; reflexivity).
  simpl. destruct (String.eqb_spec p "") as [-> | Hne]; simpl;
    rewrite Hisfile; simpl; rewrite Hm; simpl;
    unfold lookup_key; rewrite Hmodel; simpl; rewrite Hfile; reflexivity.
Qed.

Lemma path_join_absolute dir name :
  is_absolute dir = true -> is_absolute (path_join dir name) = true.
Proof.
  unfold is_absolute, PyStr.startswith, path_join, PyStr.startswith. intros Hdir.
  destruct (String.prefix "/" name) eqn:Hname; [exact Hname|].
  destruct dir as [|c dir]; [discriminate Hdir|].
  cbn [String.prefix] in Hdir.
  destruct (Ascii.ascii_dec "/" c) as [<- | Hne]; [|discriminate Hdir].
  destruct ((String "/" dir =? "")%string || PyStr.endswith "/" (String "/" dir));
    cbn [String.append String.prefix];
    (destruct (Ascii.ascii_dec "/" "/") as [_ | Hne];
     [|exfalso; apply Hne; reflexivity]);
    match goal with |- String.prefix _ ?s = true => destruct s; reflexivity end.
Qed.

(** What a firing [save] leaves for one principal of the descriptor: the
    file of its weights as they are in the session, and in the descriptor
    written an entry whose [path] is that file. *)
Lemma save_writes_the_weights ctx (w : world Blob) ctx' w' step dir m pcs name :
  save ctx w = (Returned ctx', w') ->
  global_step ctx = Returned step ->
  (c <-- subscript (ctx_experiment ctx) "checkpoint" ;; fires c step) = Returned true ->
  0 <= step < 10 ^ 16 ->
  checkpoint_dir (ctx_experiment ctx) = Returned dir ->
  ctx_models ctx = Some m ->
  referenced_principals (ctx_experiment ctx) = Returned pcs ->
  NoDup (map fst pcs) ->
  In name (map fst pcs) ->
  exists d3 mcd pcs' c',
    ctx_experiment ctx' = YDict d3 /\
    lookup (path_join dir (step_file_name step "checkpoint.yaml")) (fs w')
    = Some (File (YamlFile (YDict d3))) /\
    PyDict.get "models" d3 = Some (YDict mcd) /\
    PyDict.get "principals" mcd = Some (YDict pcs') /\
    PyDict.get name pcs' = Some (YDict c') /\
    PyDict.get "path" c' = Some (YStr (weights_file dir step name)) /\
    lookup (weights_file dir step name) (fs w')
    = Some (File (WeightsFile (weights_blob name (weights m)))).
Proof.
  intros H Hs Hgo Hstep Hdir Hm Hpcs Hnodup Hin.
  apply (save_fired_inv _ _ _ _ _ H Hs) in Hgo
    as (e1 & mc & pcs0 & pcs' & w1 & e2 & ocs & ocs' & e3 & dir' & Hgo).
  destruct Hgo as (He1 & Hmc & Hpcs0 & Hmap & He2 & _ & _ & He3 & Hdir3 & Hw & ->).
  apply obind_inv in He2 as [mc' [Hmc' He2]].
  assert (Hdir1 : checkpoint_dir e1 = Returned dir).
  { rewrite (checkpoint_dir_assign _ _ _ _ He1) by discriminate. exact Hdir. }
  assert (Hsame : checkpoint_dir e3 = Returned dir).
  { rewrite (checkpoint_dir_assign _ _ _ _ He3) by discriminate.
    rewrite (checkpoint_dir_assign _ _ _ _ He2) by discriminate. exact Hdir1. }
  rewrite Hsame in Hdir3. injection Hdir3 as <-.
  unfold referenced_principals in Hpcs.
  rewrite <- (subscript_assign_other _ _ _ _ "models" He1) in Hpcs by discriminate.
  rewrite Hmc in Hpcs. simpl in Hpcs. rewrite Hpcs0 in Hpcs. injection Hpcs as ->.
  destruct (save_principals_done ctx e1 step dir Hdir1 _ _ _ _ Hmap)
    as [_ [Hnames Hpaths]].
  destruct (save_principals_content ctx e1 step dir m Hdir1 Hm Hstep _ _ _ _ Hmap Hnodup)
    as [Hfiles _].
  rewrite <- Hnames in Hin, Hnodup.
  apply in_map_iff in Hin as [[name' config'] [Hname Hin]]. simpl in Hname. subst name'.
  pose proof (get_unique name config' pcs' Hnodup Hin) as Hget.
  rewrite Forall_forall in Hpaths, Hfiles.
  destruct (Hpaths _ Hin) as [Hpath _]. specialize (Hfiles _ Hin).
  simpl in Hpath, Hfiles.
  destruct config' as [| | | | | |c']; try discriminate Hpath.
  simpl in Hpath. destruct (PyDict.get "path" c') as [v|] eqn:Hc'; [|discriminate Hpath].
  injection Hpath as ->.
  destruct mc as [| | | | | |mcd0]; try discriminate Hmc'.
  simpl in Hmc'. injection Hmc' as <-.
  destruct e1 as [| | | | | |d1]; try discriminate He2.
  simpl in He2. injection He2 as <-.
  simpl in He3. injection He3 as <-.
  apply write_descriptor_inv in Hw as [[_ [Hfs _]] | [e [Habs _]]]; [|discriminate].
  eexists _, _, pcs', c'. simpl.
  split; [reflexivity|]. split; [rewrite Hfs; apply lookup_written|].
  split; [rewrite get_set_other by discriminate; apply get_set_same|].
  split; [apply get_set_same|]. split; [exact Hget|]. split; [exact Hc'|].
  rewrite Hfs, lookup_other; [exact Hfiles|].
  intros Heq. symmetry in Heq. revert Heq. apply weights_file_is_no_descriptor. exact Hstep.
Qed.

(** The entry of a principal in a session loaded from a descriptor whose
    weight path is absolute and holds no placeholder names that same file,
    and loading removes no file. *)
Lemma load_experiment_reads_principal path (w : world Blob) d3 mcd pcs c name p ctx2 w2 :
  lookup path (fs w) = Some (File (YamlFile (YDict d3))) ->
  PyDict.get "models" d3 = Some (YDict mcd) ->
  PyDict.get "principals" mcd = Some (YDict pcs) ->
  PyDict.get name pcs = Some (YDict c) ->
  PyDict.get "path" c = Some (YStr p) ->
  is_absolute p = true ->
  PyStr.contains placeholder p = false ->
  load_experiment path w = (Returned ctx2, w2) ->
  (exists pcs2 config2,
     referenced_principals (ctx_experiment ctx2) = Returned pcs2 /\
     PyDict.get name pcs2 = Some config2 /\
     subscript config2 "path" = Returned (YStr p)) /\
  (forall q f, lookup q (fs w) = Some (File f) -> lookup q (fs w2) = Some (File f)).
Proof.
  intros Hfile Hmodels Hprincipals Hname Hpath Habs Hnone H.
  apply load_experiment_inv in H
    as (document & has_step & e1 & n & e2 & cdir & sdir & w3 & strat & step & H).
  destruct H as (Hfile' & _ & Hhs & He1 & _ & He2 & _ & Hmk & _ & _ & _ & -> & Hfs & _).
  rewrite Hfile in Hfile'. injection Hfile' as <-.
  assert (Hd1 : exists d1, e1 = YDict d1 /\ PyDict.get "models" d1 = Some (YDict mcd)).
  { destruct has_step; simpl in He1; injection He1 as <-.
    - exists d3. split; [reflexivity | exact Hmodels].
    - eexists. split; [reflexivity|]. rewrite get_set_other by discriminate. exact Hmodels. }
  destruct Hd1 as [d1 [-> Hmodels1]].
  simpl in He2. injection He2 as <-.
  split.
  - unfold referenced_principals. simpl.
    rewrite get_resolved_entries, Hmodels1. simpl.
    rewrite get_resolved_entries, Hprincipals. simpl.
    eexists _, _. split; [reflexivity|].
    split; [rewrite get_resolved_entries, Hname; reflexivity|].
    simpl. rewrite get_resolved_entries, Hpath.
    cbn [option_map resolve_item]. unfold resolve_string.
    change (is_path_key (KStr "path")) with true. cbv iota.
    rewrite (resolved_path_is_stable n p Habs Hnone). reflexivity.
  - intros q f Hq. rewrite Hfs.
    apply makedirs_effect in Hmk as (_ & _ & _ & Hkeep & _). apply Hkeep. exact Hq.
Qed.

Lemma load_weights_unit_reads fs0 ctx name config p blob m model :
  subscript config "path" = Returned (YStr p) ->
  lookup p fs0 = Some (File (WeightsFile blob)) ->
  ctx_models ctx = Some m ->
  PyDict.get name (principals m) = Some model ->
  load_weights_unit fs0 ctx (name, config)
  = Returned (set_models ctx (set_weights m (load_blob name blob (weights m)))).
Proof.
  intros Hpath Hfile Hm Hmodel.
  destruct config as [| | | | | |d]; try discriminate Hpath.
  simpl in Hpath. destruct (PyDict.get "path" d) as [v|] eqn:Hd; [|discriminate Hpath].
  injection Hpath as ->.
  exact (load_weights_unit_loads fs0 ctx name d p blob m model Hd Hfile Hm Hmodel).
Qed.

(** X23. The weights a checkpoint holds are the weights of the session that
    wrote it, and a session resumed from it has them back. After a [save]
    that fires at a step of at most sixteen digits, on a descriptor whose
    principals have different names, the weight file of every principal
    holds the variables of the model as they are in the session; and when
    the checkpoint directory is absolute and the path of that file holds no
    placeholder, the session [load_experiment] opens on the descriptor
    written names that file under the principal, the file is still there,
    and the loop of [build_models] over the weight files loads it into the
    variables of the principal. *)
Theorem checkpoint_weights_are_read_back :
  forall ctx (w : world Blob) ctx' w' step dir m pcs name,
    save ctx w = (Returned ctx', w') ->
    global_step ctx = Returned step ->
    (c <-- subscript (ctx_experiment ctx) "checkpoint" ;; fires c step) = Returned true ->
    0 <= step < 10 ^ 16 ->
    checkpoint_dir (ctx_experiment ctx) = Returned dir ->
    ctx_models ctx = Some m ->
    referenced_principals (ctx_experiment ctx) = Returned pcs ->
    NoDup (map fst pcs) ->
    In name (map fst pcs) ->
    lookup (weights_file dir step name) (fs w')
    = Some (File (WeightsFile (weights_blob name (weights m)))) /\
    (forall ctx2 w2,
       is_absolute dir = true ->
       PyStr.contains placeholder (weights_file dir step name) = false ->
       load_experiment (path_join dir (step_file_name step "checkpoint.yaml")) w'
       = (Returned ctx2, w2) ->
       exists pcs2 config2,
         referenced_principals (ctx_experiment ctx2) = Returned pcs2 /\
         PyDict.get name pcs2 = Some config2 /\
         subscript config2 "path" = Returned (YStr (weights_file dir step name)) /\
         lookup (weights_file dir step name) (fs w2)
         = Some (File (WeightsFile (weights_blob name (weights m)))) /\
         (forall ctx0 m0 model,
            ctx_models ctx0 = Some m0 ->
            PyDict.get name (principals m0) = Some model ->
            load_weights_unit (fs w2) ctx0 (name, config2)
            = Returned (set_models ctx0
                          (set_weights m0
                             (load_blob name (weights_blob name (weights m))
                                (weights m0)))))).
Proof.
  intros ctx w ctx' w' step dir m pcs name H Hs Hgo Hstep Hdir Hm Hpcs Hnodup Hin.
  destruct (save_writes_the_weights _ _ _ _ _ _ _ _ _ H Hs Hgo Hstep Hdir Hm Hpcs Hnodup Hin)
    as (d3 & mcd & pcs' & c' & _ & Hfile & Hmodels & Hprincipals & Hname & Hpath & Hweights).
  split; [exact Hweights|].
  intros ctx2 w2 Habs Hnone Hload.
  destruct (load_experiment_reads_principal _ _ _ _ _ _ _ _ _ _
              Hfile Hmodels Hprincipals Hname Hpath
              (path_join_absolute _ _ Habs) Hnone Hload)
    as [(pcs2 & config2 & Hpcs2 & Hget2 & Hpath2) Hkeep].
  exists pcs2, config2.
  split; [exact Hpcs2|]. split; [exact Hget2|]. split; [exact Hpath2|].
  split; [apply Hkeep; exact Hweights|].
  intros ctx0 m0 model Hm0 Hmodel.
  apply (load_weights_unit_reads _ _ _ _ _ _ _ model Hpath2); [|exact Hm0 | exact Hmodel].
  apply Hkeep. exact Hweights.
Qed.

(** ** The replicas the script scales by *)

(** Every training adapter of the session runs on [s] and scales its loss
    by [n] replicas. *)
Definition scaled_by (s : strategy) (n : Z) (ctx : context) : Prop :=
  forall m e a,
    ctx_models ctx = Some m ->
    PyDict.get e (strategic_extensions m) = Some a ->
    ta_strategy a = s /\ ta_num_replicas a = n.

Definition same_strategy (ctx ctx' : context) : Prop :=
  ctx_strategy ctx' = ctx_strategy ctx.

Lemma same_strategy_refl ctx : same_strategy ctx ctx.
Proof. reflexivity. Qed.

Lemma same_strategy_trans a b c :
  same_strategy a b -> same_strategy b c -> same_strategy a c.
Proof. unfold same_strategy. congruence. Qed.

Lemma build_validator_unit_strategy ctx validator ctx' :
  build_validator_unit ctx validator = Returned ctx' -> same_strategy ctx ctx'.
Proof.
  unfold build_validator_unit. intros H.
  apply obind_inv in H as [m [Hm H]].
  apply obind_inv in H as [model_name [_ H]].
  apply obind_inv in H as [model [_ H]].
  apply obind_inv in H as [ii [_ H]].
  apply obind_inv in H as [ih [_ H]].
  apply obind_inv in H as [model_key [_ H]].
  injection H as <-. reflexivity.
Qed.

Lemma load_weights_unit_strategy fs0 ctx item ctx' :
  load_weights_unit fs0 ctx item = Returned ctx' -> same_strategy ctx ctx'.
Proof.
  unfold load_weights_unit. intros H.
  apply obind_inv in H as [found [_ H]].
  destruct found as [path|]; [|injection H as <-; reflexivity].
  apply obind_inv in H as [m [Hm H]].
  apply obind_inv in H as [p [_ H]].
  destruct (lookup path fs0) as [[[d | blob |] |] |]; try discriminate.
  injection H as <-. reflexivity.
Qed.

Lemma build_optimizer_units_scale num_gpus :
  forall configs ctx ctx',
    ofold (build_optimizer_unit num_gpus) configs ctx = Returned ctx' ->
    scaled_by (ctx_strategy ctx) num_gpus ctx ->
    same_strategy ctx ctx' /\ scaled_by (ctx_strategy ctx) num_gpus ctx'.
Proof.
  induction configs as [|item configs IH]; intros ctx ctx' H Hscaled; simpl in H.
  - injection H as <-. split; [reflexivity | exact Hscaled].
  - apply obind_inv in H as [ctx1 [Hone H]].
    apply build_optimizer_unit_models in Hone
      as (m0 & m1 & e0 & a0 & Hm0 & Hm1 & Hs1 & _ & _ & Ha0 & Hse1 & _ & _).
    destruct Ha0 as (_ & Hstrat & Hnum & _).
    assert (Hscaled1 : scaled_by (ctx_strategy ctx1) num_gpus ctx1).
    { intros m e a Hm Hget. rewrite Hm1 in Hm. injection Hm as <-.
      rewrite Hse1 in Hget. rewrite Hs1.
      destruct (String.eqb_spec e e0) as [-> | Hne].
      - rewrite get_set_same in Hget. injection Hget as <-. split; assumption.
      - rewrite get_set_other in Hget by exact Hne.
        exact (Hscaled m0 e a Hm0 Hget). }
    destruct (IH ctx1 ctx' H Hscaled1) as [Hs' Hscaled'].
    unfold same_strategy in *. split; [congruence|].
    rewrite <- Hs1. exact Hscaled'.
Qed.

Lemma build_models_scales ctx (w : world Blob) ctx' w' :
  build_models ctx w = (Returned ctx', w') ->
  w' = w /\
  same_strategy ctx ctx' /\
  (exists m, ctx_models ctx' = Some m) /\
  scaled_by (ctx_strategy ctx) (Z.of_nat (List.length (gpus w))) ctx'.
Proof.
  intros H. unfold build_models in H.
  destruct (ctx_datasets ctx) as [datasets|]; [|discriminate].
  apply bind_inv in H as [[w0 [w1 [Hw H]]] | [e [_ Habs]]]; [|discriminate].
  unfold get_world in Hw. injection Hw as <- <-.
  unfold lift in H. injection H as H <-.
  apply obind_inv in H as [models_config [Hmc H]].
  apply obind_inv in H as [optimizers_config [Hoc H]].
  apply obind_inv in H as [name [Hname H]].
  apply obind_inv in H as [parameters [Hpar H]].
  apply obind_inv in H as [m [Hprov H]].
  apply obind_inv in H as [configs [Hitems H]].
  apply obind_inv in H as [ctx1 [Hopt H]].
  apply obind_inv in H as [validators [Hvs H]].
  apply obind_inv in H as [ctx2 [Hval H]].
  apply obind_inv in H as [principal_configs [Hpc H]].
  pose proof Hopt as Hopt'.
  eapply adapters_of_the_last_trainers in Hopt' as (m1 & Hm1 & _ & _); [|reflexivity].
  apply build_optimizer_units_scale in Hopt as [Hs1 Hscaled1].
  2:{ intros m0 e a Hm0 Hget. simpl in Hm0. injection Hm0 as <-.
      simpl in Hget. discriminate Hget. }
  unfold same_strategy in Hs1. simpl in Hs1, Hscaled1.
  pose proof (ofold_keeps _ same_strategy same_strategy_refl same_strategy_trans
                build_validator_unit_strategy _ _ _ Hval) as Hs2.
  pose proof (ofold_keeps _ same_strategy same_strategy_refl same_strategy_trans
                (load_weights_unit_strategy (fs w)) _ _ _ H) as Hs3.
  apply (ofold_keeps _ same_adapters same_adapters_refl same_adapters_trans
           build_validator_unit_adapters) in Hval.
  apply (ofold_keeps _ same_adapters same_adapters_refl same_adapters_trans
           (load_weights_unit_adapters (fs w))) in H.
  destruct (Hval m1 Hm1) as (m2 & Hm2 & Hse2 & _).
  destruct (H m2 Hm2) as (m3 & Hm3 & Hse3 & _).
  split; [reflexivity|]. split; [unfold same_strategy in *; congruence|].
  split; [exists m3; exact Hm3|].
  intros m' e a Hm' Hget. rewrite Hm3 in Hm'. injection Hm' as <-.
  rewrite Hse3, Hse2 in Hget. exact (Hscaled1 m1 e a Hm1 Hget).
Qed.

(** X24. In a session the script has built, the loss is scaled by the
    replicas it runs on: [load_experiment] chooses the strategy from the
    logical GPUs, [build_models] counts them again for the adapters, and
    nothing in between changes either. So every training adapter of the
    session runs on the strategy of the session, divides its loss by the
    number of replicas of that strategy, and never divides by zero. *)
Theorem session_scales_the_loss_by_its_replicas :
  forall path (w : world Blob) ctx1 w1 ctx2 w2 ctx3 w3,
    load_experiment path w = (Returned ctx1, w1) ->
    build_datasets ctx1 w1 = (Returned ctx2, w2) ->
    build_models ctx2 w2 = (Returned ctx3, w3) ->
    choose_strategy (gpus w) = Returned (ctx_strategy ctx3) /\
    num_replicas_in_sync (ctx_strategy ctx3) = List.length (gpus w) /\
    exists m,
      ctx_models ctx3 = Some m /\
      forall e a,
        PyDict.get e (strategic_extensions m) = Some a ->
        ta_strategy a = ctx_strategy ctx3 /\
        ta_num_replicas a = Z.of_nat (num_replicas_in_sync (ctx_strategy ctx3)) /\
        0 < ta_num_replicas a.
Proof.
  intros path w ctx1 w1 ctx2 w2 ctx3 w3 Hload Hds Hbuild.
  apply load_experiment_inv in Hload
    as (document & has_step & e1 & n & e2 & cdir & sdir & w0 & strat & step & Hload).
  destruct Hload as (_ & _ & _ & _ & _ & _ & _ & Hmk & _ & Hstrat & _ & -> & _ & Hg & _).
  apply makedirs_effect in Hmk as (_ & _ & _ & _ & Hg0 & _).
  apply build_datasets_inv in Hds as [-> (entries & built & _ & _ & ->)].
  apply build_models_scales in Hbuild as (-> & Hs & [m Hm] & Hscaled).
  unfold same_strategy in Hs. simpl in Hs, Hscaled.
  pose proof (choose_strategy_replicas _ _ Hstrat) as Hn.
  assert (Hpos : (0 < List.length (gpus w))%nat).
  { destruct (gpus w); [discriminate Hstrat | simpl; lia]. }
  rewrite Hs. split; [exact Hstrat|]. split; [exact Hn|].
  exists m. split; [exact Hm|].
  intros e a Hget. destruct (Hscaled m e a Hm Hget) as [Hsa Hna].
  rewrite Hna, Hn, Hg, Hg0. split; [exact Hsa|]. split; [reflexivity | lia].
Qed.

End Script.

(** * A session on two replicas and one on a single device *)

Module Demo.

Definition expanduser (val : string) : string :=
  ("/home/user" ++ String.substring 1 (String.length val - 1) val)%string.

Definition resolve (val : string) : string := ("/work/" ++ val)%string.

(** Tensors, variables, gradients and weight files are single numbers; an
    update moves the variable by the number of gradients it is given. *)
Definition tape_gradient (loss : Q -> Q) (w : Q) : Q := loss w.

Definition apply_gradients (o : optimizer) (gradients : list Q) (w : Q) : Q :=
  Qred (w + inject_Z (Z.of_nat (List.length gradients)))%Q.

Definition keras_config (config : yaml) : yaml := config.

Definition weights_blob (model : string) (w : Q) : Q := w.

Definition load_blob (model : string) (blob w : Q) : Q := blob.

Definition concat (values : list Q) : Q := Qred (Qsum values).

Definition psnr (a b : Q) : Q := Qred (a - b)%Q.

Definition ssim (a b : Q) : Q := Qred (a * b)%Q.

Definition trainer (w : Q) (inputs : list Q) : list Q :=
  map (fun x => Qred (w * x)%Q) inputs.

Definition generator (w : Q) (inputs : list Q) : Q := Qred (w * Qsum inputs)%Q.

Definition model_provider (name parameters : yaml) : outcome (models Q Q) :=
  Returned {| extensions := [("trainer", trainer)];
              principals := [("generator", generator)];
              strategic_extensions := [];
              strategic_principals := [];
              weights := 1%Q |}.

(** A dataset is the list of its batches; a strategy gives every replica
    the same tuple. *)
Definition build_dataset (subsets : yaml) (batch_size : Z) (sample_rate augment : yaml)
  : list (list Q) :=
  [[2; 3]; [4; 5]; [6; 7]; [8; 9]; [10; 11]; [12; 13]]%Q.

Definition distribute (s : strategy) (dataset : list (list Q)) : list (batch Q) :=
  map (fun tuple => match s with
                    | OneDeviceStrategy _ => Local tuple
                    | MirroredStrategy devices => PerReplica (map (fun _ => tuple) devices)
                    end) dataset.

Definition dataset_config : yaml :=
  YDict [("subsets", YList [YStr "train"]); ("batch_size", YInt 4);
         ("sample_rate", YInt 1); ("augment", YBool true)].

Definition descriptor : yaml :=
  YDict
    [("name", YStr "demo");
     ("global_step", YInt 10);
     ("checkpoint", YDict [("path", YStr "/runs/{experiment_name}"); ("cycle", YInt 2)]);
     ("summary", YDict [("path", YStr "~/logs/{experiment_name}")]);
     ("datasets", YDict [("A", dataset_config); ("B", dataset_config)]);
     ("models",
      YDict [("name", YStr "srgan"); ("parameters", YDict []);
             ("principals", YDict [("generator", YDict [])])]);
     ("optimizers",
      YDict [("adam_g",
              YDict [("optimizer", YStr "Adam");
                     ("learning_rate", YFloat 0.5%float);
                     ("extension_model", YStr "trainer");
                     ("dataset",
                      YDict [("name", YStr "A");
                             ("input_indices", YList [YInt 1; YInt 0])]);
                     ("cycle", YInt 1)])]);
     ("validators",
      YList [YDict [("name", YStr "check");
                    ("principal_model", YStr "generator");
                    ("dataset",
                     YDict [("name", YStr "B");
                            ("input_indices", YList [YInt 0]);
                            ("hd_image_index", YInt 1)]);
                    ("cycle", YInt 2)]])].

Definition machine (devices : list string) : world Q :=
  {| fs := [("/exp.yaml", File (YamlFile descriptor))];
     gpus := devices;
     trace := [] |}.

Definition two_gpus : world Q := machine ["/GPU:0"; "/GPU:1"].

Definition one_gpu : world Q := machine ["/GPU:0"].

Definition session (n : nat) (w : world Q) : outcome (context Q Q) * world Q :=
  main Q expanduser resolve Q Q Q tape_gradient apply_gradients keras_config
    weights_blob load_blob concat psnr ssim model_provider (list (list Q))
    build_dataset distribute n "/exp.yaml" w.

(** *** Global step *)

Definition counting (counts : list (string * distributed Z)) (base : Z) : context Q Q :=
  {| ctx_experiment := descriptor;
     ctx_strategy := MirroredStrategy ["/GPU:0"; "/GPU:1"];
     ctx_global_step := YInt base;
     ctx_datasets := None;
     ctx_models := None;
     ctx_optimizers :=
       Some (map (fun c => (fst c, {| iterations := snd c; hyper := YDict [] |})) counts) |}.

Lemma global_step_of_3_and_7_from_10 :
  global_step Q Q (counting [("adam_g", PerReplica [3; 3]); ("adam_d", PerReplica [7; 7])] 10)
  = Returned 17 /\
  global_step Q Q (counting [("adam_g", Local 0)] 5) = Returned 5.
Proof.
  split.
  - destruct (global_step_is_max_count_plus_offset Q Q
                (counting [("adam_g", PerReplica [3; 3]); ("adam_d", PerReplica [7; 7])] 10)
                _ 10 eq_refl eq_refl) as [most [_ [_ [_ [_ [H _]]]]]].
    + repeat constructor; vm_compute; discriminate.
    + apply H; reflexivity.
  - destruct (global_step_is_max_count_plus_offset Q Q
                (counting [("adam_g", Local 0)] 5) _ 5 eq_refl eq_refl)
      as [most [_ [_ [_ [_ [_ H]]]]]].
    + repeat constructor; vm_compute; discriminate.
    + apply H; reflexivity.
Defined.

(** *** The training adapter on two replicas *)

Definition two_replicas : strategy := MirroredStrategy ["/GPU:0"; "/GPU:1"].

Definition training : training_adapter Q Q :=
  build_strategic_training_model Q Q two_replicas trainer
    (YList [YInt 1; YInt 0]) "adam_g" 2.

Definition fresh : optimizer :=
  {| iterations := PerReplica [0; 0]; hyper := YDict [] |}.

(** A model whose loss tells its two inputs apart: the first minus the
    second, times the variable. *)
Definition contrast (w : Q) (inputs : list Q) : list Q :=
  match inputs with
  | first :: second :: _ => [Qred (w * (first - second))%Q]
  | _ => []
  end.

Definition contrasting : training_adapter Q Q :=
  build_strategic_training_model Q Q two_replicas contrast
    (YList [YInt 1; YInt 0]) "adam_g" 2.

Lemma training_adapter_on_two_replicas :
  exists loss,
    train_one_step_in_graph Q Q Q tape_gradient apply_gradients contrasting
      (PerReplica [[2; 3]; [4; 7]]%Q) 1%Q fresh
    = Returned (loss, 3%Q, count_update fresh) /\
    (loss == (((3 - 2) * (1 / 2) + (7 - 4) * (1 / 2)) / 2))%Q /\
    reduce_mean_int (iterations (count_update fresh)) = 1.
Proof.
  assert (Htuples : replica_tuples Q (ta_strategy Q Q contrasting)
                      (PerReplica [[2; 3]; [4; 7]]%Q) = Some [[2; 3]; [4; 7]]%Q)
    by reflexivity.
  assert (Hrange : Forall (fun t : list Q =>
                             Forall (fun i => - Z.of_nat (List.length t) <= i
                                              < Z.of_nat (List.length t)) [1; 0])
                     [[2; 3]; [4; 7]]%Q)
    by (repeat constructor; simpl; lia).
  assert (Hnum : ta_num_replicas Q Q contrasting <> 0) by discriminate.
  destruct (training_adapter_updates_once_and_returns_mean_loss Q Q Q tape_gradient
              apply_gradients contrasting (PerReplica [[2; 3]; [4; 7]]%Q) 1%Q fresh
              _ [1; 0] Htuples eq_refl Hrange Hnum)
    as [new_inputs [loss [Hperm [Hrun [Hloss [_ [_ [Hcount _]]]]]]]].
  assert (Hnew : new_inputs = [[3; 2]; [7; 4]]%Q).
  { inversion Hperm as [|t1 n1 ts1 ns1 H1 Hrest1]; subst.
    inversion Hrest1 as [|t2 n2 ts2 ns2 H2 Hrest2]; subst.
    inversion Hrest2; subst.
    inversion H1 as [|i1 x1 is1 xs1 Hx1 Hr1]; subst.
    inversion Hr1 as [|i2 x2 is2 xs2 Hx2 Hr2]; subst. inversion Hr2; subst.
    inversion H2 as [|j1 y1 js1 ys1 Hy1 Hs1]; subst.
    inversion Hs1 as [|j2 y2 js2 ys2 Hy2 Hs2]; subst. inversion Hs2; subst.
    vm_compute in Hx1, Hx2, Hy1, Hy2.
    injection Hx1 as <-. injection Hx2 as <-. injection Hy1 as <-. injection Hy2 as <-.
    reflexivity. }
  subst new_inputs.
  exists loss. split; [exact Hrun|]. split.
  - rewrite Hloss. vm_compute. reflexivity.
  - destruct (Hcount 0) as [_ H]; [|exact H].
    split; [discriminate | repeat constructor].
Defined.

(** *** The gate of a unit with cycle 5 *)

Lemma gate_of_cycle_5 :
  fires (YDict [("cycle", YInt 5)]) 10 = Returned true /\
  fires (YDict [("cycle", YInt 5)]) 7 = Returned false.
Proof.
  destruct (unit_acts_iff_step_mod_cycle_zero Q Q Q Q tape_gradient apply_gradients
              keras_config weights_blob concat psnr ssim
              (YDict [("cycle", YInt 5)]) 5 10 eq_refl)
    as [Hopen _]; [discriminate|].
  destruct (unit_acts_iff_step_mod_cycle_zero Q Q Q Q tape_gradient apply_gradients
              keras_config weights_blob concat psnr ssim
              (YDict [("cycle", YInt 5)]) 5 7 eq_refl)
    as [_ [Hclosed _]]; [discriminate|].
  split; [apply Hopen; reflexivity | apply Hclosed; discriminate].
Defined.

(** *** The validation adapter under the two strategies *)

Definition validating (s : strategy) : validation_adapter Q Q :=
  build_strategic_validation_model Q Q s generator (YList [YInt 0]) (YInt 1).





(** *** Validation of the descriptor *)

(** A descriptor with all three required fields, whose [summary.path] is
    the empty string. *)
Definition silent : list (string * yaml) :=
  [("name", YStr "demo");
   ("summary", YDict [("path", YStr "")]);
   ("checkpoint", YDict [("path", YStr "/runs/demo")])].

Definition silent_machine : world Q :=
  {| fs := [("/exp.yaml", File (YamlFile (YDict silent)))];
     gpus := ["/GPU:0"];
     trace := [] |}.

(** The claim of C8 in the words of the specification: the [ValueError] is
    raised exactly when the path is no file or a required field is missing. *)
Definition fails_iff_field_missing (w : world Q) (path : string)
  (d : list (string * yaml)) : Prop :=
  (exists msg,
     fst (load_experiment Q expanduser resolve Q Q path w) = Raised (ValueError msg)) <->
  (isfile (fs w) path = false \/ has_required_fields d = false).

Lemma present_but_empty_path_is_refused :
  isfile (fs silent_machine) "/exp.yaml" = true /\
  has_required_fields silent = true /\
  fst (load_experiment Q expanduser resolve Q Q "/exp.yaml" silent_machine)
  = Raised (ValueError "An experiment needs a scribe.") /\
  ~ fails_iff_field_missing silent_machine "/exp.yaml" silent.
Proof.
  split; [reflexivity|]. split; [reflexivity|]. split; [reflexivity|].
  intros [Hfails _].
  destruct Hfails as [H | H]; [eexists; reflexivity | discriminate H | discriminate H].
Qed.

Lemma silent_sections_are_mappings : sections_are_mappings silent.
Proof.
  intros k v [-> | ->] H; vm_compute in H; injection H as <-; eexists; reflexivity.
Qed.

(** A descriptor whose [summary] is a number, not a mapping. *)
Definition unmapped : list (string * yaml) :=
  [("name", YStr "demo");
   ("summary", YInt 5);
   ("checkpoint", YDict [("path", YStr "/runs/demo")])].

Definition unmapped_machine : world Q :=
  {| fs := [("/exp.yaml", File (YamlFile (YDict unmapped)))];
     gpus := ["/GPU:0"];
     trace := [] |}.

Lemma empty_summary_path_raises :
  refused (YDict silent) = true /\
  (exists msg,
     fst (load_experiment Q expanduser resolve Q Q "/exp.yaml" silent_machine)
     = Raised (ValueError msg)) /\
  refused (YDict unmapped) = false /\
  fst (load_experiment Q expanduser resolve Q Q "/exp.yaml" unmapped_machine)
  = Raised AttributeError /\
  ~ (exists msg,
       fst (load_experiment Q expanduser resolve Q Q "/exp.yaml" unmapped_machine)
       = Raised (ValueError msg)).
Proof.
  split; [reflexivity|].
  destruct (load_experiment_validates_descriptor Q expanduser resolve Q Q
              "/exp.yaml" silent_machine) as [_ [[_ Hsilent] _]].
  destruct (load_experiment_validates_descriptor Q expanduser resolve Q Q
              "/exp.yaml" unmapped_machine) as [_ [[Hunmapped _] [Hattr _]]].
  split; [apply Hsilent; right; exists (YDict silent); split; reflexivity|].
  split; [reflexivity|].
  split; [apply (Hattr unmapped eq_refl eq_refl); left; reflexivity|].
  intros Hraised. destruct (Hunmapped Hraised) as [Hfile | [document [Hd Hr]]].
  - discriminate Hfile.
  - injection Hd as <-. discriminate Hr.
Defined.

(** *** The session after [load_experiment] and [build_datasets] *)

Definition prepared : context Q Q :=
  {| ctx_experiment := resolved expanduser resolve "demo" descriptor;
     ctx_strategy := two_replicas;
     ctx_global_step := YInt 10;
     ctx_datasets :=
       Some [("A", distribute two_replicas (build_dataset YNull 8 YNull YNull));
             ("B", distribute two_replicas (build_dataset YNull 8 YNull YNull))];
     ctx_models := None;
     ctx_optimizers := None |}.

Definition prepared_machine : world Q :=
  {| fs := [("/runs/demo", Dir); ("/runs", Dir);
            ("/exp.yaml", File (YamlFile descriptor))];
     gpus := ["/GPU:0"; "/GPU:1"];
     trace := [MadeDirs "/runs/demo"; CreatedWriter "/home/user/logs/demo";
               LoggedInfo "global step";
               LoggedInfo "summary: /home/user/logs/demo";
               LoggedInfo "strategy"] |}.

Example prepared_by_the_script :
  bind (load_experiment Q expanduser resolve Q Q "/exp.yaml")
    (build_datasets Q Q Q (list (list Q)) build_dataset distribute) two_gpus
  = (Returned prepared, prepared_machine).
Proof. vm_compute. reflexivity. Qed.

(** The session when its one optimizer has made [count] updates. *)
Definition session_at (count : Z) (batches_drawn : nat) (w : Q) : context Q Q :=
  {| ctx_experiment := resolved expanduser resolve "demo" descriptor;
     ctx_strategy := two_replicas;
     ctx_global_step := YInt 10;
     ctx_datasets :=
       Some [("A", skipn batches_drawn
                     (distribute two_replicas (build_dataset YNull 8 YNull YNull)));
             ("B", distribute two_replicas (build_dataset YNull 8 YNull YNull))];
     ctx_models :=
       Some {| extensions := [("trainer", trainer)];
               principals := [("generator", generator)];
               strategic_extensions := [("trainer", training)];
               strategic_principals := [("generator", validating two_replicas)];
               weights := w |};
     ctx_optimizers :=
       Some [("adam_g",
              {| iterations := PerReplica [count; count];
                 hyper := YDict [("learning_rate", YFloat 0.5%float)] |})] |}.

Lemma build_models_on_two_replicas :
  build_models Q Q Q Q tape_gradient apply_gradients load_blob model_provider
    prepared prepared_machine
  = (Returned (session_at 1 1 3), prepared_machine) /\
  global_step Q Q (session_at 1 1 3) = Returned 11.
Proof.
  assert (H : build_models Q Q Q Q tape_gradient apply_gradients load_blob
                model_provider prepared prepared_machine
              = (Returned (session_at 1 1 3), prepared_machine))
    by (vm_compute; reflexivity).
  assert (Hpos : (0 < num_replicas_in_sync (ctx_strategy Q Q prepared))%nat)
    by (simpl; lia).
  destruct (build_models_updates_every_optimizer_once Q Q Q Q tape_gradient
              apply_gradients load_blob model_provider prepared prepared_machine
              _ _ _ _ H eq_refl eq_refl Hpos)
    as [_ [optimizers [datasets' [_ [_ [_ [_ [_ Hstep]]]]]]]].
  split; [exact H|]. apply (Hstep ltac:(simpl; discriminate) 10 eq_refl).
Defined.

(** *** A checkpoint at step 12 *)

Lemma checkpoint_at_step_12 :
  (exists document,
     trace (snd (save Q Q Q keras_config weights_blob (session_at 2 2 5) prepared_machine))
     = trace prepared_machine
       ++ [SavedWeights "generator" "/runs/demo/0000000000000012_generator.h5";
           DumpedDescriptor "/runs/demo/0000000000000012_checkpoint.yaml" document]) /\
  exists events,
    trace (snd (save Q Q Q keras_config weights_blob (session_at 2 2 5) prepared_machine))
    = trace prepared_machine ++ events /\
    (only_weights Q prepared_machine
       (snd (save Q Q Q keras_config weights_blob (session_at 2 2 5) prepared_machine))
       events \/
     exists w1,
       generation_written Q Q Q (session_at 2 2 5) prepared_machine w1
         (snd (save Q Q Q keras_config weights_blob (session_at 2 2 5) prepared_machine))
         (fst (save Q Q Q keras_config weights_blob (session_at 2 2 5) prepared_machine))
         events).
Proof.
  split.
  - eexists. vm_compute. reflexivity.
  - exact (save_writes_weights_before_descriptor Q Q Q keras_config weights_blob
             (session_at 2 2 5) prepared_machine).
Defined.

Lemma offset_after_checkpoint_at_step_12 :
  exists ctx' w',
    save Q Q Q keras_config weights_blob (session_at 2 2 5) prepared_machine
    = (Returned ctx', w') /\
    ctx_global_step Q Q ctx' = YInt 10 /\
    global_step Q Q ctx' = Returned 12 /\
    subscript (ctx_experiment Q Q ctx') "global_step" = Returned (YInt 12).
Proof.
  assert (H : exists ctx' w',
             save Q Q Q keras_config weights_blob (session_at 2 2 5) prepared_machine
             = (Returned ctx', w'))
    by (eexists; eexists; vm_compute; reflexivity).
  destruct H as [ctx' [w' H]]. exists ctx', w'. split; [exact H|].
  destruct (offset_is_fixed_at_session_start Q expanduser resolve Q Q Q tape_gradient
              apply_gradients keras_config weights_blob concat psnr ssim)
    as [_ [Hsave _]].
  destruct (Hsave _ _ _ _ H) as [_ [Hoffset [Hstep Hdoc]]].
  split; [rewrite Hoffset; reflexivity|].
  split; [rewrite Hstep; reflexivity|].
  destruct Hdoc as [-> | [step [Hs Hdoc]]].
  - vm_compute in H. discriminate H.
  - vm_compute in Hs. injection Hs as <-. exact Hdoc.
Defined.

(** *** Checkpoint discovery and placeholder resolution *)

Definition runs : world Q :=
  {| fs := [("/runs/demo/0000000000000014_checkpoint.yaml", File OtherFile);
            ("/runs/demo/0000000000000014_generator.h5", File OtherFile);
            ("/runs/demo/0000000000000012_checkpoint.yaml", File OtherFile);
            ("/runs/demo/0000000000000012_generator.h5", File OtherFile);
            ("/runs/demo", Dir); ("/runs", Dir)];
     gpus := [];
     trace := [] |}.

Lemma newest_checkpoint_of_the_run :
  find_latest_checkpoint Q "/runs/demo" runs
  = (Returned "/runs/demo/0000000000000014_checkpoint.yaml", runs) /\
  find_latest_checkpoint Q "/runs" runs
  = (Raised (ValueError "Found no checkpoint within /runs"), runs) /\
  exists top,
    In top [14; 12] /\ 14 <= top /\ 12 <= top /\
    find_latest_checkpoint Q "/runs/demo" runs
    = (Returned (path_join "/runs/demo" (step_file_name top "checkpoint.yaml")), runs).
Proof.
  destruct (find_latest_checkpoint_returns_newest Q "/runs/demo" runs)
    as [_ [_ [Hsome [Hhighest _]]]].
  destruct (find_latest_checkpoint_returns_newest Q "/runs" runs)
    as [_ [Hnone _]].
  split; [|split].
  - destruct (Hsome eq_refl) as [name [Hrun [_ [_ [_ ->]]]]];
      [vm_compute; discriminate | exact Hrun].
  - apply Hnone; reflexivity.
  - assert (Hnames : candidates (listdir (fs runs) "/runs/demo")
                     = [step_file_name 14 "checkpoint.yaml";
                        step_file_name 12 "checkpoint.yaml"])
      by (vm_compute; reflexivity).
    destruct (Hhighest [14; 12] eq_refl) as (top & Hin & Hmax & Hrun).
    + discriminate.
    + intros s [<- | [<- | []]]; lia.
    + intros n. rewrite Hnames. split.
      * intros [<- | [<- | []]]; [exists 14 | exists 12];
          (split; [|reflexivity]); [left | right; left]; reflexivity.
      * intros (s & [<- | [<- | []]] & ->); [left | right; left]; reflexivity.
    + exists top. split; [exact Hin|].
      split; [apply Hmax; left; reflexivity|].
      split; [apply Hmax; right; left; reflexivity | exact Hrun].
Defined.

Lemma resolved_paths_of_a_descriptor :
  resolve_strings expanduser resolve
    (YDict [("checkpoint", YDict [("path", YStr "runs/{experiment_name}")]);
            ("note", YStr "{experiment_name}-{experiment_name}");
            ("paths", YList [YStr "~/{experiment_name}"]);
            ("cycle", YInt 2)])
    "demo"
  = Returned
      (YDict [("checkpoint", YDict [("path", YStr "/work/runs/demo")]);
              ("note", YStr "demo-demo");
              ("paths", YList [YStr "~/demo"]);
              ("cycle", YInt 2)]) /\
  PyStr.replace placeholder "demo" "runs/{experiment_name}" = "runs/demo"%string /\
  normalize_path expanduser resolve "~/logs" = "/home/user/logs"%string.
Proof.
  destruct (resolve_strings_replaces_and_normalizes expanduser resolve "demo")
    as [_ [Hdict [_ [Hocc [_ [Hhome _]]]]]].
  split; [|split].
  - destruct (Hdict [("checkpoint", YDict [("path", YStr "runs/{experiment_name}")]);
                     ("note", YStr "{experiment_name}-{experiment_name}");
                     ("paths", YList [YStr "~/{experiment_name}"]);
                     ("cycle", YInt 2)]) as [entries' [Hrun _]].
    rewrite Hrun. vm_compute in Hrun. injection Hrun as <-. reflexivity.
  - exact (Hocc "runs/"%string ""%string eq_refl).
  - exact (Hhome "~/logs"%string eq_refl eq_refl).
Defined.

(** *** Further sessions *)

(** The value a run returned, or a default when it raised. *)
Definition returned {A} (r : outcome A * world Q) (default : A) : A :=
  match fst r with
  | Returned a => a
  | Raised _ => default
  end.

(** The session as [load_experiment] returns it on two GPUs. *)
Definition loaded : context Q Q :=
  loaded_context Q Q (resolved expanduser resolve "demo" descriptor) two_replicas (YInt 10).

Example loaded_by_the_script :
  load_experiment Q expanduser resolve Q Q "/exp.yaml" two_gpus
  = (Returned loaded, prepared_machine).
Proof. vm_compute. reflexivity. Qed.

Example prepared_from_loaded :
  build_datasets Q Q Q (list (list Q)) build_dataset distribute loaded prepared_machine
  = (Returned prepared, prepared_machine).
Proof. vm_compute. reflexivity. Qed.

(** The entry of the optimizer of the demonstration. *)
Definition adam_g_entry (cycle : Z) : list (string * yaml) :=
  [("optimizer", YStr "Adam");
   ("learning_rate", YFloat 0.5%float);
   ("extension_model", YStr "trainer");
   ("dataset", YDict [("name", YStr "A"); ("input_indices", YList [YInt 1; YInt 0])]);
   ("cycle", YInt cycle)].

Lemma adam_from_the_learning_rate :
  build_optimizer two_replicas (YDict (adam_g_entry 1))
  = Returned {| iterations := PerReplica [0; 0];
                hyper := YDict [("learning_rate", YFloat 0.5%float)] |} /\
  build_optimizer two_replicas
    (YDict (PyDict.set "config" (YDict [("beta_1", YFloat 0.5%float)]) (adam_g_entry 1)))
  = Returned {| iterations := PerReplica [0; 0];
                hyper := YDict [("beta_1", YFloat 0.5%float)] |}.
Proof.
  split.
  - destruct (build_optimizer_prefers_saved_configuration two_replicas
                (adam_g_entry 1) "Adam" eq_refl eq_refl) as [_ [H _]].
    exact (H _ (or_introl eq_refl) eq_refl).
  - destruct (build_optimizer_prefers_saved_configuration two_replicas
                (PyDict.set "config" (YDict [("beta_1", YFloat 0.5%float)])
                   (adam_g_entry 1)) "Adam" eq_refl eq_refl) as [H _].
    apply (H [("beta_1", YFloat 0.5%float)] eq_refl). discriminate.
Defined.

Lemma datasets_of_the_demonstration :
  exists datasets,
    ctx_datasets Q Q prepared = Some datasets /\
    PyDict.get "A" datasets
    = Some (distribute two_replicas
              (build_dataset (YList [YStr "train"]) 8 (YInt 1) (YBool true))).
Proof.
  edestruct build_datasets_scales_batch_size_by_gpus
    as (_ & _ & _ & _ & _ & _ & entries & datasets & Hsub & Hds & _ & Hall);
    [exact prepared_from_loaded|].
  vm_compute in Hsub. injection Hsub as <-.
  edestruct (Hall ltac:(repeat constructor; simpl; intuition discriminate) "A")
    as (subsets & batch_size & sample_rate & augment & H1 & H2 & H3 & H4 & Hget);
    [left; reflexivity|].
  vm_compute in H1, H2, H3, H4.
  injection H1 as <-. injection H2 as <-. injection H3 as <-. injection H4 as <-.
  exists datasets. split; [exact Hds | exact Hget].
Defined.

Lemma training_needs_the_models_built :
  build_models Q Q Q Q tape_gradient apply_gradients load_blob model_provider
    loaded prepared_machine
  = (Raised (ValueError "build datasets before building models"), prepared_machine) /\
  train Q Q Q Q tape_gradient apply_gradients loaded prepared_machine
  = (Raised (KeyError "optimizers"), prepared_machine).
Proof.
  destruct (units_need_the_session_built Q expanduser resolve Q Q Q tape_gradient
              apply_gradients keras_config weights_blob load_blob concat psnr ssim
              model_provider (list (list Q)) build_dataset distribute
              "/exp.yaml" two_gpus loaded prepared_machine loaded_by_the_script)
    as (_ & _ & _ & Hbuild & Htrain & _).
  split; [apply Hbuild | apply Htrain].
Defined.

Lemma directories_of_the_demonstration :
  checkpoint_dir (ctx_experiment Q Q loaded) = Returned "/runs/demo" /\
  summary_dir (ctx_experiment Q Q loaded) = Returned "/home/user/logs/demo" /\
  In (MadeDirs "/runs/demo") (trace prepared_machine).
Proof.
  edestruct load_experiment_resolves_with_the_experiment_name
    as (name & c & cp & s & sp & Hn & Hc & Hcp & Hs & Hsp & _ & Hcd & Hsd & Hmade & _);
    [|exact loaded_by_the_script|].
  - reflexivity.
  - vm_compute in Hn. injection Hn as <-.
    vm_compute in Hc. injection Hc as <-.
    vm_compute in Hcp. injection Hcp as <-.
    vm_compute in Hs. injection Hs as <-.
    vm_compute in Hsp. injection Hsp as <-.
    split; [exact Hcd|]. split; [exact Hsd | exact Hmade].
Defined.

(** *** A round from step 11 *)

Definition train_at_11 : outcome (context Q Q) * world Q :=
  train Q Q Q Q tape_gradient apply_gradients (session_at 1 1 3) prepared_machine.

Definition validate_at_12 : outcome (context Q Q) * world Q :=
  validate Q Q Q concat psnr ssim
    (returned train_at_11 (session_at 1 1 3)) (snd train_at_11).

Definition save_at_12 : outcome (context Q Q) * world Q :=
  save Q Q Q keras_config weights_blob
    (returned validate_at_12 (session_at 1 1 3)) (snd validate_at_12).

Example train_at_11_returns :
  train Q Q Q Q tape_gradient apply_gradients (session_at 1 1 3) prepared_machine
  = (Returned (returned train_at_11 (session_at 1 1 3)), snd train_at_11).
Proof. vm_compute. reflexivity. Qed.

Example validate_at_12_returns :
  validate Q Q Q concat psnr ssim
    (returned train_at_11 (session_at 1 1 3)) (snd train_at_11)
  = (Returned (returned validate_at_12 (session_at 1 1 3)), snd validate_at_12).
Proof. vm_compute. reflexivity. Qed.

Example save_at_12_returns :
  save Q Q Q keras_config weights_blob
    (returned validate_at_12 (session_at 1 1 3)) (snd validate_at_12)
  = (Returned (returned save_at_12 (session_at 1 1 3)), snd save_at_12).
Proof. vm_compute. reflexivity. Qed.

Lemma a_round_logs_under_11_and_12 :
  only_logs Q ["loss"] 11 prepared_machine (snd train_at_11) /\
  only_logs Q ["psnr"; "ssim"; "hd-sr"] 12 (snd train_at_11) (snd validate_at_12).
Proof.
  split.
  - apply (proj1 (train_and_validate_log_under_the_step_at_entry Q Q Q Q tape_gradient
                    apply_gradients concat psnr ssim (session_at 1 1 3) 11
                    prepared_machine ltac:(vm_compute; reflexivity))
             (fst train_at_11)).
    apply surjective_pairing.
  - apply (proj2 (train_and_validate_log_under_the_step_at_entry Q Q Q Q tape_gradient
                    apply_gradients concat psnr ssim
                    (returned train_at_11 (session_at 1 1 3)) 12
                    (snd train_at_11) ltac:(vm_compute; reflexivity))
             (fst validate_at_12)).
    apply surjective_pairing.
Defined.

Definition two_rounds : outcome (context Q Q) * world Q :=
  rounds Q Q Q Q tape_gradient apply_gradients keras_config weights_blob concat psnr ssim
    2 (session_at 1 1 3) prepared_machine.

Lemma the_step_after_two_rounds :
  exists s',
    global_step Q Q (returned two_rounds (session_at 1 1 3)) = Returned s' /\ 11 <= s'.
Proof.
  destruct (global_step_never_decreases Q Q Q Q tape_gradient apply_gradients
              keras_config weights_blob concat psnr ssim (session_at 1 1 3) 11
              ltac:(vm_compute; reflexivity))
    as (_ & _ & _ & Hrounds & _).
  apply (Hrounds 2%nat prepared_machine _ (snd two_rounds)).
  vm_compute. reflexivity.
Defined.

(** A descriptor whose optimizer trains at every other step only. *)
Definition slow_descriptor : yaml :=
  match descriptor with
  | YDict d =>
      YDict (PyDict.set "optimizers" (YDict [("adam_g", YDict (adam_g_entry 2))]) d)
  | other => other
  end.

Definition stalled : context Q Q :=
  set_experiment Q Q (session_at 1 1 3) (resolved expanduser resolve "demo" slow_descriptor).

Definition three_stalled_rounds : outcome (context Q Q) * world Q :=
  rounds Q Q Q Q tape_gradient apply_gradients keras_config weights_blob concat psnr ssim
    3 stalled prepared_machine.

Lemma no_training_at_step_11 :
  train Q Q Q Q tape_gradient apply_gradients stalled prepared_machine
  = (Returned stalled, prepared_machine) /\
  global_step Q Q (returned three_stalled_rounds (session_at 0 0 0)) = Returned 11.
Proof.
  assert (Hclosed : no_optimizer_fires Q Q stalled 11).
  { intros os name Hos Hin. vm_compute in Hos. injection Hos as <-.
    destruct Hin as [<- | []]. vm_compute. reflexivity. }
  destruct (training_stalls_when_no_optimizer_fires Q Q Q Q tape_gradient apply_gradients
              keras_config weights_blob concat psnr ssim stalled 11
              ltac:(vm_compute; reflexivity) ltac:(discriminate) Hclosed)
    as [Htrain Hrounds].
  split; [apply Htrain|].
  apply (Hrounds 3%nat prepared_machine _ (snd three_stalled_rounds)).
  vm_compute. reflexivity.
Defined.

(** *** The checkpoint of step 12 *)

Definition checkpoint_12 : outcome (context Q Q) * world Q :=
  save Q Q Q keras_config weights_blob (session_at 2 2 5) prepared_machine.

Example checkpoint_12_returns :
  save Q Q Q keras_config weights_blob (session_at 2 2 5) prepared_machine
  = (Returned (returned checkpoint_12 (session_at 2 2 5)), snd checkpoint_12).
Proof. vm_compute. reflexivity. Qed.

Lemma adam_of_the_checkpoint_at_step_12 :
  exists config',
    (o <-- subscript (ctx_experiment Q Q (returned checkpoint_12 (session_at 2 2 5)))
             "optimizers" ;;
     subscript o "adam_g") = Returned config' /\
    build_optimizer two_replicas config'
    = Returned {| iterations := PerReplica [0; 0];
                  hyper := YDict [("learning_rate", YFloat 0.5%float)] |}.
Proof.
  destruct (checkpoint_restores_optimizer_configuration Q Q Q keras_config weights_blob
              (session_at 2 2 5) prepared_machine
              (returned checkpoint_12 (session_at 2 2 5)) (snd checkpoint_12)
              12 "adam_g" (YDict (adam_g_entry 1))
              checkpoint_12_returns
              ltac:(vm_compute; reflexivity) ltac:(vm_compute; reflexivity)
              ltac:(vm_compute; reflexivity))
    as (os & o & config' & Hos & Hget & Hcfg & _ & Hbuild).
  vm_compute in Hos. injection Hos as <-.
  vm_compute in Hget. injection Hget as <-.
  exists config'. split; [exact Hcfg|].
  apply (Hbuild two_replicas [("learning_rate", YFloat 0.5%float)] "Adam");
    [reflexivity | discriminate | reflexivity | reflexivity].
Defined.

Lemma resuming_from_the_checkpoint_at_step_12 :
  exists ctx2 w2,
    load_experiment Q expanduser resolve Q Q
      "/runs/demo/0000000000000012_checkpoint.yaml" (snd checkpoint_12)
    = (Returned ctx2, w2) /\
    ctx_global_step Q Q ctx2 = YInt 12.
Proof.
  destruct (checkpoint_loads_at_the_saved_step Q expanduser resolve Q Q keras_config
              weights_blob (session_at 2 2 5) prepared_machine
              (returned checkpoint_12 (session_at 2 2 5)) (snd checkpoint_12) 12
              checkpoint_12_returns
              ltac:(vm_compute; reflexivity) ltac:(vm_compute; reflexivity))
    as (dir & Hdir & _ & _ & Hload & _).
  vm_compute in Hdir. injection Hdir as <-.
  assert (H : exists ctx2 w2,
             load_experiment Q expanduser resolve Q Q
               "/runs/demo/0000000000000012_checkpoint.yaml" (snd checkpoint_12)
             = (Returned ctx2, w2))
    by (eexists; eexists; vm_compute; reflexivity).
  destruct H as (ctx2 & w2 & H). exists ctx2, w2. split; [exact H|].
  exact (Hload ctx2 w2 H).
Defined.

Lemma checkpoints_12_and_14_are_different_files :
  path_join "/runs/demo" (step_file_name 12 "checkpoint.yaml")
  <> path_join "/runs/demo" (step_file_name 14 "checkpoint.yaml") /\
  String.compare (step_file_name 12 "checkpoint.yaml") (step_file_name 14 "checkpoint.yaml")
  = Lt.
Proof.
  destruct (checkpoints_of_different_steps_are_different_files 12 14 "checkpoint.yaml"
              "/runs/demo" ltac:(lia) ltac:(lia))
    as (_ & Hcompare & _ & Hfiles).
  split; [apply Hfiles; discriminate | exact Hcompare].
Defined.

(** *** The adapters of the demonstration *)

Example models_built :
  build_models Q Q Q Q tape_gradient apply_gradients load_blob model_provider
    prepared prepared_machine
  = (Returned (session_at 1 1 3), prepared_machine).
Proof. vm_compute. reflexivity. Qed.

Lemma adapter_of_the_trainer :
  exists m' a,
    ctx_models Q Q (session_at 1 1 3) = Some m' /\
    PyDict.get "trainer" (strategic_extensions Q Q m') = Some a /\
    ta_optimizer Q Q a = "adam_g"%string /\
    ta_num_replicas Q Q a = 2 /\
    PyDict.get "critic" (strategic_extensions Q Q m') = None.
Proof.
  destruct (build_models_keeps_the_adapter_of_the_last_trainer Q Q Q Q tape_gradient
              apply_gradients load_blob model_provider prepared prepared_machine
              (session_at 1 1 3) prepared_machine [("adam_g", YDict (adam_g_entry 1))]
              models_built ltac:(vm_compute; reflexivity))
    as (m' & Hm & Hnone & Hsome & _).
  destruct (Hsome "trainer"%string ("adam_g"%string, YDict (adam_g_entry 1)) eq_refl)
    as (a & Hget & Ho & _ & Hn & _).
  exists m', a. repeat split; try assumption.
  apply Hnone. reflexivity.
Defined.

(** The validator of the demonstration, as the resolved descriptor has it. *)
Definition check_validator : yaml :=
  YDict [("name", YStr "check");
         ("principal_model", YStr "generator");
         ("dataset",
          YDict [("name", YStr "B"); ("input_indices", YList [YInt 0]);
                 ("hd_image_index", YInt 1)]);
         ("cycle", YInt 2)].

Lemma adapter_of_the_generator :
  exists m' a,
    ctx_models Q Q (session_at 1 1 3) = Some m' /\
    PyDict.get "generator" (strategic_principals Q Q m') = Some a /\
    va_strategy Q Q a = two_replicas /\
    va_index_hd_images Q Q a = YInt 1.
Proof.
  destruct (build_models_keeps_the_adapter_of_the_last_validator Q Q Q Q tape_gradient
              apply_gradients load_blob model_provider prepared prepared_machine
              (session_at 1 1 3) prepared_machine [check_validator]
              models_built ltac:(vm_compute; reflexivity))
    as (m' & Hm & _ & Hsome).
  destruct (Hsome "generator"%string check_validator eq_refl)
    as (a & Hget & Hs & _ & _ & Hhd).
  exists m', a. repeat split; try assumption.
  vm_compute in Hhd. injection Hhd as Hhd. symmetry. exact Hhd.
Defined.

(** *** The units of the round at step 11 *)

Definition unit_of_adam_g : outcome (context Q Q) * world Q :=
  train_unit Q Q Q Q tape_gradient apply_gradients 11 [("trainer", training)]
    (session_at 1 1 3) "adam_g" prepared_machine.

Example unit_of_adam_g_returns :
  train_unit Q Q Q Q tape_gradient apply_gradients 11 [("trainer", training)]
    (session_at 1 1 3) "adam_g" prepared_machine
  = (Returned (returned unit_of_adam_g (session_at 1 1 3)), snd unit_of_adam_g).
Proof. vm_compute. reflexivity. Qed.

Lemma adam_g_makes_its_second_update :
  ctx_optimizers Q Q (returned unit_of_adam_g (session_at 1 1 3))
  = Some [("adam_g",
           {| iterations := PerReplica [2; 2];
              hyper := YDict [("learning_rate", YFloat 0.5%float)] |})].
Proof.
  destruct (training_unit_updates_the_optimizer_of_its_adapter Q Q Q Q tape_gradient
              apply_gradients 11 [("trainer", training)] (session_at 1 1 3) "adam_g"
              prepared_machine (returned unit_of_adam_g (session_at 1 1 3))
              (snd unit_of_adam_g) (YDict (adam_g_entry 1))
              ltac:(vm_compute; reflexivity) ltac:(vm_compute; reflexivity)
              unit_of_adam_g_returns)
    as (e & a & os & o & dn & ds & b & rest & loss & He & Ha & Hos & Ho & Hres & _).
  vm_compute in He. injection He as <-.
  vm_compute in Ha. injection Ha as <-.
  vm_compute in Hos. injection Hos as <-.
  vm_compute in Ho. injection Ho as <-.
  rewrite Hres. reflexivity.
Defined.

Lemma nothing_to_load_for_the_generator :
  load_weights_unit Q Q Q load_blob (fs prepared_machine) (session_at 1 1 3)
    ("generator"%string, YDict [])
  = Returned (session_at 1 1 3) /\
  load_weights_unit Q Q Q load_blob (fs prepared_machine) (session_at 1 1 3)
    ("generator"%string, YDict [("path", YStr "/runs/demo/missing.h5")])
  = Returned (session_at 1 1 3).
Proof.
  destruct (weights_are_loaded_only_from_existing_files Q Q Q load_blob
              (fs prepared_machine) (session_at 1 1 3) eq_refl)
    as (Hskip & _ & _).
  split; apply Hskip; eexists; (split; [reflexivity|]).
  - left. reflexivity.
  - right. right. eexists. split; reflexivity.
Defined.

Definition unit_of_check : outcome (context Q Q) * world Q :=
  validate_unit Q Q Q concat psnr ssim 12 [("generator", validating two_replicas)]
    (session_at 2 2 5) check_validator prepared_machine.

Example unit_of_check_returns :
  validate_unit Q Q Q concat psnr ssim 12 [("generator", validating two_replicas)]
    (session_at 2 2 5) check_validator prepared_machine
  = (Returned (returned unit_of_check (session_at 2 2 5)), snd unit_of_check).
Proof. vm_compute. reflexivity. Qed.

Lemma check_scores_its_batch :
  trace (snd unit_of_check)
  = trace prepared_machine
    ++ [SummaryScalar "psnr" (YStr "check") 12 14;
        SummaryScalar "ssim" (YStr "check") 12 120;
        SummaryImage "hd-sr" (YStr "check") 12;
        LoggedInfo "psnr"; LoggedInfo "ssim"].
Proof.
  destruct (validation_unit_scores_the_batch_it_draws Q Q Q concat psnr ssim 12
              [("generator", validating two_replicas)] (session_at 2 2 5)
              check_validator prepared_machine
              (returned unit_of_check (session_at 2 2 5)) (snd unit_of_check)
              ltac:(vm_compute; reflexivity) unit_of_check_returns)
    as (dn & ds & b & rest & e & a & m & results & name & Hdn & Hds & Hb & He & Ha
        & Hm & Hrun & Hname & _ & _ & Htrace).
  vm_compute in Hdn. injection Hdn as <-.
  vm_compute in Hds. injection Hds as <-.
  vm_compute in Hb. injection Hb as <- <-.
  vm_compute in He. injection He as <-.
  vm_compute in Ha. injection Ha as <-.
  vm_compute in Hm. injection Hm as <-.
  vm_compute in Hrun. injection Hrun as <-.
  vm_compute in Hname. injection Hname as <-.
  etransitivity; [exact Htrace|]. vm_compute. reflexivity.
Defined.

Lemma the_round_from_11_checkpoints_12 :
  exists s1,
    global_step Q Q (returned train_at_11 (session_at 1 1 3)) = Returned s1 /\
    11 <= s1 /\
    global_step Q Q (returned save_at_12 (session_at 1 1 3)) = Returned s1 /\
    subscript (ctx_experiment Q Q (returned save_at_12 (session_at 1 1 3))) "global_step"
    = Returned (YInt s1).
Proof.
  destruct (validate_and_save_use_the_step_train_left Q Q Q Q tape_gradient
              apply_gradients keras_config weights_blob concat psnr ssim
              (session_at 1 1 3) prepared_machine
              (returned train_at_11 (session_at 1 1 3)) (snd train_at_11)
              (returned validate_at_12 (session_at 1 1 3)) (snd validate_at_12)
              (returned save_at_12 (session_at 1 1 3)) (snd save_at_12) 11
              ltac:(vm_compute; reflexivity)
              train_at_11_returns validate_at_12_returns save_at_12_returns)
    as (s1 & Hs1 & Hle & _ & _ & _ & Hs3 & [[_ Hsame] | Hdoc]).
  - apply (f_equal (fun w => List.length (trace w))) in Hsame.
    vm_compute in Hsame. discriminate Hsame.
  - exists s1. repeat split; assumption.
Defined.

Lemma the_resumed_session_checkpoints_in_the_same_directory :
  exists ctx2 w2,
    load_experiment Q expanduser resolve Q Q
      "/runs/demo/0000000000000012_checkpoint.yaml" (snd checkpoint_12)
    = (Returned ctx2, w2) /\
    checkpoint_dir (ctx_experiment Q Q ctx2) = Returned "/runs/demo" /\
    summary_dir (ctx_experiment Q Q ctx2) = Returned "/home/user/logs/demo".
Proof.
  assert (H : exists ctx2 w2,
             load_experiment Q expanduser resolve Q Q
               (path_join "/runs/demo" (step_file_name 12 "checkpoint.yaml"))
               (snd checkpoint_12)
             = (Returned ctx2, w2))
    by (eexists; eexists; vm_compute; reflexivity).
  destruct H as (ctx2 & w2 & H). exists ctx2, w2.
  destruct (resumed_session_keeps_its_directories Q expanduser resolve Q Q keras_config
              weights_blob (session_at 2 2 5) prepared_machine
              (returned checkpoint_12 (session_at 2 2 5)) (snd checkpoint_12) 12
              "/runs/demo" ctx2 w2 checkpoint_12_returns
              ltac:(vm_compute; reflexivity) ltac:(vm_compute; reflexivity)
              ltac:(vm_compute; reflexivity) eq_refl eq_refl H)
    as (Hdir & _ & Hsum).
  split; [exact H|]. split; [exact Hdir|].
  apply Hsum; [vm_compute; reflexivity | reflexivity | reflexivity].
Defined.

Lemma the_generator_of_step_12_is_read_back :
  lookup "/runs/demo/0000000000000012_generator.h5" (fs (snd checkpoint_12))
  = Some (File (WeightsFile (weights_blob "generator" 5))) /\
  exists ctx2 w2 pcs2 config2,
    load_experiment Q expanduser resolve Q Q
      "/runs/demo/0000000000000012_checkpoint.yaml" (snd checkpoint_12)
    = (Returned ctx2, w2) /\
    referenced_principals (ctx_experiment Q Q ctx2) = Returned pcs2 /\
    PyDict.get "generator" pcs2 = Some config2 /\
    load_weights_unit Q Q Q load_blob (fs w2) (session_at 1 1 3) ("generator", config2)
    = Returned (session_at 1 1 5).
Proof.
  assert (H : exists ctx2 w2,
             load_experiment Q expanduser resolve Q Q
               (path_join "/runs/demo" (step_file_name 12 "checkpoint.yaml"))
               (snd checkpoint_12)
             = (Returned ctx2, w2))
    by (eexists; eexists; vm_compute; reflexivity).
  destruct H as (ctx2 & w2 & H).
  destruct (checkpoint_weights_are_read_back Q expanduser resolve Q Q keras_config
              weights_blob load_blob (session_at 2 2 5) prepared_machine
              (returned checkpoint_12 (session_at 2 2 5)) (snd checkpoint_12) 12
              "/runs/demo"
              {| extensions := [("trainer", trainer)];
                 principals := [("generator", generator)];
                 strategic_extensions := [("trainer", training)];
                 strategic_principals := [("generator", validating two_replicas)];
                 weights := 5%Q |}
              [("generator", YDict [])] "generator"
              checkpoint_12_returns
              ltac:(vm_compute; reflexivity) ltac:(vm_compute; reflexivity)
              ltac:(lia) ltac:(vm_compute; reflexivity) eq_refl
              ltac:(vm_compute; reflexivity)
              ltac:(repeat constructor; simpl; tauto)
              ltac:(left; reflexivity))
    as [Hfile Hback].
  split; [exact Hfile|].
  destruct (Hback ctx2 w2 eq_refl ltac:(vm_compute; reflexivity) H)
    as (pcs2 & config2 & Hpcs2 & Hget & _ & _ & Hload).
  exists ctx2, w2, pcs2, config2.
  split; [exact H|]. split; [exact Hpcs2|]. split; [exact Hget|].
  exact (Hload (session_at 1 1 3) _ generator eq_refl eq_refl).
Defined.

Lemma the_trainer_divides_its_loss_by_two :
  num_replicas_in_sync (ctx_strategy Q Q (session_at 1 1 3)) = 2%nat /\
  ta_strategy Q Q training = two_replicas /\
  ta_num_replicas Q Q training = 2.
Proof.
  destruct (session_scales_the_loss_by_its_replicas Q expanduser resolve Q Q Q
              tape_gradient apply_gradients load_blob model_provider
              (list (list Q)) build_dataset distribute
              "/exp.yaml" two_gpus loaded prepared_machine prepared prepared_machine
              (session_at 1 1 3) prepared_machine
              loaded_by_the_script prepared_from_loaded models_built)
    as (_ & Hn & m & Hm & Hall).
  injection Hm as <-.
  destruct (Hall "trainer" training eq_refl) as (Hs & Hnum & _).
  split; [exact Hn|]. split; [exact Hs|].
  rewrite Hnum, Hn. reflexivity.
Defined.

End Demo.
